(** * Idea-Scraper frontend: the authentication context (AuthContext.tsx)

    A shallow embedding of [frontend/src/contexts/AuthContext.tsx] and the
    properties of its session and identity logic.

    The component keeps three pieces of React state ([user], [loading],
    [userCache]) and talks to two external services through the Supabase
    SDK: the auth service and the [User] table.  The embedding is a state
    and exception monad over

    - the React state,
    - an abstract world [W] standing for the two services, reached only
      through a record of handlers ([Backend]), one per SDK call,
    - a log of everything observable: each SDK call and each state setter.

    Every function of the component is defined inside a section whose
    variable [userCache_snapshot] is the value of the [userCache] binding
    of the render that created the closures: reads of [userCache] see that
    snapshot, while [setUserCache (prev => ...)] acts on the current state.

    [handleAuthError] and [retryOperation], which nothing in the component
    calls, are modelled on their own after the component, followed by the
    login form (components/Login.tsx), the protected route (App.tsx) and
    the list logic of components/Home.tsx.  Left out: [checkSupabaseConfig],
    which neither reads nor writes the state, and the console output.
*)

From Stdlib Require Import ZArith QArith Qround Ascii String List Bool Lia.
From stdpp Require Import base decidable option gmap strings.

Local Close Scope Q_scope.
Local Open Scope string_scope.
Local Open Scope list_scope.

(** ** Data *)

(** [user_id] is typed [number] in lib/supabase.ts while the auth service
    issues string ids and [authUser] is [any]; [!==] compares them
    strictly, so a number never equals a string. *)
Inductive Id : Type :=
| IdNum (n : Z)
| IdStr (s : string).

#[global] Instance Id_eq_dec : EqDecision Id.
Proof. solve_decision. Defined.

(** [interface User] of lib/supabase.ts; also the shape of [userData]. *)
Record User : Type := mkUser {
  user_id : Id;
  first_name : string;
  last_name : string;
  email : string;
  password_hash : string;
  last_session_refresh : string;
  is_paid : bool;
  created_at : string;
  updated_at : string
}.

(** The auth service's user object, as far as the component reads it. *)
Record AuthUser : Type := mkAuthUser {
  au_id : Id;
  au_email : option string;
  email_confirmed_at : option string
}.

Record Session : Type := mkSession { session_user : option AuthUser }.

(** [AuthError]: an [Error] with optional [code] and [status]. *)
Record AuthError : Type := mkAuthError {
  ae_code : option string;
  ae_message : string;
  ae_status : option Z
}.

(** [{ data, error }] of [signUp] and [signInWithPassword]; [data?.user]
    is [ar_user]. *)
Record AuthResponse : Type := mkAuthResponse {
  ar_user : option AuthUser;
  ar_error : option AuthError
}.

(** [{ data: { session } }] of [getSession]; [session?.user] is
    [sr_user]. *)
Record SessionResponse : Type := mkSessionResponse {
  sr_session : option Session
}.

Definition sr_user (r : SessionResponse) : option AuthUser :=
  match sr_session r with
  | Some s => session_user s
  | None => None
  end.

Record PgError : Type := mkPgError {
  pg_message : string;
  pg_details : string;
  pg_hint : string;
  pg_code : string
}.

(** The answer [{ data, error }] of a [.single()] query.  The client is
    created without a schema type, so [data] is [any]; the component reads
    the two fields separately, and only [error] is tested before [data]
    is used.  The SDK documents a row exactly when [error] is null
    ([PgOk], [PgErr]); the types do not rule out an answer with neither
    ([PgNull]), and the code does not test for it. *)
Record PgSingle : Type := mkPgSingle {
  pg_data : option User;
  pg_error : option PgError
}.

Abbreviation PgOk data := (mkPgSingle (Some data) None).
Abbreviation PgErr error := (mkPgSingle None (Some error)).
Abbreviation PgNull := (mkPgSingle None None).

(** A thrown JavaScript value, as far as the handlers read it
    ([error?.message]). *)
Record Exn : Type := mkExn { exn_message : option string }.

Definition Error (msg : string) : Exn := mkExn (Some msg).

(** How a promise returned by the SDK settles.  [late] says that the timer
    the promise is raced against (where there is one) fires first: the
    promise is then dropped, whatever it settles to afterwards.  Where the
    promise is awaited without a timer, it is taken to settle, as
    [settled] says. *)
Inductive Settled (X : Type) : Type :=
| Fulfilled (x : X)
| Rejected (e : Exn).
Arguments Fulfilled {X} x.
Arguments Rejected {X} e.

Record Outcome (X : Type) : Type := mkOutcome {
  late : bool;
  settled : Settled X
}.
Arguments mkOutcome {X} late settled.
Arguments late {X} o.
Arguments settled {X} o.

(** The timers raced against a whole async block rather than one call. *)
Inductive Timer : Type :=
| UserSetupTimer      (* login: 'User setup timeout' *)
| UserCreationTimer   (* register: 'User creation timeout' *)
| UserFetchTimer.     (* onAuthStateChange: 'User fetch timeout' *)

(** [userCache : Map<string, User>].  What is stored is the [data] of a
    store answer, which can be null. *)
Abbreviation Cache := (gmap string (option User)).

(** [userCache.get(email)] when it is truthy: a missing key and a key
    that holds null both give nothing. *)
Definition cache_get (c : Cache) (email : string) : option User :=
  match c !! email with
  | Some cachedUser => cachedUser
  | None => None
  end.

(** The React state of [AuthProvider]. *)
Record AuthState : Type := mkAuthState {
  user : option User;
  loading : bool;
  userCache : Cache
}.

(** The observable actions, in the order they happen. *)
Inductive Event : Type :=
| EvSignUp (email password firstName lastName : string)
| EvSignIn (email password : string)
| EvSignOut
| EvGetSession
| EvTableCheck
| EvInsert (userData : User) (res : Outcome PgSingle)
| EvSelectByEmail (email : string) (res : Outcome PgSingle)
| EvUpdateLastLogin (userId : Id) (timestamp : string)
| EvDelete (userId : Id)
| EvSetUser (u : option User)
| EvSetLoading (b : bool)
| EvSetUserCache (prev next : Cache).

(** What [login] and [register] resolve to. *)
Record LoginResult : Type := mkLoginResult { lr_error : option string }.

Record RegisterResult : Type := mkRegisterResult {
  rr_error : option string;
  rr_success : option string
}.

Definition reg_error (msg : string) : RegisterResult :=
  mkRegisterResult (Some msg) None.
Definition reg_success (msg : string) : RegisterResult :=
  mkRegisterResult None (Some msg).

(** ** Strings: [toLowerCase] and [includes] (on ASCII text) *)

Definition lower_ascii (c : ascii) : ascii :=
  let n := nat_of_ascii c in
  if (65 <=? n)%nat && (n <=? 90)%nat then ascii_of_nat (n + 32) else c.

Fixpoint toLowerCase (s : string) : string :=
  match s with
  | EmptyString => EmptyString
  | String c s' => String (lower_ascii c) (toLowerCase s')
  end.

Fixpoint includes (needle hay : string) : bool :=
  String.prefix needle hay ||
  match hay with
  | EmptyString => false
  | String _ hay' => includes needle hay'
  end.

(** [a === b] on optional strings. *)
Definition opt_is (a : option string) (b : string) : bool :=
  match a with
  | Some s => String.eqb s b
  | None => false
  end.

(** [email || ''] *)
Definition or_empty (e : option string) : string :=
  match e with
  | Some s => s
  | None => ""
  end.

(** ** The services *)

(** One handler per SDK call. *)
Record Backend (W : Type) : Type := mkBackend {
  auth_signUp : string -> string -> string -> string -> W -> Outcome AuthResponse * W;
  auth_signInWithPassword : string -> string -> W -> Outcome AuthResponse * W;
  auth_signOut : W -> Outcome (option AuthError) * W;
  auth_getSession : W -> Outcome SessionResponse * W;
  db_table_check : W -> Outcome (option PgError) * W;
  db_insert : User -> W -> Outcome PgSingle * W;
  db_select_by_email : string -> W -> Outcome PgSingle * W;
  db_update_last_login : Id -> string -> W -> Outcome (option PgError) * W;
  db_delete_by_user_id : Id -> W -> Outcome (option PgError) * W;
  date_now : W -> string * W;
  timer_first : Timer -> W -> bool * W
}.
Arguments auth_signUp {W} _ _ _ _ _ _.
Arguments auth_signInWithPassword {W} _ _ _ _.
Arguments auth_signOut {W} _ _.
Arguments auth_getSession {W} _ _.
Arguments db_table_check {W} _ _.
Arguments db_insert {W} _ _ _.
Arguments db_select_by_email {W} _ _ _.
Arguments db_update_last_login {W} _ _ _ _.
Arguments db_delete_by_user_id {W} _ _ _.
Arguments date_now {W} _ _.
Arguments timer_first {W} _ _ _.

(** ** The machine and its monad *)

Record Machine (W : Type) : Type := mkMachine {
  ui : AuthState;
  world : W;
  log : list Event
}.
Arguments mkMachine {W} ui world log.
Arguments ui {W} m.
Arguments world {W} m.
Arguments log {W} m.

(** A settled async computation: a value or a thrown exception. *)
Inductive Res (A : Type) : Type :=
| Ok (a : A)
| Throw (e : Exn).
Arguments Ok {A} a.
Arguments Throw {A} e.

(** Early [return] inside a block that the function continues after. *)
Inductive Ctl (R : Type) : Type :=
| Returned (r : R)
| Next.
Arguments Returned {R} r.
Arguments Next {R}.

Definition M (W A : Type) : Type := Machine W -> Res A * Machine W.

Definition ret {W A} (a : A) : M W A := fun m => (Ok a, m).

Definition throw {W A} (e : Exn) : M W A := fun m => (Throw e, m).

Definition bind {W A B} (c : M W A) (k : A -> M W B) : M W B :=
  fun m =>
    match c m with
    | (Ok a, m') => k a m'
    | (Throw e, m') => (Throw e, m')
    end.

Notation "'do' x <- c ';' k" := (bind c (fun x => k))
  (at level 10, x name, c at level 100, k at level 200).
Notation "'do_' c ';' k" := (bind c (fun _ => k))
  (at level 10, c at level 100, k at level 200).

(** [try { c } catch (e) { h e }] *)
Definition try_catch {W A} (c : M W A) (h : Exn -> M W A) : M W A :=
  fun m =>
    match c m with
    | (Ok a, m') => (Ok a, m')
    | (Throw e, m') => h e m'
    end.

(** [try { c } catch (e) { h e } finally { f }] *)
Definition try_catch_finally {W A} (c : M W A) (h : Exn -> M W A) (f : M W unit)
  : M W A :=
  fun m =>
    let '(r, m') := try_catch c h m in
    match f m' with
    | (Ok _, m'') => (r, m'')
    | (Throw e, m'') => (Throw e, m'')
    end.

(** An async function called without [await]: its promise is dropped,
    whatever it settles to.  Its effects are taken at the call. *)
Definition spawn {W A} (c : M W A) : M W unit :=
  fun m => (Ok tt, snd (c m)).

(** An SDK call: the handler acts on the world, the call is logged. *)
Definition call {W X} (h : W -> Outcome X * W) (ev : Outcome X -> Event)
  : M W (Outcome X) :=
  fun m =>
    let '(o, w') := h (world m) in
    (Ok o, mkMachine (ui m) w' (log m ++ [ev o])).

(** [await p] *)
Definition await {W X} (o : Outcome X) : M W X :=
  match settled o with
  | Fulfilled x => ret x
  | Rejected e => throw e
  end.

(** [await Promise.race([p, timeoutPromise])] with
    [timeoutPromise] rejecting with [new Error(msg)]. *)
Definition race {W X} (o : Outcome X) (msg : string) : M W X :=
  if late o then throw (Error msg) else await o.

(** [await Promise.race([block, timeoutPromise])] for an async block.
    The block is not cancelled when the timer wins: it runs on and its
    effects land; they are taken here before the race is decided. *)
Definition race_block {W A} (B : Backend W) (t : Timer) (c : M W A) (msg : string)
  : M W A :=
  fun m =>
    let '(r, m') := c m in
    let '(fired, w') := timer_first B t (world m') in
    let m'' := mkMachine (ui m') w' (log m') in
    if fired then (Throw (Error msg), m'') else (r, m'').

(** [new Date().toISOString()] *)
Definition now {W} (B : Backend W) : M W string :=
  fun m =>
    let '(t, w') := date_now B (world m) in
    (Ok t, mkMachine (ui m) w' (log m)).

(** The state setters. *)
Definition setUser {W} (u : option User) : M W unit :=
  fun m =>
    (Ok tt, mkMachine (mkAuthState u (loading (ui m)) (userCache (ui m)))
                      (world m) (log m ++ [EvSetUser u])).

Definition setLoading {W} (b : bool) : M W unit :=
  fun m =>
    (Ok tt, mkMachine (mkAuthState (user (ui m)) b (userCache (ui m)))
                      (world m) (log m ++ [EvSetLoading b])).

(** [setUserCache(prev => f prev)] *)
Definition setUserCache {W} (f : Cache -> Cache) : M W unit :=
  fun m =>
    let prev := userCache (ui m) in
    (Ok tt, mkMachine (mkAuthState (user (ui m)) (loading (ui m)) (f prev))
                      (world m) (log m ++ [EvSetUserCache prev (f prev)])).

(** ** The component *)

Section AuthProvider.

Context {W : Type}.
Variable B : Backend W.

(** The [userCache] binding of the render whose closures are running. *)
Variable userCache_snapshot : Cache.

(** [clearStaleCache(email?)]: one entry when [email] is truthy, the
    whole cache otherwise. *)
Definition clearStaleCache (email : option string) : M W unit :=
  match email with
  | Some e =>
      if String.eqb e "" then setUserCache (fun _ => ∅)
      else setUserCache (fun prev => delete e prev)
  | None => setUserCache (fun _ => ∅)
  end.

Definition createUserInCustomTable (authUser : AuthUser) (firstName lastName : string)
  : M W (option User) :=
  try_catch
    (do checked <-
       try_catch
         (do o <- call (db_table_check B) (fun _ => EvTableCheck);
          do tableError <- await o;
          match tableError with
          | Some _ => ret (Returned None)
          | None => ret Next
          end)
         (fun _tableCheckError => ret Next);
     match checked with
     | Returned r => ret r
     | Next =>
         let user_id := au_id authUser in
         do t1 <- now B;
         do t2 <- now B;
         do t3 <- now B;
         let userData :=
           mkUser user_id firstName lastName (or_empty (au_email authUser))
                  "" t1 false t2 t3 in
         do o <- call (db_insert B userData) (EvInsert userData);
         do resp <- race o "Database timeout";
         let data := pg_data resp in
         match pg_error resp with
         | Some _ => ret None
         | None =>
             do_ setUserCache (fun prev => <[or_empty (au_email authUser) := data]> prev);
             ret data
         end
     end)
    (fun _error => ret None).

(** The cache test is [userCache.has(email)] followed by a truthy
    [userCache.get(email)]. *)
Definition getUserFromCustomTable (email : string) : M W (option User) :=
  try_catch
    (match cache_get userCache_snapshot email with
     | Some cachedUser => ret (Some cachedUser)
     | None =>
         do o <- call (db_select_by_email B email) (EvSelectByEmail email);
         do resp <- race o "Database timeout";
         let data := pg_data resp in
         match pg_error resp with
         | Some _ => ret None
         | None =>
             do_ setUserCache (fun prev => <[email := data]> prev);
             ret data
         end
     end)
    (fun _error => ret None).

Definition updateLastLogin (userId : Id) : M W bool :=
  try_catch
    (do currentTimestamp <- now B;
     do o <- call (db_update_last_login B userId currentTimestamp)
                  (fun _ => EvUpdateLastLogin userId currentTimestamp);
     do error <- await o;
     match error with
     | Some _ => ret false
     | None => ret true
     end)
    (fun _error => ret false).

(** The effect's [checkUser]. *)
Definition checkUser : M W unit :=
  try_catch_finally
    (do o <- call (auth_getSession B) (fun _ => EvGetSession);
     do resp <- race o "Session check timeout";
     match sr_user resp with
     | Some su =>
         do customUser <- getUserFromCustomTable (or_empty (au_email su));
         match customUser with
         | Some cu => setUser (Some cu)
         | None => ret tt
         end
     | None => ret tt
     end)
    (fun _error => ret tt)
    (setLoading false).

(** The callback given to [onAuthStateChange]. *)
Definition onAuthStateChange (session : option Session) : M W unit :=
  match (match session with Some s => session_user s | None => None end) with
  | Some su =>
      match cache_get userCache_snapshot (or_empty (au_email su)) with
      | Some cachedUser =>
          do_ setUser (Some cachedUser);
          do_ spawn (updateLastLogin (user_id cachedUser));
          setLoading false
      | None =>
          do_ try_catch
                (do customUser <-
                   race_block B UserFetchTimer
                     (getUserFromCustomTable (or_empty (au_email su)))
                     "User fetch timeout";
                 match customUser with
                 | Some cu =>
                     do_ setUser (Some cu);
                     spawn (updateLastLogin (user_id cu))
                 | None => ret tt
                 end)
                (fun _fetchError => ret tt);
          setLoading false
      end
  | None =>
      do_ setUser None;
      setLoading false
  end.

(** The async block [userSetupPromise] of [login]. *)
Definition userSetup : M W unit :=
  do o <- call (auth_getSession B) (fun _ => EvGetSession);
  do resp <- await o;
  match sr_user resp with
  | Some su =>
      match cache_get userCache_snapshot (or_empty (au_email su)) with
      | Some cachedUser =>
          do_ setUser (Some cachedUser);
          spawn (updateLastLogin (user_id cachedUser))
      | None =>
          do customUser <- getUserFromCustomTable (or_empty (au_email su));
          match customUser with
          | Some cu =>
              do_ setUser (Some cu);
              spawn (updateLastLogin (user_id cu))
          | None => clearStaleCache (au_email su)
          end
      end
  | None => ret tt
  end.

Definition login (email password : string) : M W LoginResult :=
  try_catch
    (do o <- call (auth_signInWithPassword B email password)
                  (fun _ => EvSignIn email password);
     do result <- race o "Authentication timeout";
     match ar_error result with
     | Some error => ret (mkLoginResult (Some (ae_message error)))
     | None =>
         (* the confirmation check only warns: its [return] is commented out *)
         do_ match ar_user result with
             | Some u =>
                 match email_confirmed_at u with
                 | None => ret tt
                 | Some _ => ret tt
                 end
             | None => ret tt
             end;
         do_ try_catch
               (race_block B UserSetupTimer userSetup "User setup timeout")
               (fun _setupError => ret tt);
         ret (mkLoginResult None)
     end)
    (fun error =>
       if opt_is (exn_message error) "Authentication timeout"
       then ret (mkLoginResult (Some "Authentication is taking too long. Please try again."))
       else ret (mkLoginResult (Some "An unexpected error occurred"))).

(** The test on [signUpError] that opens the recovery path. *)
Definition already_exists (signUpError : AuthError) : bool :=
  opt_is (ae_code signUpError) "user_already_exists"
  || includes "already registered" (toLowerCase (ae_message signUpError))
  || includes "already exists" (toLowerCase (ae_message signUpError))
  || includes "already been registered" (toLowerCase (ae_message signUpError))
  || includes "user already exists" (toLowerCase (ae_message signUpError))
  || includes "email already in use" (toLowerCase (ae_message signUpError)).

(** The recovery block of [register]: [Next] when it falls through. *)
Definition recover (firstName lastName email password : string)
  : M W (Ctl RegisterResult) :=
  try_catch
    (do o <- call (auth_signInWithPassword B email password)
                  (fun _ => EvSignIn email password);
     do signIn <- await o;
     match ar_error signIn with
     | Some _ => ret (Returned (reg_error "User already exists, please login"))
     | None =>
         match ar_user signIn with
         | Some signInUser =>
             do existingCustomUser <- getUserFromCustomTable email;
             match existingCustomUser with
             | Some _ =>
                 ret (Returned (reg_success "User already exists, please login"))
             | None =>
                 do customUser <- createUserInCustomTable signInUser firstName lastName;
                 match customUser with
                 | Some _ =>
                     ret (Returned (reg_success "User setup completed, please login"))
                 | None =>
                     ret (Returned (reg_error
                            "User exists but profile setup failed. Please contact support."))
                 end
             end
         | None => ret Next
         end
     end)
    (fun _recoveryError =>
       ret (Returned (reg_error "User already exists, please login"))).

(** The profile creation block of [register] after a successful sign-up. *)
Definition createProfile (authUser : AuthUser) (firstName lastName : string)
  : M W (Ctl RegisterResult) :=
  try_catch
    (do customUser <-
       race_block B UserCreationTimer
         (createUserInCustomTable authUser firstName lastName)
         "User creation timeout";
     match customUser with
     | None => ret (Returned (reg_error "Failed to create user profile. Please try again."))
     | Some cu =>
         if bool_decide (user_id cu ≠ au_id authUser) then
           do_ try_catch
                 (do o <- call (db_delete_by_user_id B (user_id cu))
                               (fun _ => EvDelete (user_id cu));
                  do_ await o;
                  ret tt)
                 (fun _cleanupError => ret tt);
           ret (Returned (reg_error "User profile creation failed. Please try again."))
         else ret Next
     end)
    (fun creationError =>
       if opt_is (exn_message creationError) "User creation timeout"
       then ret (Returned (reg_error "Registration timed out. Please try again."))
       else ret (Returned (reg_error "Failed to create user profile. Please try again."))).

(** [register] from the answer of the sign-up on. *)
Definition afterSignUp (firstName lastName email password : string)
  (resp : AuthResponse) : M W RegisterResult :=
  match ar_error resp with
  | Some signUpError =>
      if opt_is (ae_code signUpError) "email_address_invalid" then
        ret (reg_error
               "Email address format is not accepted. Please use a different email address.")
      else
        do recovered <-
          (if already_exists signUpError
           then recover firstName lastName email password
           else ret Next);
        match recovered with
        | Returned r => ret r
        | Next =>
            if opt_is (ae_code signUpError) "weak_password" then
              ret (reg_error "Password is too weak. Please use a stronger password.")
            else if opt_is (ae_code signUpError) "invalid_email" then
              ret (reg_error
                     "Email address format is invalid. Please check your email address.")
            else ret (reg_error (ae_message signUpError))
        end
  | None =>
      match ar_user resp with
      | None => ret (reg_error "User registration failed. Please try again.")
      | Some authUser =>
          do created <- createProfile authUser firstName lastName;
          match created with
          | Returned r => ret r
          | Next => ret (reg_success "User registered, please login")
          end
      end
  end.

(** The outer [catch] of [register]. *)
Definition registerCatch (error : Exn) : M W RegisterResult :=
  if opt_is (exn_message error) "Signup timeout" then
    ret (reg_error "Registration is taking too long. Please try again.")
  else if opt_is (exn_message error) "User creation timeout" then
    ret (reg_error
           "Registration successful but user setup is taking too long. Please try logging in manually.")
  else ret (reg_error "An unexpected error occurred").

Definition register (firstName lastName email password : string)
  : M W RegisterResult :=
  try_catch
    (do_ setUserCache (fun prev => delete email prev);
     do o <- call (auth_signUp B email password firstName lastName)
                  (fun _ => EvSignUp email password firstName lastName);
     do resp <- race o "Signup timeout";
     afterSignUp firstName lastName email password resp)
    registerCatch.

Definition logout : M W unit :=
  try_catch
    (do o <- call (auth_signOut B) (fun _ => EvSignOut);
     do_ await o;
     do_ setUser None;
     setUserCache (fun _ => ∅))
    (fun _error => ret tt).

(** [debugAuthState(email)]: which of session, table row and cached row
    exist, or the message of what was thrown. *)
Definition debugAuthState (email : string) : M W (bool * bool * bool + string) :=
  try_catch
    (do o <- call (auth_getSession B) (fun _ => EvGetSession);
     do resp <- await o;
     do customUser <- getUserFromCustomTable email;
     let cachedUser := cache_get userCache_snapshot email in
     ret (inl (bool_decide (is_Some (sr_session resp)),
               bool_decide (is_Some customUser),
               bool_decide (is_Some cachedUser))))
    (fun error =>
       match exn_message error with
       | Some msg => ret (inr msg)
       | None => ret (inr "Unknown error")
       end).

End AuthProvider.

(** ** Runs of the component *)

(** What the UI, the effect and the auth service can ask of the
    component. *)
Inductive Op : Type :=
| OpCheckUser
| OpAuthStateChange (session : option Session)
| OpLogin (email password : string)
| OpRegister (firstName lastName email password : string)
| OpLogout
| OpClearStaleCache (email : option string)
| OpDebugAuthState (email : string).

Definition run_op {W} (B : Backend W) (snapshot : Cache) (op : Op) : M W unit :=
  match op with
  | OpCheckUser => checkUser B snapshot
  | OpAuthStateChange session => onAuthStateChange B snapshot session
  | OpLogin e p => do_ login B snapshot e p; ret tt
  | OpRegister f l e p => do_ register B snapshot f l e p; ret tt
  | OpLogout => logout B
  | OpClearStaleCache e => clearStaleCache e
  | OpDebugAuthState e => do_ debugAuthState B snapshot e; ret tt
  end.

(** [useState(null)], [useState(true)], [useState(new Map())] *)
Definition initial_state : AuthState := mkAuthState None true ∅.

Definition initial {W} (w : W) : Machine W := mkMachine initial_state w [].

(** The machines the component can be in: any sequence of operations,
    each run by closures of any earlier render. *)
Inductive reachable {W} (B : Backend W) : Machine W -> Prop :=
| reach_initial (w : W) : reachable B (initial w)
| reach_step (m : Machine W) (snapshot : Cache) (op : Op) :
    reachable B m -> reachable B (snd (run_op B snapshot op m)).

(** An answer that came in time and carries no error. *)
Definition answered {X} (o : Outcome X) (resp : X) : Prop :=
  late o = false /\ settled o = Fulfilled resp.

(** The data [v] (a row, or null) was handed back, in time and without an
    error, by a fetch by [k]. *)
Definition fetched (l : list Event) (k : string) (v : option User) : Prop :=
  exists o resp, In (EvSelectByEmail k o) l
                 /\ answered o resp /\ pg_error resp = None /\ pg_data resp = v.

(** The data [v] (a row, or null) was handed back, in time and without an
    error, by an insert of a row with email [k]. *)
Definition inserted (l : list Event) (k : string) (v : option User) : Prop :=
  exists row o resp, In (EvInsert row o) l /\ email row = k
                     /\ answered o resp /\ pg_error resp = None /\ pg_data resp = v.

Definition cache_justified {W} (m : Machine W) : Prop :=
  forall k v, userCache (ui m) !! k = Some v ->
              fetched (log m) k v \/ inserted (log m) k v.

(** The outcomes of a store call after which the component has no row:
    a store error, a late answer, a rejection. *)
Definition failed (o : Outcome PgSingle) : Prop :=
  late o = true
  \/ (exists e, settled o = Rejected e)
  \/ (exists resp e, settled o = Fulfilled resp /\ pg_error resp = Some e).


(** The number of profile queries sent to the store. *)
Fixpoint store_queries (l : list Event) : nat :=
  match l with
  | [] => 0
  | EvSelectByEmail _ _ :: l' => S (store_queries l')
  | _ :: l' => store_queries l'
  end.

(** [resolveProfile] in the words of the specification: the cache first;
    on a miss one query by email under the timeout; a row is cached and
    returned; a store error, a timeout or a rejection gives absent. *)
Definition resolveProfile_spec {W} (B : Backend W) (cache : Cache) (email : string)
  (m : Machine W) : Res (option User) * Machine W :=
  match cache_get cache email with
  | Some u => (Ok (Some u), m)
  | None =>
      let '(o, w') := db_select_by_email B email (world m) in
      let queried := log m ++ [EvSelectByEmail email o] in
      match late o, settled o with
      | false, Fulfilled (PgOk row) =>
          let c := userCache (ui m) in
          (Ok (Some row),
           mkMachine (mkAuthState (user (ui m)) (loading (ui m))
                                  (<[email := Some row]> c))
                     w' (queried ++ [EvSetUserCache c (<[email := Some row]> c)]))
      | _, _ => (Ok None, mkMachine (ui m) w' queried)
      end
  end.

(** The answers to a profile query that the specification speaks of: a
    row, a store error, a late answer, a rejection; not null data without
    an error. *)
Definition row_or_error (o : Outcome PgSingle) : Prop :=
  settled o <> Fulfilled PgNull.

(** ** Scripted services

    A backend that answers every call of a kind the same way; the world
    carries nothing. *)
Record Script : Type := mkScript {
  on_signUp : Outcome AuthResponse;
  on_signIn : Outcome AuthResponse;
  on_signOut : Outcome (option AuthError);
  on_getSession : Outcome SessionResponse;
  on_table_check : Outcome (option PgError);
  on_insert : Outcome PgSingle;
  on_select : Outcome PgSingle;
  on_update : Outcome (option PgError);
  on_delete : Outcome (option PgError);
  on_timer : Timer -> bool
}.

Definition scripted (s : Script) : Backend unit :=
  mkBackend unit
    (fun _ _ _ _ w => (on_signUp s, w))
    (fun _ _ w => (on_signIn s, w))
    (fun w => (on_signOut s, w))
    (fun w => (on_getSession s, w))
    (fun w => (on_table_check s, w))
    (fun _ w => (on_insert s, w))
    (fun _ w => (on_select s, w))
    (fun _ _ w => (on_update s, w))
    (fun _ w => (on_delete s, w))
    (fun w => ("2025-01-01T00:00:00.000Z", w))
    (fun t w => (on_timer s t, w)).

Definition in_time {X} (x : X) : Outcome X := mkOutcome false (Fulfilled x).
Definition rejects {X} (msg : string) : Outcome X := mkOutcome false (Rejected (Error msg)).
Definition too_slow {X} (x : X) : Outcome X := mkOutcome true (Fulfilled x).

Definition jane_auth : AuthUser :=
  mkAuthUser (IdStr "a1b2") (Some "jane@x.com") None.

Definition jane_row : User :=
  mkUser (IdStr "a1b2") "Jane" "Doe" "jane@x.com" ""
         "2025-01-01T00:00:00.000Z" false
         "2025-01-01T00:00:00.000Z" "2025-01-01T00:00:00.000Z".

Definition no_rows : PgError :=
  mkPgError "JSON object requested, multiple (or no) rows returned" "" "" "PGRST116".

(** Everything answers in time and succeeds; the profile of Jane is in
    the table. *)
Definition all_well : Script :=
  mkScript
    (in_time (mkAuthResponse (Some jane_auth) None))
    (in_time (mkAuthResponse (Some jane_auth) None))
    (in_time None)
    (in_time (mkSessionResponse (Some (mkSession (Some jane_auth)))))
    (in_time None)
    (in_time (PgOk jane_row))
    (in_time (PgOk jane_row))
    (in_time None)
    (in_time None)
    (fun _ => false).

Definition with_signUp (o : Outcome AuthResponse) (s : Script) : Script :=
  mkScript o (on_signIn s) (on_signOut s) (on_getSession s) (on_table_check s)
           (on_insert s) (on_select s) (on_update s) (on_delete s) (on_timer s).
Definition with_signIn (o : Outcome AuthResponse) (s : Script) : Script :=
  mkScript (on_signUp s) o (on_signOut s) (on_getSession s) (on_table_check s)
           (on_insert s) (on_select s) (on_update s) (on_delete s) (on_timer s).
Definition with_signOut (o : Outcome (option AuthError)) (s : Script) : Script :=
  mkScript (on_signUp s) (on_signIn s) o (on_getSession s) (on_table_check s)
           (on_insert s) (on_select s) (on_update s) (on_delete s) (on_timer s).
Definition with_getSession (o : Outcome SessionResponse) (s : Script) : Script :=
  mkScript (on_signUp s) (on_signIn s) (on_signOut s) o (on_table_check s)
           (on_insert s) (on_select s) (on_update s) (on_delete s) (on_timer s).
Definition with_insert (o : Outcome PgSingle) (s : Script) : Script :=
  mkScript (on_signUp s) (on_signIn s) (on_signOut s) (on_getSession s)
           (on_table_check s) o (on_select s) (on_update s) (on_delete s) (on_timer s).
Definition with_select (o : Outcome PgSingle) (s : Script) : Script :=
  mkScript (on_signUp s) (on_signIn s) (on_signOut s) (on_getSession s)
           (on_table_check s) (on_insert s) o (on_update s) (on_delete s) (on_timer s).

Definition already_registered : AuthError :=
  mkAuthError (Some "user_already_exists") "User already registered" (Some 422%Z).

Definition invalid_credentials : AuthError :=
  mkAuthError (Some "invalid_credentials") "Invalid login credentials" (Some 400%Z).

(** A signed-in machine: Jane is the user and her row is cached. *)
Definition jane_signed_in : Machine unit :=
  mkMachine (mkAuthState (Some jane_row) false {["jane@x.com" := Some jane_row]}) tt [].

(** ** Reference services *)

(** Modelled from the spec: the Identity Provider and the Relational Data
    Store are external services, present in the repository only through
    the SDK calls made to them.  This is the fault-free behaviour that
    section 6 of the specification gives the two capabilities: sign-up
    issues a fresh id or reports that the identity exists, password
    sign-in checks the credentials, the profile table has [user_id] as its
    primary key, and a single-row selection fails unless exactly one row
    matches. *)
Record Identity : Type := mkIdentity {
  i_id : Id;
  i_email : string;
  i_password : string
}.

Record RefWorld : Type := mkRefWorld {
  identities : list Identity;
  rows : list User;
  next_id : Z;
  current : option AuthUser
}.

Definition ref_empty : RefWorld := mkRefWorld [] [] 0 None.

Definition identity_user (i : Identity) : AuthUser :=
  mkAuthUser (i_id i) (Some (i_email i)) None.

Definition registered (e : string) (w : RefWorld) : bool :=
  existsb (fun i => String.eqb (i_email i) e) (identities w).

Definition has_row (id : Id) (w : RefWorld) : bool :=
  existsb (fun r => bool_decide (user_id r = id)) (rows w).

Definition rows_for (e : string) (w : RefWorld) : list User :=
  List.filter (fun r => String.eqb (email r) e) (rows w).

Definition ref_signUp (e p _first _last : string) (w : RefWorld)
  : Outcome AuthResponse * RefWorld :=
  if registered e w then
    (in_time (mkAuthResponse None (Some already_registered)), w)
  else
    let i := mkIdentity (IdNum (next_id w)) e p in
    (in_time (mkAuthResponse (Some (identity_user i)) None),
     mkRefWorld (i :: identities w) (rows w) (next_id w + 1) (current w)).

Definition credentials (e p : string) (i : Identity) : bool :=
  String.eqb (i_email i) e && String.eqb (i_password i) p.

Definition ref_signIn (e p : string) (w : RefWorld)
  : Outcome AuthResponse * RefWorld :=
  match find (credentials e p) (identities w) with
  | Some i =>
      (in_time (mkAuthResponse (Some (identity_user i)) None),
       mkRefWorld (identities w) (rows w) (next_id w) (Some (identity_user i)))
  | None => (in_time (mkAuthResponse None (Some invalid_credentials)), w)
  end.

Definition ref_signOut (w : RefWorld) : Outcome (option AuthError) * RefWorld :=
  (in_time None, mkRefWorld (identities w) (rows w) (next_id w) None).

Definition ref_getSession (w : RefWorld) : Outcome SessionResponse * RefWorld :=
  (in_time (mkSessionResponse
              (match current w with
               | Some u => Some (mkSession (Some u))
               | None => None
               end)), w).

Definition ref_insert (row : User) (w : RefWorld) : Outcome PgSingle * RefWorld :=
  if has_row (user_id row) w then
    (in_time (PgErr (mkPgError "duplicate key value violates unique constraint"
                               "" "" "23505")), w)
  else
    (in_time (PgOk row),
     mkRefWorld (identities w) (row :: rows w) (next_id w) (current w)).

Definition ref_select (e : string) (w : RefWorld) : Outcome PgSingle * RefWorld :=
  match rows_for e w with
  | [r] => (in_time (PgOk r), w)
  | _ => (in_time (PgErr no_rows), w)
  end.

Definition ref_delete (id : Id) (w : RefWorld) : Outcome (option PgError) * RefWorld :=
  (in_time None,
   mkRefWorld (identities w)
              (List.filter (fun r => negb (bool_decide (user_id r = id))) (rows w))
              (next_id w) (current w)).

Definition ref_backend : Backend RefWorld :=
  mkBackend RefWorld
    ref_signUp
    ref_signIn
    ref_signOut
    ref_getSession
    (fun w => (in_time None, w))
    ref_insert
    ref_select
    (fun _ _ w => (in_time None, w))
    ref_delete
    (fun w => ("2025-01-01T00:00:00.000Z", w))
    (fun _ w => (false, w)).

(** The reference world is consistent: identities differ in id and in
    email, ids are below the next one to issue, rows differ in [user_id],
    and every row is the profile of an identity. *)
Record ref_wf (w : RefWorld) : Prop := mkRefWf {
  wf_ids : List.NoDup (map i_id (identities w));
  wf_emails : List.NoDup (map i_email (identities w));
  wf_fresh : forall i, In i (identities w) ->
               exists n, i_id i = IdNum n /\ (n < next_id w)%Z;
  wf_rows : List.NoDup (map user_id (rows w));
  wf_owner : forall r, In r (rows w) ->
               exists i, In i (identities w)
                         /\ i_id i = user_id r /\ i_email i = email r
}.

(** A store that keys the row it stores by a number of its own instead of
    the id it is given (the defect that the id check of [register] guards
    against); everything else is as in the reference services. *)
Definition renumber (r : User) : User :=
  mkUser (IdNum 7) (first_name r) (last_name r) (email r) (password_hash r)
         (last_session_refresh r) (is_paid r) (created_at r) (updated_at r).

Definition renumbering_backend : Backend RefWorld :=
  mkBackend RefWorld
    ref_signUp
    ref_signIn
    ref_signOut
    ref_getSession
    (fun w => (in_time None, w))
    (fun row w => ref_insert (renumber row) w)
    ref_select
    (fun _ _ w => (in_time None, w))
    ref_delete
    (fun w => ("2025-01-01T00:00:00.000Z", w))
    (fun _ w => (false, w)).


(** Jane has an identity and her profile row. *)
Definition jane_with_profile : RefWorld :=
  mkRefWorld [mkIdentity (IdNum 0) "jane@x.com" "Pwd123!"]
             [mkUser (IdNum 0) "Jane" "Doe" "jane@x.com" ""
                     "2025-01-01T00:00:00.000Z" false
                     "2025-01-01T00:00:00.000Z" "2025-01-01T00:00:00.000Z"]
             1 None.

(** The row that [createUserInCustomTable] asks the reference store to
    insert. *)
Definition profile_row (id : Id) (firstName lastName e : string) : User :=
  mkUser id firstName lastName e ""
         "2025-01-01T00:00:00.000Z" false
         "2025-01-01T00:00:00.000Z" "2025-01-01T00:00:00.000Z".

Definition signed_in (i : Identity) (w : RefWorld) : RefWorld :=
  mkRefWorld (identities w) (rows w) (next_id w) (Some (identity_user i)).

Definition with_row (r : User) (w : RefWorld) : RefWorld :=
  mkRefWorld (identities w) (r :: rows w) (next_id w) (current w).

Definition with_identity (i : Identity) (w : RefWorld) : RefWorld :=
  mkRefWorld (i :: identities w) (rows w) (next_id w + 1) (current w).

(** The results of [register] on the reference services, by case. *)
Inductive ref_registers (snapshot : Cache) (firstName lastName e p : string)
  (w : RefWorld) : RegisterResult -> RefWorld -> Prop :=
| registers_new :
    registered e w = false ->
    has_row (IdNum (next_id w)) w = false ->
    ref_registers snapshot firstName lastName e p w
      (reg_success "User registered, please login")
      (with_row (profile_row (IdNum (next_id w)) firstName lastName e)
                (with_identity (mkIdentity (IdNum (next_id w)) e p) w))
| registers_new_clash :
    registered e w = false ->
    has_row (IdNum (next_id w)) w = true ->
    ref_registers snapshot firstName lastName e p w
      (reg_error "Failed to create user profile. Please try again.")
      (with_identity (mkIdentity (IdNum (next_id w)) e p) w)
| registers_rejected :
    registered e w = true ->
    find (credentials e p) (identities w) = None ->
    ref_registers snapshot firstName lastName e p w
      (reg_error "User already exists, please login") w
| registers_exists i :
    registered e w = true ->
    find (credentials e p) (identities w) = Some i ->
    (is_Some (cache_get snapshot e) \/ exists r, rows_for e w = [r]) ->
    ref_registers snapshot firstName lastName e p w
      (reg_success "User already exists, please login") (signed_in i w)
| registers_setup i :
    registered e w = true ->
    find (credentials e p) (identities w) = Some i ->
    cache_get snapshot e = None ->
    (forall r, rows_for e w <> [r]) ->
    has_row (i_id i) w = false ->
    ref_registers snapshot firstName lastName e p w
      (reg_success "User setup completed, please login")
      (with_row (profile_row (i_id i) firstName lastName (i_email i)) (signed_in i w))
| registers_setup_failed i :
    registered e w = true ->
    find (credentials e p) (identities w) = Some i ->
    cache_get snapshot e = None ->
    (forall r, rows_for e w <> [r]) ->
    has_row (i_id i) w = true ->
    ref_registers snapshot firstName lastName e p w
      (reg_error "User exists but profile setup failed. Please contact support.")
      (signed_in i w).

(** ** Predicates on computations *)

(** The computation settles with a value from every machine. *)
Definition never_throws {W A} (c : M W A) : Prop :=
  forall m, exists a, fst (c m) = Ok a.

(** The machine after [c] is related by [R] to the machine before. *)
Definition follows {W A} (R : Machine W -> Machine W -> Prop) (c : M W A) : Prop :=
  forall m, R m (snd (c m)).

(** The log only grows. *)
Definition log_grows {W} (m m' : Machine W) : Prop :=
  exists rest, log m' = log m ++ rest.

(** Justification of the cache is kept. *)
Definition stays_justified {W} (m m' : Machine W) : Prop :=
  log_grows m m' /\ (cache_justified m -> cache_justified m').

(** The first two steps of [register]: the invalidation and the sign-up
    call. *)
Definition invalidate_and_signUp {W} (B : Backend W)
  (firstName lastName email password : string) : M W (Outcome AuthResponse) :=
  do_ setUserCache (fun prev => delete email prev);
  call (auth_signUp B email password firstName lastName)
       (fun _ => EvSignUp email password firstName lastName).

(** The recovery sign-in of [register]. *)
Definition recovery_signIn {W} (B : Backend W) (email password : string)
  : M W (Outcome AuthResponse) :=
  call (auth_signInWithPassword B email password) (fun _ => EvSignIn email password).

(** The ways the session check of [checkUser] comes to nothing: the
    session fetch is late or rejected, there is no session user, or the
    profile of the session user does not resolve. *)
Definition session_check_fails {W} (B : Backend W) (snapshot : Cache) (m : Machine W)
  : Prop :=
  let '(o, w') := auth_getSession B (world m) in
  late o = true
  \/ (exists e, settled o = Rejected e)
  \/ (exists r, settled o = Fulfilled r /\ sr_user r = None)
  \/ (exists r su, settled o = Fulfilled r /\ sr_user r = Some su
        /\ fst (getUserFromCustomTable B snapshot (or_empty (au_email su))
                  (mkMachine (ui m) w' (log m ++ [EvGetSession]))) = Ok None).

(** ** The rest of the component *)

(** A property of a value typed [any], as far as [handleAuthError]
    tells values apart: missing (undefined or null), a string, or a value
    of another type (a number, a boolean, an object), on which
    [toLowerCase] is not a function. *)
Inductive AnyValue : Type :=
| Missing
| Str (s : string)
| NotAString.

(** What [handleAuthError] reads of its [error: any]: [error?.message],
    [error?.code], which only a string can make [=== '23505'], and
    [error?.status], which only a number can make [=== 400]. *)
Record AnyError : Type := mkAnyError {
  any_message : AnyValue;
  any_code : option string;
  any_status : option Z
}.

Definition as_any (e : AuthError) : AnyError :=
  mkAnyError (Str (ae_message e)) (ae_code e) (ae_status e).

Definition error_message (error : option AnyError) : AnyValue :=
  match error with
  | Some e => any_message e
  | None => Missing
  end.

(** [error?.message?.toLowerCase().includes(phrase)]: the optional chain
    gives undefined, which is falsy, when the message is missing; a
    message that is no string throws a TypeError ([None]). *)
Definition message_includes (error : option AnyError) (phrase : string) : option bool :=
  match error_message error with
  | Missing => Some false
  | Str s => Some (includes phrase (toLowerCase s))
  | NotAString => None
  end.

Definition code_is (error : option AnyError) (c : string) : bool :=
  match error with
  | Some e => opt_is (any_code e) c
  | None => false
  end.

Definition status_is (error : option AnyError) (n : Z) : bool :=
  match error with
  | Some e =>
      match any_status e with
      | Some s => Z.eqb s n
      | None => false
      end
  | None => false
  end.

(** [a || b] where evaluating [a] can throw and [b] is evaluated only
    when [a] is falsy. *)
Definition or_else (a : option bool) (b : option bool) : option bool :=
  match a with
  | Some true => Some true
  | Some false => b
  | None => None
  end.

(** [handleAuthError(error, operation)]; [operation] is only logged.
    [None] is a thrown TypeError. *)
Definition handleAuthError (error : option AnyError) (operation : string)
  : option string :=
  match
    or_else (message_includes error "already registered")
   (or_else (message_includes error "already exists")
   (or_else (message_includes error "already been registered")
   (or_else (message_includes error "user already exists")
   (or_else (message_includes error "email already in use")
            (Some (code_is error "23505"
                   || code_is error "23514"
                   || status_is error 400))))))
  with
  | None => None
  | Some true => Some "User already exists, please login"
  | Some false =>
      (* [error?.message || 'An unexpected error occurred'] *)
      match error_message error with
      | Str s => Some (if String.eqb s "" then "An unexpected error occurred" else s)
      | _ => Some "An unexpected error occurred"
      end
  end.

(** What [retryOperation] does, in order: it calls the operation
    ([Attempt], with the loop counter) and it waits ([Sleep], with the
    delay in milliseconds). *)
Inductive RetryStep : Type :=
| Attempt (attempt : Z)
| Sleep (delay : Z).

Section RetryOperation.

Context {W A : Type}.
Variable operation : M W A.

(** [maxRetries] is any finite number, whole or not; [baseDelay] is a
    whole number of milliseconds. *)
Variable maxRetries : Q.
Variable baseDelay : Z.

(** The [for] loop of [retryOperation] from [attempt] on, with
    [iterations] the number of values of [attempt] that still pass the
    loop test [attempt <= maxRetries].  Inside, [attempt === maxRetries]
    compares the counter with [maxRetries] as numbers. *)
Fixpoint retry_from (iterations : nat) (attempt : Z) (m : Machine W)
  : Res A * Machine W * list RetryStep :=
  match iterations with
  | O => (Throw (Error "Max retries exceeded"), m, [])
  | S rest =>
      match operation m with
      | (Ok a, m') => (Ok a, m', [Attempt attempt])
      | (Throw error, m') =>
          if Qeq_bool (inject_Z attempt) maxRetries
          then (Throw error, m', [Attempt attempt])
          else
            let delay := (baseDelay * 2 ^ (attempt - 1))%Z in
            let '(r, m'', steps) := retry_from rest (attempt + 1) m' in
            (r, m'', Attempt attempt :: Sleep delay :: steps)
      end
  end.

(** The counter starts at 1, so the values that pass the loop test are
    1, ..., floor(maxRetries). *)
Definition retryOperation (m : Machine W) : Res A * Machine W * list RetryStep :=
  retry_from (Z.to_nat (Qfloor maxRetries)) 1 m.

End RetryOperation.


Fixpoint attempts (steps : list RetryStep) : nat :=
  match steps with
  | [] => 0
  | Attempt _ :: rest => S (attempts rest)
  | Sleep _ :: rest => attempts rest
  end.


(** The steps of [k] attempts from [attempt] on, all but the last
    followed by a wait that doubles each time. *)
Fixpoint backoff (baseDelay : Z) (k : nat) (attempt : Z) : list RetryStep :=
  match k with
  | O => []
  | S O => [Attempt attempt]
  | S k' =>
      Attempt attempt :: Sleep (baseDelay * 2 ^ (attempt - 1))%Z
        :: backoff baseDelay k' (attempt + 1)
  end.

(** The session part of the state is as before. *)
Definition same_session {W} (m m' : Machine W) : Prop :=
  user (ui m') = user (ui m) /\ loading (ui m') = loading (ui m).

(** The password sign-ins sent to the auth service, in order, each with
    its credentials. *)
Fixpoint sign_ins (l : list Event) : list (string * string) :=
  match l with
  | [] => []
  | EvSignIn email password :: l' => (email, password) :: sign_ins l'
  | _ :: l' => sign_ins l'
  end.

(** No sign-in is sent between [m] and [m']. *)
Definition quiet {W} (m m' : Machine W) : Prop :=
  sign_ins (log m') = sign_ins (log m).

(** The answers to the sign-up after which [register] takes its recovery
    path: in time, with an error that says that the identity exists. *)
Definition opens_recovery (o : Outcome AuthResponse) : bool :=
  negb (late o)
  && match settled o with
     | Fulfilled resp =>
         match ar_error resp with
         | Some signUpError =>
             negb (opt_is (ae_code signUpError) "email_address_invalid")
             && already_exists signUpError
         | None => false
         end
     | Rejected _ => false
     end.

(** The number of [last_login] updates sent for [id]. *)
Fixpoint last_login_updates (id : Id) (l : list Event) : nat :=
  match l with
  | [] => 0
  | EvUpdateLastLogin id' _ :: l' =>
      (if bool_decide (id' = id) then 1 else 0) + last_login_updates id l'
  | _ :: l' => last_login_updates id l'
  end.

(** A present user stays present. *)
Definition keeps_user {W} (m m' : Machine W) : Prop :=
  loading (ui m') = loading (ui m)
  /\ (is_Some (user (ui m)) -> is_Some (user (ui m'))).

(** The cache is as before except, possibly, at [key]. *)
Definition same_cache_but {W} (key : string) (m m' : Machine W) : Prop :=
  forall k, k <> key -> userCache (ui m') !! k = userCache (ui m) !! k.

(** The key under which the component caches the profile of an auth
    user: [user.email || '']. *)
Definition cache_key (su : AuthUser) : string := or_empty (au_email su).

(** The timer of an async block never wins. *)
Definition never_fires {W} (B : Backend W) (t : Timer) : Prop :=
  forall w, timer_first B t w = (false, w).

(** [session?.user] of the session handed to the [onAuthStateChange]
    callback. *)
Definition event_user (session : option Session) : option AuthUser :=
  match session with
  | Some s => session_user s
  | None => None
  end.

(** The log holds an insert, for [authUser] under the given names, that
    the store answered in time with a row carrying the id of [authUser]. *)
Definition profile_row_created (l : list Event) (authUser : AuthUser)
  (firstName lastName : string) (row : User) : Prop :=
  exists userData res,
    In (EvInsert userData res) l
    /\ user_id userData = au_id authUser
    /\ first_name userData = firstName
    /\ last_name userData = lastName
    /\ email userData = cache_key authUser
    /\ late res = false
    /\ settled res = Fulfilled (PgOk row)
    /\ user_id row = au_id authUser.

(** ** The login form (components/Login.tsx) and the protected route
    (App.tsx) *)

(** The state of the form: its mode, its fields, the error shown and its
    own [loading] flag. *)
Record LoginForm : Type := mkLoginForm {
  isLogin : bool;
  form_firstName : string;
  form_lastName : string;
  form_email : string;
  form_password : string;
  form_error : string;
  form_loading : bool
}.

Definition setError (msg : string) (f : LoginForm) : LoginForm :=
  mkLoginForm (isLogin f) (form_firstName f) (form_lastName f) (form_email f)
              (form_password f) msg (form_loading f).

Definition setFormLoading (b : bool) (f : LoginForm) : LoginForm :=
  mkLoginForm (isLogin f) (form_firstName f) (form_lastName f) (form_email f)
              (form_password f) (form_error f) b.

(** The form and where [navigate] was told to go, if it was. *)
Record LoginView : Type := mkLoginView {
  view_form : LoginForm;
  navigated : option string
}.

(** [if (result.error)]: a string is truthy unless it is empty. *)
Definition truthy (s : option string) : bool :=
  match s with
  | Some s => negb (String.eqb s "")
  | None => false
  end.

(** [handleSubmit]: the fields are those of the render that created the
    handler. *)
Definition handleSubmit {W} (B : Backend W) (snapshot : Cache) (form : LoginForm)
  (m : Machine W) : Res unit * LoginView * Machine W :=
  let shown := setFormLoading true (setError "" form) in
  let '(tried, m') :=
    try_catch
      (do result_error <-
         (if isLogin form
          then do result <- login B snapshot (form_email form) (form_password form);
               ret (lr_error result)
          else do result <- register B snapshot (form_firstName form)
                              (form_lastName form) (form_email form)
                              (form_password form);
               ret (rr_error result));
       if truthy result_error
       then ret (mkLoginView (setError (or_empty result_error) shown) None)
       else ret (mkLoginView shown (Some "/")))
      (fun _err =>
         ret (mkLoginView (setError "An unexpected error occurred" shown) None))
      m in
  match tried with
  | Ok view =>
      (Ok tt, mkLoginView (setFormLoading false (view_form view)) (navigated view), m')
  | Throw e => (Throw e, mkLoginView (setFormLoading false shown) None, m')
  end.

(** What a route element renders. *)
Inductive Rendered : Type :=
| Children
| Navigate (to : string) (replace : bool).

(** [ProtectedRoute]: [user ? children : <Navigate to="/login" replace />] *)
Definition ProtectedRoute (user : option User) : Rendered :=
  match user with
  | Some _ => Children
  | None => Navigate "/login" true
  end.

(** ** The idea list (components/Home.tsx) *)

(** The fields of [ScrapedIdea] that the list logic reads. *)
Record ScrapedIdea : Type := mkScrapedIdea {
  idea_id : Z;
  title : string;
  content : string
}.

(** [filteredIdeas]: the search term in the title or the content,
    whatever the letter case, and, on the Saved tab, the idea among the
    saved ones. *)
Definition filteredIdeas (ideas : list ScrapedIdea) (savedIdeas : gset Z)
  (showSaved : bool) (searchTerm : string) : list ScrapedIdea :=
  List.filter
    (fun idea =>
       let matchesSearch :=
         includes (toLowerCase searchTerm) (toLowerCase (title idea))
         || includes (toLowerCase searchTerm) (toLowerCase (content idea)) in
       let matchesSaved :=
         if showSaved then bool_decide (idea_id idea ∈ savedIdeas) else true in
       matchesSearch && matchesSaved)
    ideas.

(** [useState(10)] *)
Definition ideasPerPage : Z := 10.

(** [Math.ceil(a / b)] on integers, [b] positive. *)
Definition ceil_div (a b : Z) : Z := (- ((- a) / b))%Z.

Definition totalPages {A} (filtered : list A) : Z :=
  ceil_div (Z.of_nat (length filtered)) ideasPerPage.

(** [Array.prototype.slice(start, end)] with integer arguments: a
    negative index counts from the end, and both are clipped to the
    array. *)
Definition slice {A} (from to : Z) (l : list A) : list A :=
  let len := Z.of_nat (length l) in
  let k := if (from <? 0)%Z then Z.max (len + from) 0 else Z.min from len in
  let final := if (to <? 0)%Z then Z.max (len + to) 0 else Z.min to len in
  firstn (Z.to_nat (final - k)) (skipn (Z.to_nat k) l).

Definition currentIdeas {A} (currentPage : Z) (filtered : list A) : list A :=
  let indexOfLastIdea := (currentPage * ideasPerPage)%Z in
  let indexOfFirstIdea := (indexOfLastIdea - ideasPerPage)%Z in
  slice indexOfFirstIdea indexOfLastIdea filtered.

(** [goToNextPage] and [goToPreviousPage], as the new [currentPage]. *)
Definition goToNextPage (currentPage total : Z) : Z :=
  if (currentPage <? total)%Z then (currentPage + 1)%Z else currentPage.

Definition goToPreviousPage (currentPage : Z) : Z :=
  if (currentPage >? 1)%Z then (currentPage - 1)%Z else currentPage.

(** The integers from [first] to [last], as the [for] loop pushes them. *)
Definition upto (first last : Z) : list Z :=
  map (fun i => (first + Z.of_nat i)%Z) (seq 0 (Z.to_nat (last - first + 1))).

(** [renderPagination]: nothing for a single page; otherwise the window
    [(startPage, endPage)] of at most five page numbers. *)
Definition pageWindow (currentPage total : Z) : option (Z * Z) :=
  if (total <=? 1)%Z then None
  else
    let maxVisiblePages := 5%Z in
    let startPage := Z.max 1 (currentPage - maxVisiblePages / 2) in
    let endPage := Z.min total (startPage + maxVisiblePages - 1) in
    let startPage :=
      if (endPage - startPage + 1 <? maxVisiblePages)%Z
      then Z.max 1 (endPage - maxVisiblePages + 1)
      else startPage in
    Some (startPage, endPage).

(** The page buttons it renders: page 1 when the window starts later,
    the window, the last page when the window ends earlier. *)
Definition pageButtons (currentPage total : Z) : list Z :=
  match pageWindow currentPage total with
  | None => []
  | Some (startPage, endPage) =>
      (if (startPage >? 1)%Z then [1%Z] else [])
        ++ upto startPage endPage
        ++ (if (endPage <? total)%Z then [total] else [])
  end.

(** The pages of a list, first to last. *)
Definition pages {A} (filtered : list A) : list Z := upto 1 (totalPages filtered).

(** ** Saved ideas (components/Home.tsx) *)

(** What [alert] was called with. *)
Inductive Alert : Type :=
| UserValidationFailed (message : string)   (* `User validation failed: ${message}` *)
| FailedToSaveIdea (message : string)       (* `Failed to save idea: ${message}` *)
| UnexpectedError (error : Exn).            (* `Unexpected error: ${error}` *)

(** The world of the Home component: its [savedIdeas] state, the alerts
    raised so far, and the services. *)
Record HomeWorld (W : Type) : Type := mkHomeWorld {
  savedIdeas : gset Z;
  alerts : list Alert;
  services : W
}.
Arguments mkHomeWorld {W} savedIdeas alerts services.
Arguments savedIdeas {W} h.
Arguments alerts {W} h.
Arguments services {W} h.

(** [{ data, error }] of the selection of the saved idea ids. *)
Record SavedResponse : Type := mkSavedResponse {
  saved_data : option (list Z);
  saved_error : option PgError
}.

(** The calls Home makes about saved ideas, each answering with the
    [error] that the component reads. *)
Record SavedBackend (W : Type) : Type := mkSavedBackend {
  saved_select : Id -> W -> Outcome SavedResponse * W;
  saved_delete : Id -> Z -> W -> Outcome (option PgError) * W;
  user_check : Id -> W -> Outcome (option PgError) * W;
  saved_insert : Id -> Z -> W -> Outcome (option PgError) * W
}.
Arguments saved_select {W} _ _ _.
Arguments saved_delete {W} _ _ _ _.
Arguments user_check {W} _ _ _.
Arguments saved_insert {W} _ _ _ _.

(** A call of the Home component: the handler acts on the services. *)
Definition home_call {W X} (h : W -> Outcome X * W) : M (HomeWorld W) (Outcome X) :=
  fun m =>
    let '(o, w') := h (services (world m)) in
    (Ok o, mkMachine (ui m)
                     (mkHomeWorld (savedIdeas (world m)) (alerts (world m)) w')
                     (log m)).

(** [setSavedIdeas(prev => f prev)] *)
Definition setSavedIdeas {W} (f : gset Z -> gset Z) : M (HomeWorld W) unit :=
  fun m =>
    (Ok tt, mkMachine (ui m)
                      (mkHomeWorld (f (savedIdeas (world m))) (alerts (world m))
                                   (services (world m)))
                      (log m)).

Definition alert {W} (a : Alert) : M (HomeWorld W) unit :=
  fun m =>
    (Ok tt, mkMachine (ui m)
                      (mkHomeWorld (savedIdeas (world m)) (alerts (world m) ++ [a])
                                   (services (world m)))
                      (log m)).

Section Home.

Context {W : Type}.
Variable supabase : SavedBackend W.

(** The [user] and [savedIdeas] bindings of the render whose closures
    are running. *)
Variable user_snapshot : option User.
Variable savedIdeas_snapshot : gset Z.

Definition fetchSavedIdeas : M (HomeWorld W) unit :=
  match user_snapshot with
  | None => ret tt
  | Some user =>
      try_catch
        (do o <- home_call (saved_select supabase (user_id user));
         do resp <- await o;
         match saved_error resp with
         | Some _ => ret tt
         | None =>
             setSavedIdeas (fun _ =>
               match saved_data resp with
               | Some data => list_to_set data
               | None => ∅
               end)
         end)
        (fun _error => ret tt)
  end.

Definition toggleSaveIdea (ideaId : Z) : M (HomeWorld W) unit :=
  match user_snapshot with
  | None => ret tt
  | Some user =>
      try_catch
        (if bool_decide (ideaId ∈ savedIdeas_snapshot) then
           do o <- home_call (saved_delete supabase (user_id user) ideaId);
           do error <- await o;
           match error with
           | Some _ => ret tt
           | None => setSavedIdeas (fun prev => prev ∖ {[ideaId]})
           end
         else
           do o <- home_call (user_check supabase (user_id user));
           do userCheckError <- await o;
           match userCheckError with
           | Some err => alert (UserValidationFailed (pg_message err))
           | None =>
               do o <- home_call (saved_insert supabase (user_id user) ideaId);
               do error <- await o;
               match error with
               | Some err => alert (FailedToSaveIdea (pg_message err))
               | None => setSavedIdeas (fun prev => prev ∪ {[ideaId]})
               end
           end)
        (fun error => alert (UnexpectedError error))
  end.

End Home.

(** A store of saved ideas that answers every call without an error. *)
Definition obliging {W} (supabase : SavedBackend W) : Prop :=
  (forall id ideaId w, exists lt w',
      saved_delete supabase id ideaId w = (mkOutcome lt (Fulfilled None), w'))
  /\ (forall id w, exists lt w', user_check supabase id w = (mkOutcome lt (Fulfilled None), w'))
  /\ (forall id ideaId w, exists lt w',
        saved_insert supabase id ideaId w = (mkOutcome lt (Fulfilled None), w')).

(** Saved ideas kept as pairs of user and idea, as in the table. *)
Definition pairs_backend : SavedBackend (list (Id * Z)) :=
  mkSavedBackend (list (Id * Z))
    (fun id w =>
       (in_time (mkSavedResponse
                   (Some (map snd (List.filter (fun p => bool_decide (fst p = id)) w)))
                   None), w))
    (fun id ideaId w =>
       (in_time None,
        List.filter (fun p => negb (bool_decide (fst p = id) && Z.eqb (snd p) ideaId)) w))
    (fun _ w => (in_time None, w))
    (fun id ideaId w => (in_time None, (id, ideaId) :: w)).

(** A store that refuses every call with an error value. *)
Definition denied : PgError := mkPgError "permission denied" "" "" "42501".

Definition refusing_backend : SavedBackend unit :=
  mkSavedBackend unit
    (fun _ w => (in_time (mkSavedResponse None (Some denied)), w))
    (fun _ _ w => (in_time (Some denied), w))
    (fun _ w => (in_time (Some denied), w))
    (fun _ _ w => (in_time (Some denied), w)).

Definition home_initial {W} (saved : gset Z) (w : W) : Machine (HomeWorld W) :=
  mkMachine initial_state (mkHomeWorld saved [] w) [].


(** * Properties *)

(** ** The monad *)

Lemma bind_ok {W A B} (c : M W A) (k : A -> M W B) m a m' :
  c m = (Ok a, m') -> bind c k m = k a m'.
Proof. intros H. unfold bind. now rewrite H. Qed.

Lemma bind_throw {W A B} (c : M W A) (k : A -> M W B) m e m' :
  c m = (Throw e, m') -> bind c k m = (Throw e, m').
Proof. intros H. unfold bind. now rewrite H. Qed.

Lemma try_catch_ok {W A} (c : M W A) h m a m' :
  c m = (Ok a, m') -> try_catch c h m = (Ok a, m').
Proof. intros H. unfold try_catch. now rewrite H. Qed.

Lemma try_catch_throw {W A} (c : M W A) h m e m' :
  c m = (Throw e, m') -> try_catch c h m = h e m'.
Proof. intros H. unfold try_catch. now rewrite H. Qed.

Lemma call_run {W X} (h : W -> Outcome X * W) ev (m : Machine W) o w' :
  h (world m) = (o, w') ->
  call h ev m = (Ok o, mkMachine (ui m) w' (log m ++ [ev o])).
Proof. intros H. unfold call. now rewrite H. Qed.

Lemma race_in_time {W X} (o : Outcome X) msg x (m : Machine W) :
  late o = false -> settled o = Fulfilled x -> race o msg m = (Ok x, m).
Proof. intros Hl Hs. unfold race, await. now rewrite Hl, Hs. Qed.

Lemma await_fulfilled {W X} (o : Outcome X) x (m : Machine W) :
  settled o = Fulfilled x -> await o m = (Ok x, m).
Proof. intros Hs. unfold await. now rewrite Hs. Qed.

(** A block whose handler swallows the exception always settles with a
    value. *)
Lemma try_catch_swallow {W A} (c : M W A) (a : A) (m : Machine W) :
  exists a' m', try_catch c (fun _ => ret a) m = (Ok a', m').
Proof.
  unfold try_catch. destruct (c m) as [[a'|e] m']; eauto.
Qed.

Lemma never_throws_try_catch {W A} (c : M W A) h :
  (forall e, never_throws (h e)) -> never_throws (try_catch c h).
Proof.
  intros Hh m. unfold try_catch.
  destruct (c m) as [[a|e] m']; [simpl; eauto | apply Hh].
Qed.

Lemma never_throws_ret {W A} (a : A) : never_throws (@ret W A a).
Proof. intros m. simpl. eauto. Qed.

Lemma never_throws_if {W A} (b : bool) (c1 c2 : M W A) :
  never_throws c1 -> never_throws c2 -> never_throws (if b then c1 else c2).
Proof. now destruct b. Qed.

Create HintDb throws.
#[local] Hint Resolve never_throws_ret never_throws_if never_throws_try_catch : throws.

(** ** Logout *)

Lemma logout_run_returns {W} (B : Backend W) (m : Machine W) o w' r :
  auth_signOut B (world m) = (o, w') ->
  settled o = Fulfilled r ->
  logout B m =
    (Ok tt,
     mkMachine (mkAuthState None (loading (ui m)) ∅) w'
               (log m ++ [EvSignOut] ++ [EvSetUser None]
                      ++ [EvSetUserCache (userCache (ui m)) ∅])).
Proof.
  intros Hcall Hs. unfold logout.
  erewrite try_catch_ok; [reflexivity|].
  erewrite bind_ok by (apply call_run; eassumption).
  erewrite bind_ok by (apply await_fulfilled; eassumption).
  unfold bind, setUser, setUserCache. simpl.
  now rewrite <- !app_assoc.
Qed.

(** C1, as amended: for every prior state, when the sign-out call of the
    auth service returns, with or without an error value, [logout]
    settles, has called the sign-out, and leaves the user absent and the
    cache empty. *)
Theorem logout_clears_when_signOut_returns {W} (B : Backend W) (m : Machine W) o w' r :
  auth_signOut B (world m) = (o, w') ->
  settled o = Fulfilled r ->
  fst (logout B m) = Ok tt
  /\ In EvSignOut (log (snd (logout B m)))
  /\ user (ui (snd (logout B m))) = None
  /\ userCache (ui (snd (logout B m))) = ∅.
Proof.
  intros Hcall Hs. rewrite (logout_run_returns B m o w' r Hcall Hs). simpl.
  repeat split. apply in_or_app. right. now left.
Qed.

(** The sign-out call reports an error value: user and cache are cleared
    all the same. *)
Lemma logout_clears_when_signOut_returns_witness :
  let B := scripted (with_signOut (in_time (Some invalid_credentials)) all_well) in
  fst (logout B jane_signed_in) = Ok tt
  /\ In EvSignOut (log (snd (logout B jane_signed_in)))
  /\ user (ui (snd (logout B jane_signed_in))) = None
  /\ userCache (ui (snd (logout B jane_signed_in))) = ∅.
Proof.
  intros B.
  apply (logout_clears_when_signOut_returns B jane_signed_in
           (in_time (Some invalid_credentials)) tt (Some invalid_credentials));
    reflexivity.
Defined.

(** C1, as stated, fails: when the sign-out call throws, the handler only
    logs, and the signed-in user and the cached row stay. *)
Lemma logout_keeps_state_when_signOut_throws :
  let B := scripted (with_signOut (rejects "Failed to fetch") all_well) in
  ~ (user (ui (snd (logout B jane_signed_in))) = None
     /\ userCache (ui (snd (logout B jane_signed_in))) = ∅).
Proof.
  intros B [Huser _]. vm_compute in Huser. discriminate Huser.
Qed.

(** ** Login *)

(** C8: when the password sign-in of the auth service succeeds, [login]
    resolves to [{ error: null }] whatever the identity's
    [email_confirmed_at] is: the confirmation check only warns. *)
Theorem login_ignores_email_confirmation {W} (B : Backend W) (snapshot : Cache)
  (email password : string) (m : Machine W) o w' result :
  auth_signInWithPassword B email password (world m) = (o, w') ->
  late o = false ->
  settled o = Fulfilled result ->
  ar_error result = None ->
  fst (login B snapshot email password m) = Ok (mkLoginResult None).
Proof.
  intros Hcall Hlate Hs Herr. unfold login.
  set (m1 := mkMachine (ui m) w' (log m ++ [EvSignIn email password])).
  destruct (try_catch_swallow
              (race_block B UserSetupTimer (userSetup B snapshot) "User setup timeout")
              tt m1) as (u & m2 & Hsetup).
  erewrite try_catch_ok; [reflexivity|].
  erewrite bind_ok by (apply call_run; eassumption).
  erewrite bind_ok by (apply race_in_time; eassumption).
  rewrite Herr.
  erewrite bind_ok.
  - erewrite bind_ok by exact Hsetup. reflexivity.
  - destruct (ar_user result) as [au|]; [destruct (email_confirmed_at au)|];
      reflexivity.
Qed.

(** Jane signs in with an unconfirmed email ([email_confirmed_at] is
    absent in [jane_auth]). *)
Lemma login_ignores_email_confirmation_witness :
  email_confirmed_at jane_auth = None
  /\ fst (login (scripted all_well) ∅ "jane@x.com" "Pwd123!" (initial tt))
     = Ok (mkLoginResult None).
Proof.
  split; [reflexivity|].
  apply (login_ignores_email_confirmation (scripted all_well) ∅
           "jane@x.com" "Pwd123!" (initial tt)
           (in_time (mkAuthResponse (Some jane_auth) None)) tt
           (mkAuthResponse (Some jane_auth) None));
    reflexivity.
Defined.

(** ** No exception escapes *)

(** C6: whatever the services answer (an error value, a late answer, a
    rejection), [login], [register] and [logout] settle with a result
    value: no exception escapes them. *)
Theorem operations_never_throw {W} (B : Backend W) (snapshot : Cache) :
  (forall email password, never_throws (login B snapshot email password))
  /\ (forall firstName lastName email password,
        never_throws (register B snapshot firstName lastName email password))
  /\ never_throws (logout B).
Proof.
  split; [|split]; intros; apply never_throws_try_catch; intros e;
    unfold registerCatch; auto with throws.
Qed.

(** ** The session check at start *)

(** [getUserFromCustomTable], step by step. *)
Lemma getUserFromCustomTable_run {W} (B : Backend W) snapshot email (m : Machine W) :
  getUserFromCustomTable B snapshot email m
  = match cache_get snapshot email with
    | Some cachedUser => (Ok (Some cachedUser), m)
    | None =>
        let '(o, w') := db_select_by_email B email (world m) in
        let queried := mkMachine (ui m) w' (log m ++ [EvSelectByEmail email o]) in
        match late o, settled o with
        | false, Fulfilled resp =>
            match pg_error resp with
            | Some _ => (Ok None, queried)
            | None =>
                (Ok (pg_data resp),
                 snd (setUserCache (fun prev => <[email := pg_data resp]> prev) queried))
            end
        | _, _ => (Ok None, queried)
        end
    end.
Proof.
  unfold getUserFromCustomTable, try_catch, bind, call, race, await, throw, ret.
  destruct (cache_get snapshot email); [reflexivity|].
  destruct (db_select_by_email B email (world m)) as [[[|] [[data [err|]]|e]] w'];
    reflexivity.
Qed.

Lemma getUserFromCustomTable_user {W} (B : Backend W) snapshot email (m : Machine W) :
  user (ui (snd (getUserFromCustomTable B snapshot email m))) = user (ui m)
  /\ loading (ui (snd (getUserFromCustomTable B snapshot email m))) = loading (ui m).
Proof.
  rewrite getUserFromCustomTable_run.
  destruct (cache_get snapshot email); [now simpl|].
  destruct (db_select_by_email B email (world m)) as [[[|] [[data [err|]]|e]] w'];
    simpl; auto.
Qed.

(** C5: [checkUser] always settles without throwing and leaves [loading]
    false; when the session fetch is late or rejected, or no profile
    resolves, the user is left as it was, so absent at start. *)
Theorem checkUser_reaches_loading_false {W} (B : Backend W) (snapshot : Cache)
  (m : Machine W) :
  fst (checkUser B snapshot m) = Ok tt
  /\ loading (ui (snd (checkUser B snapshot m))) = false
  /\ (session_check_fails B snapshot m ->
      user (ui (snd (checkUser B snapshot m))) = user (ui m))
  /\ (session_check_fails B snapshot m -> user (ui m) = None ->
      user (ui (snd (checkUser B snapshot m))) = None).
Proof.
  assert (Hmain : fst (checkUser B snapshot m) = Ok tt
                  /\ loading (ui (snd (checkUser B snapshot m))) = false
                  /\ (session_check_fails B snapshot m ->
                      user (ui (snd (checkUser B snapshot m))) = user (ui m))).
  { unfold checkUser, session_check_fails, try_catch_finally, try_catch, bind, call.
    destruct (auth_getSession B (world m)) as [o w'].
    set (m1 := mkMachine (ui m) w' (log m ++ [EvGetSession])).
    unfold race, await.
    destruct o as [[|] [r|e]]; simpl; try (repeat split; auto; fail).
    destruct (sr_user r) as [su|] eqn:Hsu; simpl; [|repeat split; auto].
    pose proof (getUserFromCustomTable_user B snapshot (or_empty (au_email su)) m1)
      as [Hu _].
    destruct (getUserFromCustomTable B snapshot (or_empty (au_email su)) m1)
      as [[[cu|]|e] m2] eqn:Hget; simpl in *; repeat split; auto.
    intros [H|[[e H]|[(r' & H & Hnone)|(r' & su' & H & Hsome & Hnone)]]];
      try discriminate.
    - injection H as <-. congruence.
    - injection H as <-. rewrite Hsu in Hsome. injection Hsome as <-.
      rewrite Hget in Hnone. discriminate. }
  destruct Hmain as (H1 & H2 & H3). repeat split; auto.
  intros Hf Hn. rewrite H3; auto.
Qed.

(** The session fetch is too slow at process start: no user, and
    [loading] is false. *)
Lemma checkUser_reaches_loading_false_witness :
  let B := scripted (with_getSession
                       (too_slow (mkSessionResponse (Some (mkSession (Some jane_auth)))))
                       all_well) in
  fst (checkUser B ∅ (initial tt)) = Ok tt
  /\ loading (ui (snd (checkUser B ∅ (initial tt)))) = false
  /\ user (ui (snd (checkUser B ∅ (initial tt)))) = None.
Proof.
  intros B.
  destruct (checkUser_reaches_loading_false B ∅ (initial tt)) as (H1 & H2 & _ & H4).
  split; [exact H1|]. split; [exact H2|].
  apply H4; [left; reflexivity | reflexivity].
Defined.

(** ** Relating the machine after a computation to the machine before *)

Section Follows.

Context {W : Type}.
Variable R : Machine W -> Machine W -> Prop.
Hypothesis R_refl : forall m, R m m.
Hypothesis R_trans : forall m1 m2 m3, R m1 m2 -> R m2 m3 -> R m1 m3.
Hypothesis R_world : forall m w, R m (mkMachine (ui m) w (log m)).
Hypothesis R_event : forall m w e, R m (mkMachine (ui m) w (log m ++ [e])).

Lemma follows_ret {A} (a : A) : follows R (ret a).
Proof. intros m. apply R_refl. Qed.

Lemma follows_throw {A} e : follows R (@throw W A e).
Proof. intros m. apply R_refl. Qed.

Lemma follows_bind {A A'} (c : M W A) (k : A -> M W A') :
  follows R c -> (forall a, follows R (k a)) -> follows R (bind c k).
Proof.
  intros Hc Hk m. unfold bind. specialize (Hc m).
  destruct (c m) as [[a|e] m']; simpl in *; [|assumption].
  eapply R_trans; [eassumption | apply Hk].
Qed.

Lemma follows_try_catch {A} (c : M W A) h :
  follows R c -> (forall e, follows R (h e)) -> follows R (try_catch c h).
Proof.
  intros Hc Hh m. unfold try_catch. specialize (Hc m).
  destruct (c m) as [[a|e] m']; simpl in *; [assumption|].
  eapply R_trans; [eassumption | apply Hh].
Qed.

Lemma follows_try_catch_finally {A} (c : M W A) h f :
  follows R c -> (forall e, follows R (h e)) -> follows R f ->
  follows R (try_catch_finally c h f).
Proof.
  intros Hc Hh Hf m. unfold try_catch_finally.
  pose proof (follows_try_catch c h Hc Hh m) as Ht.
  destruct (try_catch c h m) as [r m']. specialize (Hf m').
  destruct (f m') as [[u|e] m'']; simpl in *; eapply R_trans; eassumption.
Qed.

Lemma follows_spawn {A} (c : M W A) : follows R c -> follows R (spawn c).
Proof. intros Hc m. apply Hc. Qed.

Lemma follows_call {X} (h : W -> Outcome X * W) ev : follows R (call h ev).
Proof.
  intros m. unfold call. destruct (h (world m)) as [o w']. apply R_event.
Qed.

Lemma follows_await {X} (o : Outcome X) : follows R (@await W X o).
Proof. intros m. unfold await. destruct (settled o); apply R_refl. Qed.

Lemma follows_race {X} (o : Outcome X) msg : follows R (@race W X o msg).
Proof.
  intros m. unfold race. destruct (late o); [apply R_refl | apply follows_await].
Qed.

Lemma follows_now (B : Backend W) : follows R (now B).
Proof.
  intros m. unfold now. destruct (date_now B (world m)) as [t w']. apply R_world.
Qed.

Lemma follows_race_block {A} (B : Backend W) t (c : M W A) msg :
  follows R c -> follows R (race_block B t c msg).
Proof.
  intros Hc m. unfold race_block. specialize (Hc m).
  destruct (c m) as [r m']. destruct (timer_first B t (world m')) as [fired w'].
  simpl in *. eapply R_trans; [eassumption|].
  destruct fired; apply R_world.
Qed.

End Follows.

(** ** The justification of cache entries *)

Lemma log_grows_refl {W} (m : Machine W) : log_grows m m.
Proof. exists []. now rewrite app_nil_r. Qed.

Lemma log_grows_trans {W} (m1 m2 m3 : Machine W) :
  log_grows m1 m2 -> log_grows m2 m3 -> log_grows m1 m3.
Proof.
  intros [r1 H1] [r2 H2]. exists (r1 ++ r2). now rewrite H2, H1, app_assoc.
Qed.

Lemma fetched_app l l' k v : fetched l k v -> fetched (l ++ l') k v.
Proof.
  intros (o & resp & Hin & H). exists o, resp.
  split; [apply in_or_app; now left | exact H].
Qed.

Lemma inserted_app l l' k v : inserted l k v -> inserted (l ++ l') k v.
Proof.
  intros (row & o & resp & Hin & H). exists row, o, resp.
  split; [apply in_or_app; now left | exact H].
Qed.

(** A machine whose cache has no new entry and whose log has grown is
    still justified. *)
Lemma justified_shrink {W} (m m' : Machine W) :
  log_grows m m' ->
  (forall k v, userCache (ui m') !! k = Some v -> userCache (ui m) !! k = Some v) ->
  stays_justified m m'.
Proof.
  intros Hlog Hsub. split; [exact Hlog|].
  destruct Hlog as [rest Hrest]. intros Hj k v Hk. rewrite Hrest.
  destruct (Hj k v (Hsub k v Hk)); [left; now apply fetched_app
                                   | right; now apply inserted_app].
Qed.

Lemma stays_justified_refl {W} (m : Machine W) : stays_justified m m.
Proof. split; [apply log_grows_refl | auto]. Qed.

Lemma stays_justified_trans {W} (m1 m2 m3 : Machine W) :
  stays_justified m1 m2 -> stays_justified m2 m3 -> stays_justified m1 m3.
Proof.
  intros [L1 J1] [L2 J2]. split; [eapply log_grows_trans; eassumption | auto].
Qed.

Lemma stays_justified_world {W} (m : Machine W) w :
  stays_justified m (mkMachine (ui m) w (log m)).
Proof.
  apply justified_shrink; [exists []; simpl; now rewrite app_nil_r | auto].
Qed.

Lemma stays_justified_event {W} (m : Machine W) w e :
  stays_justified m (mkMachine (ui m) w (log m ++ [e])).
Proof. apply justified_shrink; [now exists [e] | auto]. Qed.

Lemma setUser_justified {W} u : follows (@stays_justified W) (setUser u).
Proof. intros m. apply justified_shrink; [now exists [EvSetUser u] | auto]. Qed.

Lemma setLoading_justified {W} b : follows (@stays_justified W) (setLoading b).
Proof. intros m. apply justified_shrink; [now exists [EvSetLoading b] | auto]. Qed.

Lemma setUserCache_delete_justified {W} e :
  follows (@stays_justified W) (setUserCache (fun prev => delete e prev)).
Proof.
  intros m. apply justified_shrink; [eexists; reflexivity|].
  simpl. intros k v Hk. apply lookup_delete_Some in Hk. tauto.
Qed.

Lemma setUserCache_clear_justified {W} :
  follows (@stays_justified W) (setUserCache (fun _ => ∅)).
Proof.
  intros m. apply justified_shrink; [eexists; reflexivity|].
  simpl. intros k v Hk. now rewrite lookup_empty in Hk.
Qed.

Lemma clearStaleCache_justified {W} e :
  follows (@stays_justified W) (clearStaleCache e).
Proof.
  unfold clearStaleCache. destruct e as [e|];
    [destruct (String.eqb e "")|];
    auto using setUserCache_clear_justified, setUserCache_delete_justified.
Qed.

(** ** Profile resolution and profile creation *)

(** Closed equations with unknowns on the right: evaluate the left. *)
Ltac compute_lhs :=
  lazymatch goal with
  | |- ?lhs = _ =>
      let v := eval vm_compute in lhs in
      transitivity v; [vm_compute; reflexivity | reflexivity]
  end.

Ltac run_monad :=
  unfold try_catch_finally, try_catch, bind, call, race, await, now, throw, ret,
    setUserCache, setUser, setLoading; simpl.

Ltac step_handler :=
  match goal with
  | |- context [db_table_check ?B ?w] =>
      destruct (db_table_check B w) as [[? [[?|]|?]] ?] eqn:?
  | |- context [date_now ?B ?w] =>
      destruct (date_now B w) as [? ?] eqn:?
  | |- context [db_insert ?B ?r ?w] =>
      destruct (db_insert B r w) as [[[|] [[? [?|]]|?]] ?] eqn:?
  | |- context [db_select_by_email ?B ?e ?w] =>
      destruct (db_select_by_email B e w) as [[[|] [[? [?|]]|?]] ?] eqn:?
  end; simpl.

(** The log after some steps is the log before them followed by what
    they logged. *)
Ltac log_rest :=
  lazymatch goal with
  | |- ?l = ?l ++ _ => symmetry; apply app_nil_r
  | |- ?l ++ _ = ?l ++ _ => reflexivity
  | |- (?l ++ ?a) ++ ?b = ?l ++ _ => symmetry; apply app_assoc
  | |- ((?l ++ ?a) ++ ?b) ++ ?c = ?l ++ _ =>
      rewrite <- (app_assoc l a b), <- (app_assoc l (a ++ b) c); reflexivity
  end.

(** On the answers that the specification speaks of,
    [getUserFromCustomTable] is its [resolveProfile], reading the
    snapshot and filling the state. *)
Lemma getUserFromCustomTable_refines {W} (B : Backend W) snapshot email (m : Machine W) :
  row_or_error (fst (db_select_by_email B email (world m))) ->
  getUserFromCustomTable B snapshot email m = resolveProfile_spec B snapshot email m.
Proof.
  rewrite getUserFromCustomTable_run. unfold resolveProfile_spec, row_or_error.
  destruct (cache_get snapshot email); [reflexivity|].
  destruct (db_select_by_email B email (world m)) as [[[|] [[[data|] [err|]]|e]] w'];
    simpl; try reflexivity.
  intros H. exfalso. apply H. reflexivity.
Qed.

(** What [getUserFromCustomTable] does to the cache: nothing, unless the
    snapshot holds no profile for the email and the store answers the
    query in time and without an error; the [data] of that answer is
    then stored under the email and returned. *)
Lemma getUserFromCustomTable_cache {W} (B : Backend W) snapshot email (m : Machine W) :
  let r := getUserFromCustomTable B snapshot email m in
  let o := fst (db_select_by_email B email (world m)) in
  userCache (ui (snd r)) = userCache (ui m)
  \/ (cache_get snapshot email = None
      /\ log (snd r)
         = log m ++ [EvSelectByEmail email o;
                     EvSetUserCache (userCache (ui m)) (userCache (ui (snd r)))]
      /\ exists resp,
           answered o resp /\ pg_error resp = None
           /\ fst r = Ok (pg_data resp)
           /\ userCache (ui (snd r)) = <[email := pg_data resp]> (userCache (ui m))).
Proof.
  simpl. rewrite getUserFromCustomTable_run.
  destruct (cache_get snapshot email) eqn:Hget; [now left|].
  destruct (db_select_by_email B email (world m)) as [[[|] [[data [err|]]|e]] w'];
    simpl; auto.
  right. split; [reflexivity|]. split; [now rewrite <- app_assoc|].
  exists (mkPgSingle data None). repeat split.
Qed.

Lemma getUserFromCustomTable_justified {W} (B : Backend W) snapshot email :
  follows stays_justified (getUserFromCustomTable B snapshot email).
Proof.
  intros m. rewrite getUserFromCustomTable_run.
  destruct (cache_get snapshot email); [apply stays_justified_refl|].
  destruct (db_select_by_email B email (world m)) as [[[|] [[data [err|]]|e]] w'];
    simpl; try apply stays_justified_event.
  split; [simpl; eexists; now rewrite <- app_assoc|].
  intros Hj k v. simpl. rewrite lookup_insert. case_decide as Hk.
  - intros [= <-]. subst k. left.
    exists (mkOutcome false (Fulfilled (mkPgSingle data None))), (mkPgSingle data None).
    split; [|repeat split].
    apply in_or_app. left. apply in_or_app. right. now left.
  - intros Hold. rewrite <- app_assoc.
    destruct (Hj k v Hold); [left; now apply fetched_app
                            | right; now apply inserted_app].
Qed.

(** What [createUserInCustomTable] does: it never throws and leaves the
    user alone.  Either it returns null with the cache untouched, or the
    store answered, in time and without an error, the insert of a row
    carrying the id and email of [authUser] and the given names: the
    [data] of that answer is then stored under that email and
    returned. *)
Lemma createUserInCustomTable_result {W} (B : Backend W) authUser firstName lastName
  (m : Machine W) :
  let r := createUserInCustomTable B authUser firstName lastName m in
  exists rest,
    log (snd r) = log m ++ rest
    /\ user (ui (snd r)) = user (ui m)
    /\ ((fst r = Ok None /\ userCache (ui (snd r)) = userCache (ui m))
        \/ exists userData o resp,
             In (EvInsert userData o) rest
             /\ user_id userData = au_id authUser
             /\ email userData = or_empty (au_email authUser)
             /\ first_name userData = firstName
             /\ last_name userData = lastName
             /\ answered o resp /\ pg_error resp = None
             /\ fst r = Ok (pg_data resp)
             /\ userCache (ui (snd r))
                = <[or_empty (au_email authUser) := pg_data resp]> (userCache (ui m)))
    /\ (forall userData o resp,
          In (EvInsert userData o) rest ->
          answered o resp ->
          pg_error resp = None ->
          fst r = Ok (pg_data resp)
          /\ userCache (ui (snd r))
             = <[or_empty (au_email authUser) := pg_data resp]> (userCache (ui m))).
Proof.
  unfold createUserInCustomTable. run_monad.
  step_handler.
  all: repeat step_handler.
  all: eexists; (split; [log_rest|]); (split; [reflexivity|]); split.
  all: try (left; split; reflexivity).
  all: try (right; eexists; eexists; eexists;
            (split; [simpl; right; left; reflexivity | repeat split; reflexivity])).
  all: intros userData o' resp' Hin [Hl Hs] He; simpl in Hin;
    repeat (destruct Hin as [Hin|Hin]; [try discriminate|]); try contradiction;
    injection Hin as <- <-; simpl in *; try discriminate;
    injection Hs as <-; simpl in *; try discriminate; split; reflexivity.
Qed.

Lemma createUserInCustomTable_justified {W} (B : Backend W) authUser firstName lastName :
  follows stays_justified (createUserInCustomTable B authUser firstName lastName).
Proof.
  intros m.
  pose proof (createUserInCustomTable_result B authUser firstName lastName m) as H.
  simpl in H. destruct H as (rest & Hlog & _ & Hres & _).
  assert (Hgrows : log_grows m (snd (createUserInCustomTable B authUser firstName
                                        lastName m))) by (now exists rest).
  destruct Hres as [[_ Hcache]
                   |(userData & o & resp & Hin & _ & Hemail & _ & _ & Ho & Herr & _
                     & Hcache)].
  - apply justified_shrink; [exact Hgrows|]. now rewrite Hcache.
  - split; [exact Hgrows|].
    intros Hj k v. rewrite Hcache, lookup_insert. case_decide as Hk.
    + intros [= <-]. subst k. right. exists userData, o, resp.
      split; [rewrite Hlog; apply in_or_app; now right|]. auto.
    + intros Hold. rewrite Hlog.
      destruct (Hj k v Hold); [left; now apply fetched_app
                              | right; now apply inserted_app].
Qed.

(** Every function of the component keeps the cache justified. *)
Ltac follow_step :=
  lazymatch goal with
  | |- forall _, _ => intro
  | |- follows _ (getUserFromCustomTable _ _ _) =>
      apply getUserFromCustomTable_justified
  | |- follows _ (createUserInCustomTable _ _ _ _) =>
      apply createUserInCustomTable_justified
  | |- follows _ (clearStaleCache _) => apply clearStaleCache_justified
  | |- follows _ (setUser _) => apply setUser_justified
  | |- follows _ (setLoading _) => apply setLoading_justified
  | |- follows _ (setUserCache _) =>
      first [apply setUserCache_delete_justified | apply setUserCache_clear_justified]
  | |- follows _ (ret _) => apply follows_ret; apply stays_justified_refl
  | |- follows _ (throw _) => apply follows_throw; apply stays_justified_refl
  | |- follows _ (call _ _) => apply follows_call; apply stays_justified_event
  | |- follows _ (await _) => apply follows_await; apply stays_justified_refl
  | |- follows _ (race _ _) => apply follows_race; apply stays_justified_refl
  | |- follows _ (now _) => apply follows_now; apply stays_justified_world
  | |- follows _ (spawn _) => apply follows_spawn
  | |- follows _ (race_block _ _ _ _) =>
      apply follows_race_block;
      [apply stays_justified_trans | apply stays_justified_world |]
  | |- follows _ (bind _ _) =>
      apply follows_bind; [apply stays_justified_trans | |]
  | |- follows _ (try_catch _ _) =>
      apply follows_try_catch; [apply stays_justified_trans | |]
  | |- follows _ (try_catch_finally _ _ _) =>
      apply follows_try_catch_finally; [apply stays_justified_trans | | |]
  | |- follows _ (match ?x with _ => _ end) => destruct x
  end.

Ltac follow := repeat follow_step.

Lemma updateLastLogin_justified {W} (B : Backend W) userId :
  follows stays_justified (updateLastLogin B userId).
Proof. unfold updateLastLogin. follow. Qed.

Lemma checkUser_justified {W} (B : Backend W) snapshot :
  follows stays_justified (checkUser B snapshot).
Proof. unfold checkUser. follow. Qed.

Lemma onAuthStateChange_justified {W} (B : Backend W) snapshot session :
  follows stays_justified (onAuthStateChange B snapshot session).
Proof. unfold onAuthStateChange, updateLastLogin. follow. Qed.

Lemma userSetup_justified {W} (B : Backend W) snapshot :
  follows stays_justified (userSetup B snapshot).
Proof. unfold userSetup, updateLastLogin. follow. Qed.

Lemma login_justified {W} (B : Backend W) snapshot email password :
  follows stays_justified (login B snapshot email password).
Proof. unfold login, userSetup, updateLastLogin. follow. Qed.

Lemma recover_justified {W} (B : Backend W) snapshot firstName lastName email password :
  follows stays_justified (recover B snapshot firstName lastName email password).
Proof. unfold recover. follow. Qed.

Lemma createProfile_justified {W} (B : Backend W) authUser firstName lastName :
  follows stays_justified (createProfile B authUser firstName lastName).
Proof. unfold createProfile. follow. Qed.

Lemma afterSignUp_justified {W} (B : Backend W) snapshot firstName lastName email
  password resp :
  follows stays_justified (afterSignUp B snapshot firstName lastName email password resp).
Proof. unfold afterSignUp, recover, createProfile. follow. Qed.

Lemma register_justified {W} (B : Backend W) snapshot firstName lastName email password :
  follows stays_justified (register B snapshot firstName lastName email password).
Proof.
  unfold register, afterSignUp, registerCatch, recover, createProfile. follow.
Qed.

Lemma logout_justified {W} (B : Backend W) : follows stays_justified (logout B).
Proof. unfold logout. follow. Qed.

Lemma debugAuthState_justified {W} (B : Backend W) snapshot email :
  follows stays_justified (debugAuthState B snapshot email).
Proof. unfold debugAuthState. follow. Qed.

Lemma run_op_justified {W} (B : Backend W) snapshot op :
  follows stays_justified (run_op B snapshot op).
Proof.
  destruct op; simpl;
    auto using checkUser_justified, onAuthStateChange_justified, logout_justified,
      clearStaleCache_justified;
    (apply follows_bind;
     [apply stays_justified_trans
     | auto using login_justified, register_justified, debugAuthState_justified
     | intros; apply follows_ret; apply stays_justified_refl]).
Qed.

Lemma failed_not_answered (o : Outcome PgSingle) resp :
  failed o -> answered o resp -> pg_error resp = None -> False.
Proof.
  intros [Hl|[[e He]|(r & e & Hr & He)]] [Hlate Hs] Herr; congruence.
Qed.

(** C9, as amended: every entry of the cache, in every machine the
    component can reach, maps an email to the [data] of a store answer
    that came in time and without an error, to a fetch by that email or
    to an insert of a row with that email.  The two functions that write
    the cache leave it untouched after a store error, a late answer or a
    rejection; after an answer in time and without an error they store
    its [data] under the email, whatever it is, null included. *)
Theorem cache_entries_come_from_the_store {W} (B : Backend W) :
  (forall m, reachable B m -> cache_justified m)
  /\ (forall snapshot email m,
        let m' := snd (getUserFromCustomTable B snapshot email m) in
        let o := fst (db_select_by_email B email (world m)) in
        (failed o -> userCache (ui m') = userCache (ui m))
        /\ (forall resp,
              cache_get snapshot email = None ->
              answered o resp ->
              pg_error resp = None ->
              userCache (ui m') = <[email := pg_data resp]> (userCache (ui m)))
        /\ (userCache (ui m') = userCache (ui m)
            \/ exists resp,
                 answered o resp /\ pg_error resp = None
                 /\ userCache (ui m') = <[email := pg_data resp]> (userCache (ui m))))
  /\ (forall authUser firstName lastName m,
        let m' := snd (createUserInCustomTable B authUser firstName lastName m) in
        let key := or_empty (au_email authUser) in
        exists rest,
          log m' = log m ++ rest
          /\ ((forall userData o, In (EvInsert userData o) rest -> failed o) ->
              userCache (ui m') = userCache (ui m))
          /\ (forall userData o resp,
                In (EvInsert userData o) rest ->
                answered o resp ->
                pg_error resp = None ->
                userCache (ui m') = <[key := pg_data resp]> (userCache (ui m)))
          /\ (userCache (ui m') = userCache (ui m)
              \/ exists userData o resp,
                   In (EvInsert userData o) rest
                   /\ email userData = key
                   /\ answered o resp /\ pg_error resp = None
                   /\ userCache (ui m') = <[key := pg_data resp]> (userCache (ui m)))).
Proof.
  split; [|split].
  - induction 1 as [w | m snapshot op Hm IH].
    + intros k v Hk. simpl in Hk. now rewrite lookup_empty in Hk.
    + now apply run_op_justified.
  - intros snapshot email m.
    pose proof (getUserFromCustomTable_cache B snapshot email m) as H.
    cbv zeta in *. split; [|split].
    + destruct H as [H|(_ & _ & resp & Ho & Herr & _ & _)]; [intros _; exact H|].
      intros Hf. exfalso. exact (failed_not_answered _ _ Hf Ho Herr).
    + intros resp Hsnap [Hlate Hs] Herr. rewrite getUserFromCustomTable_run, Hsnap.
      destruct (db_select_by_email B email (world m)) as [o w']. simpl in *.
      now rewrite Hlate, Hs, Herr.
    + destruct H as [H|(_ & _ & resp & Ho & Herr & _ & Hcache)];
        [left; exact H | right; exists resp; auto].
  - intros authUser firstName lastName m.
    pose proof (createUserInCustomTable_result B authUser firstName lastName m) as H.
    cbv zeta in *. destruct H as (rest & Hlog & _ & H & Hpos). exists rest.
    split; [exact Hlog|]. split; [|split].
    + destruct H as [[_ H]
                    |(userData & o & resp & Hin & _ & _ & _ & _ & Ho & Herr & _)];
        [intros _; exact H|].
      intros Hf. exfalso. exact (failed_not_answered _ _ (Hf _ _ Hin) Ho Herr).
    + intros userData o resp Hin Ho Herr. exact (proj2 (Hpos _ _ _ Hin Ho Herr)).
    + destruct H as [[_ H]
                    |(userData & o & resp & Hin & _ & Hemail & _ & _ & Ho & Herr & _
                      & H)];
        [left; exact H | right; exists userData, o, resp; auto].
Qed.

(** After a login on services that answer well, the one cache entry is
    justified by the fetch. *)
Lemma cache_entries_come_from_the_store_witness :
  let m := snd (run_op (scripted all_well) ∅ (OpLogin "jane@x.com" "Pwd123!")
                  (initial tt)) in
  reachable (scripted all_well) m /\ cache_justified m.
Proof.
  intros m.
  assert (Hr : reachable (scripted all_well) m)
    by (apply reach_step; apply reach_initial).
  split; [exact Hr|].
  exact (proj1 (cache_entries_come_from_the_store (scripted all_well)) m Hr).
Defined.

(** C9, as stated, fails: the store answers the query with null data and
    no error.  [getUserFromCustomTable] returns null, and null is what it
    has cached under the email. *)
Lemma getUserFromCustomTable_caches_null :
  let B := scripted (with_select (in_time PgNull) all_well) in
  let r := getUserFromCustomTable B ∅ "jane@x.com" (initial tt) in
  fst r = Ok None
  /\ userCache (ui (snd r)) !! "jane@x.com" = Some None
  /\ userCache (ui (snd r)) <> userCache (ui (initial tt)).
Proof.
  intros B r.
  assert (H : userCache (ui (snd r)) !! "jane@x.com" = Some None)
    by (vm_compute; reflexivity).
  split; [vm_compute; reflexivity|]. split; [exact H|].
  intros Heq. rewrite Heq in H. discriminate H.
Qed.

(** ** Register *)

Lemma registerCatch_machine {W} e (m : Machine W) : snd (registerCatch e m) = m.
Proof.
  unfold registerCatch.
  destruct (opt_is (exn_message e) "Signup timeout");
    [|destruct (opt_is (exn_message e) "User creation timeout")]; reflexivity.
Qed.

(** [register] is its invalidation and sign-up call followed by the rest. *)
Lemma register_after_signUp {W} (B : Backend W) snapshot firstName lastName email
  password (m : Machine W) o m1 :
  invalidate_and_signUp B firstName lastName email password m = (Ok o, m1) ->
  register B snapshot firstName lastName email password m
  = try_catch
      (do resp <- race o "Signup timeout";
       afterSignUp B snapshot firstName lastName email password resp)
      registerCatch m1.
Proof.
  unfold invalidate_and_signUp, register, try_catch, bind, setUserCache, call.
  simpl. destruct (auth_signUp B email password firstName lastName (world m)) as [o' w'].
  intros [= <- <-]. reflexivity.
Qed.

Lemma invalidate_and_signUp_run {W} (B : Backend W) firstName lastName email password
  (m : Machine W) :
  let c := userCache (ui m) in
  let ow := auth_signUp B email password firstName lastName (world m) in
  invalidate_and_signUp B firstName lastName email password m
  = (Ok (fst ow),
     mkMachine (mkAuthState (user (ui m)) (loading (ui m)) (delete email c))
               (snd ow)
               (log m ++ [EvSetUserCache c (delete email c);
                          EvSignUp email password firstName lastName])).
Proof.
  unfold invalidate_and_signUp, bind, setUserCache, call. simpl.
  destruct (auth_signUp B email password firstName lastName (world m)) as [o w'].
  simpl. now rewrite <- app_assoc.
Qed.

(** C10: the first thing [register] does, before the sign-up call and so
    before any call to the auth service, is to replace the cache by the
    cache without the entry of the supplied email.  The sign-up is made,
    and the rest of [register] runs, from the state [m1] in which that
    entry is gone and every other entry is as before; the log shows the
    invalidation first and the sign-up next.  When the sign-up then is
    late or rejected, the invalidated cache is the one [register]
    leaves. *)
Theorem register_invalidates_first {W} (B : Backend W) snapshot firstName lastName
  email password (m : Machine W) :
  let c := userCache (ui m) in
  let signUp := auth_signUp B email password firstName lastName (world m) in
  let m1 :=
    mkMachine (mkAuthState (user (ui m)) (loading (ui m)) (delete email c))
              (snd signUp)
              (log m ++ [EvSetUserCache c (delete email c);
                         EvSignUp email password firstName lastName]) in
  let r := register B snapshot firstName lastName email password m in
  r = try_catch
        (do resp <- race (fst signUp) "Signup timeout";
         afterSignUp B snapshot firstName lastName email password resp)
        registerCatch m1
  /\ userCache (ui m1) !! email = None
  /\ (forall k, k <> email -> userCache (ui m1) !! k = c !! k)
  /\ (exists rest,
        log (snd r)
        = log m ++ EvSetUserCache c (delete email c)
                :: EvSignUp email password firstName lastName :: rest)
  /\ (late (fst signUp) = true \/ (exists e, settled (fst signUp) = Rejected e) ->
      userCache (ui (snd r)) = delete email c).
Proof.
  intros c signUp m1 r.
  pose proof (invalidate_and_signUp_run B firstName lastName email password m) as Hrun.
  cbv zeta in Hrun. fold c signUp m1 in Hrun.
  assert (Hr : r = try_catch
                     (do resp <- race (fst signUp) "Signup timeout";
                      afterSignUp B snapshot firstName lastName email password resp)
                     registerCatch m1)
    by (exact (register_after_signUp _ _ _ _ _ _ _ _ _ Hrun)).
  split; [exact Hr|]. split; [apply lookup_delete_eq|].
  split; [intros k Hk; now apply lookup_delete_ne|]. split.
  - rewrite Hr.
    match goal with |- context [try_catch ?body _ m1] =>
      assert (Hrest : follows stays_justified body) by
        (follow; apply afterSignUp_justified);
      specialize (Hrest m1); unfold try_catch;
      destruct (body m1) as [[a|e] m2]
    end; simpl in Hrest; destruct Hrest as [[rest Hrest] _]; simpl in Hrest;
      exists rest; rewrite ?registerCatch_machine; simpl;
      rewrite Hrest, <- app_assoc; reflexivity.
  - intros Hfail. rewrite Hr. unfold try_catch, bind, race, await.
    destruct (fst signUp) as [[|] [resp|e]]; simpl;
      rewrite ?registerCatch_machine; try reflexivity.
    destruct Hfail as [Hl|[e He]]; discriminate.
Qed.

(** The sign-up is too slow: Jane's entry is gone, Bob's is still
    there. *)
Lemma register_invalidates_first_witness :
  let c : Cache := {["jane@x.com" := Some jane_row; "bob@x.com" := Some jane_row]} in
  let B := scripted (with_signUp (too_slow (mkAuthResponse (Some jane_auth) None))
                                 all_well) in
  let m' := snd (register B c "Jane" "Doe" "jane@x.com" "Pwd123!"
                   (mkMachine (mkAuthState None false c) tt [])) in
  userCache (ui m') !! "jane@x.com" = None
  /\ userCache (ui m') !! "bob@x.com" = Some (Some jane_row).
Proof.
  intros c B m'.
  destruct (register_invalidates_first B c "Jane" "Doe" "jane@x.com" "Pwd123!"
              (mkMachine (mkAuthState None false c) tt []))
    as (_ & H1 & H2 & _ & H4).
  unfold m'. rewrite H4 by (left; reflexivity).
  split; [exact H1|].
  etransitivity; [exact (H2 "bob@x.com" ltac:(discriminate)) | reflexivity].
Defined.

(** ** Profile resolution *)

Lemma store_queries_app l l' :
  store_queries (l ++ l') = store_queries l + store_queries l'.
Proof.
  induction l as [|ev l IH]; [reflexivity|].
  destruct ev; simpl; rewrite IH; reflexivity.
Qed.

Lemma getUserFromCustomTable_queries {W} (B : Backend W) snapshot email (m : Machine W) :
  let r := getUserFromCustomTable B snapshot email m in
  store_queries (log (snd r)) <= store_queries (log m) + 1
  /\ (forall u, cache_get snapshot email = Some u -> r = (Ok (Some u), m))
  /\ (forall row, cache_get snapshot email = None -> fst r = Ok (Some row) ->
        cache_get (userCache (ui (snd r))) email = Some row).
Proof.
  simpl. rewrite getUserFromCustomTable_run.
  destruct (cache_get snapshot email) as [u|]; simpl.
  - split; [lia|]. split; [now intros ? [= <-] | discriminate].
  - destruct (db_select_by_email B email (world m)) as [[[|] [[data [err|]]|e]] w'];
      simpl; rewrite ?store_queries_app; simpl;
      (split; [lia|]); (split; [discriminate|]); intros row _; try discriminate.
    intros [= ->]. unfold cache_get. now rewrite lookup_insert_eq.
Qed.

(** C7: [getUserFromCustomTable] looks in the cache first and returns a
    cached row without a store query; on a miss it sends one query and
    caches and returns the row when the store finds it in time; on a
    store error, a late answer or a rejection it returns absent; it never
    throws.  What it returns is what [resolveProfile] of the
    specification returns, whatever the store answers, and on the answers
    that the specification speaks of (a row, a store error, a late
    answer, a rejection) it leaves the same machine.  So two calls in a
    row for a cached email send no store query, and a call after one that
    returned a row, made after the re-render, sends none either: at most
    one query in all. *)
Theorem getUserFromCustomTable_cache_first {W} (B : Backend W) (snapshot : Cache)
  (email : string) (m : Machine W) :
  fst (getUserFromCustomTable B snapshot email m)
  = fst (resolveProfile_spec B snapshot email m)
  /\ (row_or_error (fst (db_select_by_email B email (world m))) ->
      getUserFromCustomTable B snapshot email m = resolveProfile_spec B snapshot email m)
  /\ never_throws (getUserFromCustomTable B snapshot email)
  /\ (forall u, cache_get snapshot email = Some u ->
        let r1 := getUserFromCustomTable B snapshot email m in
        let r2 := getUserFromCustomTable B snapshot email (snd r1) in
        fst r1 = Ok (Some u) /\ fst r2 = Ok (Some u) /\ snd r2 = m
        /\ store_queries (log (snd r2)) <= store_queries (log m) + 1)
  /\ (forall row,
        let r1 := getUserFromCustomTable B snapshot email m in
        let r2 := getUserFromCustomTable B (userCache (ui (snd r1))) email (snd r1) in
        fst r1 = Ok (Some row) ->
        store_queries (log (snd r2)) <= store_queries (log m) + 1).
Proof.
  split; [|split; [apply getUserFromCustomTable_refines|split; [|split]]].
  - rewrite getUserFromCustomTable_run. unfold resolveProfile_spec.
    destruct (cache_get snapshot email); [reflexivity|].
    destruct (db_select_by_email B email (world m))
      as [[[|] [[[data|] [err|]]|e]] w']; reflexivity.
  - intros m'. unfold getUserFromCustomTable.
    apply never_throws_try_catch. auto with throws.
  - intros u Hu. simpl.
    destruct (getUserFromCustomTable_queries B snapshot email m) as (_ & Hhit & _).
    rewrite (Hhit u Hu). simpl. rewrite (Hhit u Hu). simpl.
    repeat split; auto. lia.
  - intros row. simpl. intros Hrow.
    destruct (getUserFromCustomTable_queries B snapshot email m) as (Hq & Hhit & Hmiss).
    simpl in *.
    destruct (cache_get snapshot email) as [u|] eqn:Hu.
    + rewrite (Hhit u eq_refl). simpl.
      apply (getUserFromCustomTable_queries B (userCache (ui m)) email m).
    + specialize (Hmiss row eq_refl Hrow).
      destruct (getUserFromCustomTable_queries B
                  (userCache (ui (snd (getUserFromCustomTable B snapshot email m))))
                  email (snd (getUserFromCustomTable B snapshot email m)))
        as (_ & Hhit2 & _).
      simpl in Hhit2. rewrite (Hhit2 row Hmiss). simpl. exact Hq.
Qed.

(** Jane's row is cached: two resolutions in a row, no store query. *)
Lemma getUserFromCustomTable_cache_first_witness :
  let snapshot : Cache := {["jane@x.com" := Some jane_row]} in
  let B := scripted all_well in
  let r1 := getUserFromCustomTable B snapshot "jane@x.com" (initial tt) in
  let r2 := getUserFromCustomTable B snapshot "jane@x.com" (snd r1) in
  cache_get snapshot "jane@x.com" = Some jane_row
  /\ fst r2 = Ok (Some jane_row)
  /\ store_queries (log (snd r2)) <= 0 + 1.
Proof.
  intros snapshot B r1 r2.
  assert (Hc : cache_get snapshot "jane@x.com" = Some jane_row) by reflexivity.
  split; [exact Hc|].
  destruct (getUserFromCustomTable_cache_first B snapshot "jane@x.com" (initial tt))
    as (_ & _ & _ & H & _).
  destruct (H jane_row Hc) as (_ & H2 & _ & H4).
  split; [exact H2 | exact H4].
Defined.

(** ** Register: the id check *)

Lemma race_block_not_fired {W A} (B : Backend W) t (c : M W A) msg (m : Machine W)
  r m' w' :
  c m = (r, m') ->
  timer_first B t (world m') = (false, w') ->
  race_block B t c msg m = (r, mkMachine (ui m') w' (log m')).
Proof. intros Hc Ht. unfold race_block. now rewrite Hc, Ht. Qed.

(** C3: when the sign-up has succeeded and the profile row created for
    it carries a [user_id] other than the id the auth service issued,
    [register] sends the store the deletion of the rows with that
    [user_id] and returns the retry error, not a success. *)
Theorem register_deletes_mismatched_row {W} (B : Backend W) snapshot firstName lastName
  email password (m : Machine W) o m1 resp authUser row m2 w3 :
  invalidate_and_signUp B firstName lastName email password m = (Ok o, m1) ->
  late o = false ->
  settled o = Fulfilled resp ->
  ar_error resp = None ->
  ar_user resp = Some authUser ->
  createUserInCustomTable B authUser firstName lastName m1 = (Ok (Some row), m2) ->
  timer_first B UserCreationTimer (world m2) = (false, w3) ->
  user_id row <> au_id authUser ->
  let r := register B snapshot firstName lastName email password m in
  fst r = Ok (reg_error "User profile creation failed. Please try again.")
  /\ rr_success (reg_error "User profile creation failed. Please try again.") = None
  /\ world (snd r) = snd (db_delete_by_user_id B (user_id row) w3)
  /\ log (snd r) = log m2 ++ [EvDelete (user_id row)].
Proof.
  intros Hrun Hlate Hs Herr Huser Hcreate Htimer Hne. simpl.
  rewrite (register_after_signUp _ _ _ _ _ _ _ _ _ Hrun).
  assert (Hbody :
    (do resp <- race o "Signup timeout";
     afterSignUp B snapshot firstName lastName email password resp) m1
    = (Ok (reg_error "User profile creation failed. Please try again."),
       mkMachine (ui m2) (snd (db_delete_by_user_id B (user_id row) w3))
                 (log m2 ++ [EvDelete (user_id row)]))).
  { assert (Hprofile :
      createProfile B authUser firstName lastName m1
      = (Ok (Returned (reg_error "User profile creation failed. Please try again.")),
         mkMachine (ui m2) (snd (db_delete_by_user_id B (user_id row) w3))
                   (log m2 ++ [EvDelete (user_id row)]))).
    { unfold createProfile. apply try_catch_ok.
      erewrite bind_ok by (eapply race_block_not_fired; eassumption).
      cbv beta iota. rewrite bool_decide_eq_true_2 by exact Hne.
      unfold bind, try_catch, call, await. simpl.
      destruct (db_delete_by_user_id B (user_id row) w3) as [[lt [err|e]] w4];
        reflexivity. }
    erewrite bind_ok by (apply race_in_time; eassumption).
    unfold afterSignUp. rewrite Herr, Huser.
    erewrite bind_ok by exact Hprofile. reflexivity. }
  erewrite try_catch_ok by exact Hbody. simpl. auto.
Qed.

(** The store renumbers the row: the sign-up of Jane succeeds, the row
    comes back under id 7, and [register] has it deleted again and
    reports the error. *)
Lemma register_deletes_mismatched_row_witness :
  let r := register renumbering_backend ∅ "Jane" "Doe" "jane@x.com" "Pwd123!"
             (initial ref_empty) in
  IdNum 7 <> IdNum 0
  /\ fst r = Ok (reg_error "User profile creation failed. Please try again.")
  /\ rows (world (snd r)) = [].
Proof.
  intros r.
  assert (Hne : IdNum 7 <> IdNum 0) by discriminate.
  split; [exact Hne|].
  edestruct (register_deletes_mismatched_row renumbering_backend ∅ "Jane" "Doe"
               "jane@x.com" "Pwd123!" (initial ref_empty))
    as (H1 & _ & H3 & _);
    [ compute_lhs | compute_lhs | compute_lhs | compute_lhs | compute_lhs
    | compute_lhs | compute_lhs | exact Hne | ].
  split; [exact H1|]. unfold r. rewrite H3. reflexivity.
Defined.

(** ** Register: the recovery path *)




(** When the recovery sign-in reports an error, [register] returns the
    error "User already exists, please login". *)
Lemma register_recovery_rejected {W} (B : Backend W) snapshot firstName lastName mail
  password (m : Machine W) o m1 resp signUpError o2 m2 signIn signInError :
  invalidate_and_signUp B firstName lastName mail password m = (Ok o, m1) ->
  late o = false ->
  settled o = Fulfilled resp ->
  ar_error resp = Some signUpError ->
  opt_is (ae_code signUpError) "email_address_invalid" = false ->
  already_exists signUpError = true ->
  recovery_signIn B mail password m1 = (Ok o2, m2) ->
  settled o2 = Fulfilled signIn ->
  ar_error signIn = Some signInError ->
  register B snapshot firstName lastName mail password m
  = (Ok (reg_error "User already exists, please login"), m2).
Proof.
  intros Hrun Hlate Hs Herr Hcode Hexists Hin Hs2 Herr2.
  assert (Hrec :
    recover B snapshot firstName lastName mail password m1
    = (Ok (Returned (reg_error "User already exists, please login")), m2)).
  { unfold recover. apply try_catch_ok.
    erewrite bind_ok by exact Hin. cbv beta.
    erewrite bind_ok by (apply await_fulfilled; eassumption).
    now rewrite Herr2. }
  rewrite (register_after_signUp _ _ _ _ _ _ _ _ _ Hrun).
  apply try_catch_ok.
  erewrite bind_ok by (apply race_in_time; eassumption).
  unfold afterSignUp. rewrite Herr, Hcode, Hexists.
  erewrite bind_ok by exact Hrec. reflexivity.
Qed.



(** ** Register on the reference services *)

Lemma ref_recover_spec snapshot firstName lastName e p (m : Machine RefWorld) :
  registered e (world m) = true ->
  exists r m',
    recover ref_backend snapshot firstName lastName e p m = (Ok (Returned r), m')
    /\ ref_registers snapshot firstName lastName e p (world m) r (world m').
Proof.
  destruct m as [st w lg]. simpl. intros Hreg.
  unfold recover, getUserFromCustomTable, createUserInCustomTable.
  run_monad. unfold ref_signIn.
  destruct (find (credentials e p) (identities w)) as [i|] eqn:Hfind; simpl.
  - destruct (cache_get snapshot e) as [u|] eqn:Hsnap; simpl.
    + eexists; eexists; split; [reflexivity|].
      eapply registers_exists; eauto.
    + assert (Hcases :
        (exists r, rows_for e w = [r]) \/ (forall r, rows_for e w <> [r])).
      { destruct (rows_for e w) as [|r [|r' rest]];
          [right; discriminate | left; eauto | right; discriminate]. }
      unfold ref_select, ref_insert, rows_for, has_row in *. simpl.
      destruct Hcases as [[r Hr]|Hnot].
      * rewrite Hr. simpl. eexists; eexists; split; [reflexivity|].
        eapply registers_exists; eauto.
      * destruct (List.filter (fun r => String.eqb (email r) e) (rows w))
          as [|r [|r' rest]] eqn:Hrows; simpl;
          try (exfalso; eapply Hnot; reflexivity);
          (destruct (existsb (fun r => bool_decide (user_id r = i_id i)) (rows w))
             eqn:Hrow; simpl;
           eexists; eexists; (split; [reflexivity|]);
           [ eapply registers_setup_failed | eapply registers_setup ];
           eauto; unfold rows_for, has_row; rewrite ?Hrows; auto).
  - eexists; eexists; split; [reflexivity|].
    eapply registers_rejected; eauto.
Qed.

Lemma ref_register_spec snapshot firstName lastName e p (m : Machine RefWorld) :
  exists r,
    fst (register ref_backend snapshot firstName lastName e p m) = Ok r
    /\ ref_registers snapshot firstName lastName e p (world m) r
         (world (snd (register ref_backend snapshot firstName lastName e p m))).
Proof.
  destruct m as [st w lg].
  pose proof (invalidate_and_signUp_run ref_backend firstName lastName e p
                (mkMachine st w lg)) as Hrun.
  simpl in Hrun. rewrite (register_after_signUp _ _ _ _ _ _ _ _ _ Hrun). clear Hrun.
  unfold ref_signUp.
  destruct (registered e w) eqn:Hreg; cbn [fst snd].
  - match goal with |- context [try_catch _ _ ?m1] =>
      destruct (ref_recover_spec snapshot firstName lastName e p m1 Hreg)
        as (r & m' & Hrec & Hspec)
    end.
    exists r. erewrite try_catch_ok.
    2:{ erewrite bind_ok by (apply race_in_time; reflexivity).
        unfold afterSignUp. cbn [ar_error ar_user already_registered ae_code opt_is].
        change ("user_already_exists" =? "email_address_invalid")%string with false.
        change (already_exists already_registered) with true. cbv iota.
        erewrite bind_ok by exact Hrec. reflexivity. }
    split; [reflexivity | exact Hspec].
  - assert (Hself : bool_decide (IdNum (next_id w) <> IdNum (next_id w)) = false)
      by (apply bool_decide_eq_false_2; auto).
    destruct (has_row (IdNum (next_id w)) w) eqn:Hrow.
    + exists (reg_error "Failed to create user profile. Please try again.").
      erewrite try_catch_ok.
      2:{ erewrite bind_ok by (apply race_in_time; reflexivity).
          unfold afterSignUp. cbn [ar_error ar_user].
          unfold createProfile, race_block, createUserInCustomTable.
          run_monad. unfold ref_insert, has_row in *. simpl.
          rewrite Hrow. reflexivity. }
      split; [reflexivity | apply registers_new_clash; assumption].
    + exists (reg_success "User registered, please login").
      erewrite try_catch_ok.
      2:{ erewrite bind_ok by (apply race_in_time; reflexivity).
          unfold afterSignUp. cbn [ar_error ar_user].
          unfold createProfile, race_block, createUserInCustomTable.
          run_monad. unfold ref_insert, has_row in *. simpl.
          rewrite Hrow. simpl. rewrite Hself. reflexivity. }
      split; [reflexivity | apply registers_new; assumption].
Qed.

Lemma registered_In e w :
  registered e w = true <-> In e (map i_email (identities w)).
Proof.
  unfold registered. rewrite existsb_exists, in_map_iff. split.
  - intros (i & Hi & He). apply String.eqb_eq in He. eauto.
  - intros (i & He & Hi). exists i. split; [exact Hi | now apply String.eqb_eq].
Qed.

Lemma has_row_In id w :
  has_row id w = true <-> In id (map user_id (rows w)).
Proof.
  unfold has_row. rewrite existsb_exists, in_map_iff. split.
  - intros (r & Hr & Hid). apply bool_decide_eq_true_1 in Hid. eauto.
  - intros (r & Hid & Hr). exists r. split; [exact Hr | now apply bool_decide_eq_true_2].
Qed.

Lemma not_true_false (b : bool) : b = false <-> ~ b = true.
Proof. destruct b; split; congruence. Qed.

Lemma find_credentials e p w i :
  find (credentials e p) (identities w) = Some i ->
  In i (identities w) /\ i_email i = e /\ i_password i = p.
Proof.
  intros H. apply find_some in H. destruct H as [Hin Hc].
  unfold credentials in Hc. apply andb_true_iff in Hc. destruct Hc as [He Hp].
  apply String.eqb_eq in He, Hp. auto.
Qed.

(** The reference world stays consistent through [register]. *)
Lemma ref_registers_wf snapshot firstName lastName e p w r w' :
  ref_wf w ->
  ref_registers snapshot firstName lastName e p w r w' ->
  ref_wf w'.
Proof.
  intros [Hids Hemails Hfresh Hrows Howner] Hreg.
  assert (Hnew : ~ In (IdNum (next_id w)) (map i_id (identities w))).
  { intros Hin. apply in_map_iff in Hin. destruct Hin as (i & Hid & Hi).
    destruct (Hfresh i Hi) as (n & Hn & Hlt). rewrite Hn in Hid.
    injection Hid as ->. lia. }
  assert (Hwith : registered e w = false ->
                  ref_wf (with_identity (mkIdentity (IdNum (next_id w)) e p) w)).
  { intros Hr. apply not_true_false in Hr. rewrite registered_In in Hr.
    constructor; simpl.
    - now constructor.
    - now constructor.
    - intros i [<-|Hi]; [exists (next_id w); simpl; split; [reflexivity | lia]|].
      destruct (Hfresh i Hi) as (n & Hn & Hlt). exists n. split; [exact Hn | lia].
    - exact Hrows.
    - intros r0 Hr0. destruct (Howner r0 Hr0) as (i & Hi & Hown). exists i. tauto. }
  inversion Hreg; subst; clear Hreg.
  - match goal with H : has_row _ _ = false |- _ =>
      apply not_true_false in H; rewrite has_row_In in H end.
    destruct (Hwith ltac:(assumption)) as [Hids' Hemails' Hfresh' Hrows' Howner'].
    constructor; simpl in *; auto.
    + now constructor.
    + intros r0 [<-|Hr0].
      * eexists. split; [left; reflexivity | split; reflexivity].
      * destruct (Howner r0 Hr0) as (i & Hi & Hown). exists i. tauto.
  - auto.
  - now constructor.
  - now constructor.
  - match goal with H : has_row _ _ = false |- _ =>
      apply not_true_false in H; rewrite has_row_In in H end.
    match goal with H : find _ _ = Some _ |- _ =>
      apply find_credentials in H; destruct H as (Hi & He & Hp) end.
    constructor; simpl; auto.
    + now constructor.
    + intros r0 [<-|Hr0]; [exists i; simpl; auto|].
      destruct (Howner r0 Hr0) as (i0 & Hi0 & Hown). exists i0. tauto.
  - now constructor.
Qed.

Lemma NoDup_map_inj {A B} (f : A -> B) (l : list A) a b :
  List.NoDup (map f l) -> In a l -> In b l -> f a = f b -> a = b.
Proof.
  induction l as [|x l IH]; simpl; [tauto|].
  intros Hnd Ha Hb Hf. inversion Hnd as [|? ? Hx Hl]; subst.
  destruct Ha as [<-|Ha], Hb as [<-|Hb]; auto.
  - exfalso. apply Hx. rewrite Hf. now apply in_map.
  - exfalso. apply Hx. rewrite <- Hf. now apply in_map.
Qed.

Lemma NoDup_map_filter {A B} (f : A -> B) (q : A -> bool) (l : list A) :
  List.NoDup (map f l) -> List.NoDup (map f (List.filter q l)).
Proof.
  induction l as [|x l IH]; simpl; [auto|].
  intros Hnd. inversion Hnd as [|? ? Hx Hl]; subst.
  destruct (q x); simpl; auto. constructor; auto.
  intros Hin. apply Hx. apply in_map_iff in Hin. destruct Hin as (y & Hy & Hin).
  apply filter_In in Hin. rewrite <- Hy. apply in_map. tauto.
Qed.

(** In a consistent world an email has at most one profile row. *)
Lemma ref_wf_one_row e w : ref_wf w -> length (rows_for e w) <= 1.
Proof.
  intros [Hids Hemails Hfresh Hrows Howner].
  pose proof (NoDup_map_filter user_id (fun r => String.eqb (email r) e) (rows w) Hrows)
    as Hnd.
  assert (Hin : forall r, In r (rows_for e w) -> In r (rows w) /\ email r = e).
  { intros r Hr. apply filter_In in Hr. destruct Hr as [Hr He].
    apply String.eqb_eq in He. auto. }
  unfold rows_for in *.
  destruct (List.filter (fun r => String.eqb (email r) e) (rows w))
    as [|r1 [|r2 rest]]; simpl; try lia.
  exfalso.
  destruct (Hin r1 ltac:(simpl; auto)) as [H1 E1].
  destruct (Hin r2 ltac:(simpl; auto)) as [H2 E2].
  destruct (Howner r1 H1) as (i1 & Hi1 & Hid1 & He1).
  destruct (Howner r2 H2) as (i2 & Hi2 & Hid2 & He2).
  assert (i1 = i2)
    by (eapply (NoDup_map_inj i_email); eauto; congruence).
  subst i2. simpl in Hnd. inversion Hnd as [|? ? Hx _]; subst.
  apply Hx. left. congruence.
Qed.

(** An email without an identity has no profile row. *)
Lemma ref_wf_unregistered e w :
  ref_wf w -> registered e w = false -> rows_for e w = [].
Proof.
  intros [_ _ _ _ Howner] Hr. apply not_true_false in Hr.
  rewrite registered_In in Hr.
  destruct (rows_for e w) as [|r rest] eqn:Hrows; [reflexivity|].
  exfalso. assert (Hin : In r (rows_for e w)) by (rewrite Hrows; now left).
  apply filter_In in Hin. destruct Hin as [Hin He]. apply String.eqb_eq in He.
  destruct (Howner r Hin) as (i & Hi & _ & Hemail).
  apply Hr. apply in_map_iff. exists i. split; [congruence | exact Hi].
Qed.

(** C2, as amended: on services without faults, two calls of [register]
    with the same email never leave two profile rows for it.  When the
    email was new, the first call creates the one row, and the second
    goes through the recovery path: with the password of the first call
    it returns the success "User already exists, please login"; with
    another password the recovery sign-in is rejected and it returns the
    error "User already exists, please login".  Neither call throws. *)
Theorem register_twice_same_email snapshot1 snapshot2 firstName1 lastName1 p1
  firstName2 lastName2 p2 e (m : Machine RefWorld) :
  ref_wf (world m) ->
  let r1 := register ref_backend snapshot1 firstName1 lastName1 e p1 m in
  let r2 := register ref_backend snapshot2 firstName2 lastName2 e p2 (snd r1) in
  length (rows_for e (world (snd r2))) <= 1
  /\ (registered e (world m) = false ->
      fst r1 = Ok (reg_success "User registered, please login")
      /\ length (rows_for e (world (snd r1))) = 1
      /\ length (rows_for e (world (snd r2))) = 1
      /\ fst r2 = Ok (if String.eqb p2 p1
                      then reg_success "User already exists, please login"
                      else reg_error "User already exists, please login")).
Proof.
  intros Hwf. simpl.
  destruct (ref_register_spec snapshot1 firstName1 lastName1 e p1 m)
    as (a1 & Hr1 & Hs1).
  destruct (ref_register_spec snapshot2 firstName2 lastName2 e p2
              (snd (register ref_backend snapshot1 firstName1 lastName1 e p1 m)))
    as (a2 & Hr2 & Hs2).
  set (w := world m) in *.
  set (w1 := world (snd (register ref_backend snapshot1 firstName1 lastName1 e p1 m)))
    in *.
  set (w2 := world (snd (register ref_backend snapshot2 firstName2 lastName2 e p2 _)))
    in *.
  pose proof (ref_registers_wf _ _ _ _ _ _ _ _ Hwf Hs1) as Hwf1.
  pose proof (ref_registers_wf _ _ _ _ _ _ _ _ Hwf1 Hs2) as Hwf2.
  split; [now apply ref_wf_one_row|].
  intros Hnew. rewrite Hr1, Hr2.
  pose proof (ref_wf_unregistered e w Hwf Hnew) as Hnone.
  assert (Hfind : find (credentials e p2) (identities w) = None).
  { destruct (find (credentials e p2) (identities w)) as [i|] eqn:Hf; [|reflexivity].
    apply find_credentials in Hf. destruct Hf as (Hi & He & _).
    apply not_true_false in Hnew. exfalso. apply Hnew. apply registered_In.
    apply in_map_iff. eauto. }
  inversion Hs1 as [Hr Hrow Ha Hw | Hr Hrow | Hr | i Hr | i Hr | i Hr];
    try congruence; subst a1.
  2:{ exfalso. apply has_row_In in Hrow. apply in_map_iff in Hrow.
      destruct Hrow as (r & Hid & Hin).
      destruct (wf_owner _ Hwf r Hin) as (i & Hi & Hidi & _).
      destruct (wf_fresh _ Hwf i Hi) as (n & Hn & Hlt).
      fold w in Hn, Hlt. rewrite Hidi, Hid in Hn. injection Hn as <-. lia. }
  assert (Hrows1 : rows_for e w1
                   = [profile_row (IdNum (next_id w)) firstName1 lastName1 e]).
  { rewrite <- Hw. unfold rows_for in *. simpl. rewrite String.eqb_refl.
    now rewrite Hnone. }
  assert (Hfind1 : find (credentials e p2) (identities w1)
                   = if String.eqb p2 p1
                     then Some (mkIdentity (IdNum (next_id w)) e p1) else None).
  { rewrite <- Hw. simpl. unfold credentials at 1. simpl.
    rewrite String.eqb_refl, (String.eqb_sym p1 p2). simpl.
    destruct (String.eqb p2 p1); [reflexivity | exact Hfind]. }
  split; [reflexivity|]. rewrite ?Hw. split; [now rewrite Hrows1|].
  inversion Hs2 as [Hr' | Hr' | Hr' Hf' Ha' Hw' | i Hr' Hf' Hex' Ha' Hw'
                   | i Hr' Hf' Hsnap' Hnot' | i Hr' Hf' Hsnap' Hnot'];
    try (exfalso; rewrite <- Hw in Hr'; unfold registered in Hr'; simpl in Hr';
         rewrite String.eqb_refl in Hr'; discriminate Hr');
    try (exfalso; eapply Hnot'; exact Hrows1);
    rewrite Hfind1 in Hf'; destruct (String.eqb p2 p1); try discriminate.
  - rewrite Hrows1. auto.
  - change (rows_for e (signed_in i w1)) with (rows_for e w1).
    rewrite Hrows1. auto.
Qed.

(** Jane registers twice with her password, starting from nothing. *)
Lemma register_twice_same_email_witness :
  let r1 := register ref_backend ∅ "Jane" "Doe" "jane@x.com" "Pwd123!"
              (initial ref_empty) in
  let r2 := register ref_backend (userCache (ui (snd r1))) "Jane" "Doe" "jane@x.com"
              "Pwd123!" (snd r1) in
  ref_wf ref_empty
  /\ length (rows_for "jane@x.com" (world (snd r2))) = 1
  /\ fst r2 = Ok (reg_success "User already exists, please login").
Proof.
  intros r1 r2.
  assert (Hwf : ref_wf ref_empty).
  { constructor; simpl; try constructor; intros ? []. }
  split; [exact Hwf|].
  destruct (register_twice_same_email ∅ (userCache (ui (snd r1)))
              "Jane" "Doe" "Pwd123!" "Jane" "Doe" "Pwd123!" "jane@x.com"
              (initial ref_empty) Hwf) as (_ & H).
  destruct (H eq_refl) as (_ & _ & H3 & H4).
  split; [exact H3 | exact H4].
Defined.

(** C2, as stated, fails: Jane registers, then registers again with the
    same email and another password.  The recovery sign-in is rejected
    and the second call returns an error, not a success. *)
Lemma register_twice_second_is_an_error :
  let r1 := register ref_backend ∅ "Jane" "Doe" "jane@x.com" "Pwd123!"
              (initial ref_empty) in
  let r2 := register ref_backend (userCache (ui (snd r1))) "Jane" "Doe" "jane@x.com"
              "Other456!" (snd r1) in
  fst r1 = Ok (reg_success "User registered, please login")
  /\ fst r2 = Ok (reg_error "User already exists, please login")
  /\ ~ (exists msg, fst r2 = Ok (reg_success msg)).
Proof.
  intros r1 r2.
  assert (H1 : fst r1 = Ok (reg_success "User registered, please login"))
    by (vm_compute; reflexivity).
  assert (H2 : fst r2 = Ok (reg_error "User already exists, please login"))
    by (vm_compute; reflexivity).
  split; [exact H1|]. split; [exact H2|].
  intros [msg Hmsg]. rewrite H2 in Hmsg. discriminate Hmsg.
Qed.

(** * Further properties of the component *)

(** ** clearStaleCache *)

(** X1: [clearStaleCache] never throws and touches only the cache: the
    user, [loading] and the services are as before.  With a non-empty
    email it removes the entry of that email and no other; without an
    email, or with the empty string, it empties the whole cache. *)
Theorem clearStaleCache_scope {W} (email : option string) (m : Machine W) :
  let m' := snd (clearStaleCache email m) in
  fst (clearStaleCache email m) = Ok tt
  /\ user (ui m') = user (ui m)
  /\ loading (ui m') = loading (ui m)
  /\ world m' = world m
  /\ (forall e, email = Some e -> e <> "" ->
        userCache (ui m') !! e = None
        /\ forall k, k <> e -> userCache (ui m') !! k = userCache (ui m) !! k)
  /\ (email = None \/ email = Some "" -> userCache (ui m') = ∅).
Proof.
  cbv zeta. unfold clearStaleCache.
  destruct email as [e|]; [destruct (String.eqb e "") eqn:Heq|]; simpl;
    repeat (split; [reflexivity|]).
  - apply String.eqb_eq in Heq. subst e. split; [|reflexivity].
    intros e [= <-] He. contradiction.
  - apply String.eqb_neq in Heq. split.
    + intros e' [= <-] _. split; [apply lookup_delete_eq|].
      intros k Hk. now apply lookup_delete_ne.
    + intros [H | [= H]]; [discriminate | contradiction].
  - split; [discriminate | reflexivity].
Qed.

Lemma clearStaleCache_scope_witness :
  let m : Machine unit :=
    mkMachine (mkAuthState None false
                 {["jane@x.com" := Some jane_row; "bob@x.com" := Some jane_row]})
              tt [] in
  userCache (ui (snd (clearStaleCache (Some "jane@x.com") m))) !! "jane@x.com" = None
  /\ userCache (ui (snd (clearStaleCache (Some "jane@x.com") m))) !! "bob@x.com"
     = Some (Some jane_row)
  /\ userCache (ui (snd (clearStaleCache (Some "") m))) = ∅.
Proof.
  intros m.
  destruct (clearStaleCache_scope (Some "jane@x.com") m) as (_ & _ & _ & _ & H & _).
  destruct (H "jane@x.com" eq_refl) as [H1 H2]; [discriminate|].
  destruct (clearStaleCache_scope (Some "") m) as (_ & _ & _ & _ & _ & H3).
  split; [exact H1|]. split; [rewrite H2 by discriminate; reflexivity|].
  apply H3. right. reflexivity.
Defined.

(** ** handleAuthError *)

Lemma message_includes_string error s phrase :
  error_message error = Str s ->
  message_includes error phrase = Some (includes phrase (toLowerCase s)).
Proof. unfold message_includes. now intros ->. Qed.

(** X3: [handleAuthError] throws exactly when the message of the error
    is a value on which [toLowerCase] is not a function.  For every other
    error (the message missing or a string, the error itself missing) and
    every operation it returns a message, and that is never empty; an
    error with status 400 is then reported as an existing user whatever
    its message says. *)
Theorem handleAuthError_never_empty (error : option AnyError) (operation : string) :
  (handleAuthError error operation = None <-> error_message error = NotAString)
  /\ (forall msg, handleAuthError error operation = Some msg -> msg <> "")
  /\ (error_message error <> NotAString ->
      status_is error 400 = true ->
      handleAuthError error operation = Some "User already exists, please login").
Proof.
  unfold handleAuthError, message_includes.
  destruct (error_message error) as [|s|] eqn:Hmsg; simpl.
  - split; [split; [|discriminate]|].
    + destruct (_ || _); discriminate.
    + split.
      * intros msg. destruct (_ || _); intros [= <-]; discriminate.
      * intros _ ->. now rewrite orb_true_r.
  - split; [split; [|discriminate]|].
    + repeat (match goal with |- context [includes ?p ?t] =>
                destruct (includes p t) end; simpl; try discriminate).
      destruct (_ || _); discriminate.
    + split.
      * intros msg.
        repeat (match goal with |- context [includes ?p ?t] =>
                  destruct (includes p t) end; simpl;
                try (intros [= <-]; discriminate)).
        destruct (_ || _); [intros [= <-]; discriminate|].
        destruct (String.eqb s "") eqn:Hs; intros [= <-]; [discriminate|].
        now apply String.eqb_neq in Hs.
      * intros _ ->. rewrite orb_true_r.
        repeat (match goal with |- context [includes ?p ?t] =>
                  destruct (includes p t) end; simpl; try reflexivity).
  - split; [split; reflexivity|]. split; [discriminate|]. intros H. now exfalso.
Qed.

Lemma handleAuthError_never_empty_witness :
  handleAuthError (Some (as_any invalid_credentials)) "login"
  = Some "User already exists, please login"
  /\ handleAuthError (Some (mkAnyError NotAString None (Some 400%Z))) "login" = None.
Proof.
  destruct (handleAuthError_never_empty (Some (as_any invalid_credentials)) "login")
    as (_ & _ & H).
  destruct (handleAuthError_never_empty
              (Some (mkAnyError NotAString None (Some 400%Z))) "login") as ([_ H'] & _).
  split; [apply H; [discriminate | reflexivity] | apply H'; reflexivity].
Defined.

(** X4: on a sign-up error, whose message is a string, [handleAuthError]
    and the recovery test of [register] look for the same five phrases in
    the message, and differ on the rest: [register] alone accepts the
    code "user_already_exists"; [handleAuthError] alone accepts the codes
    "23505" and "23514" and the status 400.  So an error that [register]
    accepts, other than by that code, is reported as an existing user;
    and an error reported as an existing user, other than by those two
    codes or that status, is one that [register] accepts. *)
Theorem handleAuthError_agrees_with_register (e : AuthError) (operation : string) :
  (already_exists e = true ->
   opt_is (ae_code e) "user_already_exists" = false ->
   handleAuthError (Some (as_any e)) operation
   = Some "User already exists, please login")
  /\ (handleAuthError (Some (as_any e)) operation
      = Some "User already exists, please login" ->
      code_is (Some (as_any e)) "23505" = false ->
      code_is (Some (as_any e)) "23514" = false ->
      status_is (Some (as_any e)) 400 = false ->
      already_exists e = true).
Proof.
  unfold already_exists, handleAuthError, message_includes. simpl. split.
  - intros H Hcode. rewrite Hcode in H. simpl in H.
    repeat (match goal with |- context [includes ?p ?t] =>
              destruct (includes p t) end; simpl; try reflexivity).
    discriminate H.
  - intros H H1 H2 H3. rewrite H1, H2, H3 in H. simpl in H.
    destruct (includes "already registered" (toLowerCase (ae_message e)));
      [now rewrite orb_true_r|].
    destruct (includes "already exists" (toLowerCase (ae_message e)));
      [now rewrite orb_true_r|].
    destruct (includes "already been registered" (toLowerCase (ae_message e)));
      [now rewrite orb_true_r|].
    destruct (includes "user already exists" (toLowerCase (ae_message e))) eqn:Hlast;
      [now rewrite orb_true_r|].
    destruct (includes "email already in use" (toLowerCase (ae_message e)));
      [now rewrite orb_true_r|].
    simpl in H. exfalso.
    destruct (String.eqb (ae_message e) ""); [discriminate H|].
    injection H as H. rewrite H in Hlast. discriminate Hlast.
Qed.

Lemma handleAuthError_agrees_with_register_witness :
  let e := mkAuthError None "Email already in use" (Some 422%Z) in
  already_exists e = true
  /\ handleAuthError (Some (as_any e)) "signup"
     = Some "User already exists, please login".
Proof.
  intros e. split; [reflexivity|].
  apply (handleAuthError_agrees_with_register e "signup"); reflexivity.
Defined.

(** ** retryOperation *)

Lemma attempts_backoff baseDelay k attempt :
  attempts (backoff baseDelay k attempt) = k.
Proof.
  revert attempt. induction k as [|[|k'] IH]; intros attempt; try reflexivity.
  change (S (attempts (backoff baseDelay (S k') (attempt + 1))) = S (S k')).
  now rewrite IH.
Qed.


Lemma attempts_app steps steps' :
  attempts (steps ++ steps') = (attempts steps + attempts steps')%nat.
Proof.
  induction steps as [|[a|d] steps IH]; simpl; auto.
Qed.




Lemma Qfloor_below_one q : (q < 1)%Q -> (Qfloor q <= 0)%Z.
Proof.
  intros Hq. assert (H : (inject_Z (Qfloor q) < inject_Z 1)%Q)
    by (eapply Qle_lt_trans; [apply Qfloor_le | exact Hq]).
  rewrite <- Zlt_Qlt in H. lia.
Qed.





(** X6: with [maxRetries] below 1 (zero and the negative numbers
    included), [retryOperation] never calls the operation and never
    waits: it throws "Max retries exceeded" and leaves everything as it
    was. *)
Theorem retryOperation_without_retries {W A} (operation : M W A)
  (maxRetries : Q) (baseDelay : Z) (m : Machine W) :
  (maxRetries < 1)%Q ->
  retryOperation operation maxRetries baseDelay m
  = (Throw (Error "Max retries exceeded"), m, []).
Proof.
  intros H. apply Qfloor_below_one in H. unfold retryOperation.
  replace (Z.to_nat (Qfloor maxRetries)) with 0%nat by lia. reflexivity.
Qed.

Lemma retryOperation_without_retries_witness :
  (0 < 1)%Q
  /\ retryOperation (@ret unit nat 7) 0 1000 (initial tt)
     = (Throw (Error "Max retries exceeded"), initial tt, []).
Proof.
  assert (H : (0 < 1)%Q) by reflexivity.
  split; [exact H|].
  exact (retryOperation_without_retries (@ret unit nat 7) 0 1000 (initial tt) H).
Defined.




(** ** updateLastLogin *)

Lemma updateLastLogin_run {W} (B : Backend W) (userId : Id) (m : Machine W) :
  exists b ts w2,
    updateLastLogin B userId m
    = (Ok b, mkMachine (ui m) w2 (log m ++ [EvUpdateLastLogin userId ts])).
Proof.
  unfold updateLastLogin. run_monad.
  destruct (date_now B (world m)) as [ts w1]. simpl.
  destruct (db_update_last_login B userId ts w1) as [[lt [[err|]|e]] w2];
    simpl; eauto.
Qed.

(** X8: [updateLastLogin] is best effort: it never throws, touches
    neither user, [loading] nor cache, sends exactly one update, for the
    given id, and returns true exactly when the store answers that update
    without an error. *)
Theorem updateLastLogin_best_effort {W} (B : Backend W) (userId : Id) (m : Machine W) :
  exists b ts w1 o w2,
    date_now B (world m) = (ts, w1)
    /\ db_update_last_login B userId ts w1 = (o, w2)
    /\ updateLastLogin B userId m
       = (Ok b, mkMachine (ui m) w2 (log m ++ [EvUpdateLastLogin userId ts]))
    /\ (b = true <-> settled o = Fulfilled None).
Proof.
  unfold updateLastLogin. run_monad.
  destruct (date_now B (world m)) as [ts w1] eqn:Hnow. simpl.
  destruct (db_update_last_login B userId ts w1) as [[lt [[err|]|e]] w2] eqn:Hup;
    simpl.
  - exists false, ts, w1, (mkOutcome lt (Fulfilled (Some err))), w2.
    split; [reflexivity|]. split; [exact Hup|]. split; [reflexivity|].
    split; intros H; simpl in H; congruence.
  - exists true, ts, w1, (mkOutcome lt (Fulfilled None)), w2.
    split; [reflexivity|]. split; [exact Hup|]. split; [reflexivity|].
    split; reflexivity.
  - exists false, ts, w1, (mkOutcome lt (Rejected e)), w2.
    split; [reflexivity|]. split; [exact Hup|]. split; [reflexivity|].
    split; intros H; simpl in H; congruence.
Qed.

(** ** Relations kept by whole operations *)

Ltac follow_steps Hrefl Htrans Hworld call_step prim :=
  repeat lazymatch goal with
  | |- forall _, _ => intro
  | |- follows _ (ret _) => apply follows_ret; apply Hrefl
  | |- follows _ (throw _) => apply follows_throw; apply Hrefl
  | |- follows _ (call _ _) => call_step
  | |- follows _ (await _) => apply follows_await; apply Hrefl
  | |- follows _ (race _ _) => apply follows_race; apply Hrefl
  | |- follows _ (now _) => apply follows_now; apply Hworld
  | |- follows _ (spawn _) => apply follows_spawn
  | |- follows _ (race_block _ _ _ _) =>
      apply follows_race_block; [apply Htrans | apply Hworld |]
  | |- follows _ (bind _ _) => apply follows_bind; [apply Htrans | |]
  | |- follows _ (try_catch _ _) => apply follows_try_catch; [apply Htrans | |]
  | |- follows _ (try_catch_finally _ _ _) =>
      apply follows_try_catch_finally; [apply Htrans | | |]
  | |- follows _ (match ?x with _ => _ end) => destruct x
  | |- follows _ _ => prim
  end.

Ltac follow_with Hrefl Htrans Hworld Hevent prim :=
  follow_steps Hrefl Htrans Hworld ltac:(apply follows_call; apply Hevent) prim.

Lemma same_session_refl {W} (m : Machine W) : same_session m m.
Proof. split; reflexivity. Qed.

Lemma same_session_trans {W} (m1 m2 m3 : Machine W) :
  same_session m1 m2 -> same_session m2 m3 -> same_session m1 m3.
Proof. intros [U1 L1] [U2 L2]. split; congruence. Qed.

Lemma same_session_world {W} (m : Machine W) w :
  same_session m (mkMachine (ui m) w (log m)).
Proof. split; reflexivity. Qed.

Lemma same_session_event {W} (m : Machine W) w e :
  same_session m (mkMachine (ui m) w (log m ++ [e])).
Proof. split; reflexivity. Qed.

Lemma same_session_setUserCache {W} f : follows (@same_session W) (setUserCache f).
Proof. intros m. split; reflexivity. Qed.

Ltac follow_session :=
  follow_with (@same_session_refl) (@same_session_trans) (@same_session_world)
              (@same_session_event) ltac:(apply same_session_setUserCache).

Lemma register_same_session {W} (B : Backend W) snapshot firstName lastName mail
  password :
  follows same_session (register B snapshot firstName lastName mail password).
Proof.
  unfold register, afterSignUp, registerCatch, recover, createProfile,
    getUserFromCustomTable, createUserInCustomTable.
  follow_session.
Qed.

Lemma sign_ins_app l l' : sign_ins (l ++ l') = sign_ins l ++ sign_ins l'.
Proof.
  induction l as [|ev l IH]; [reflexivity|].
  destruct ev; simpl; rewrite IH; reflexivity.
Qed.

Lemma quiet_refl {W} (m : Machine W) : quiet m m.
Proof. reflexivity. Qed.

Lemma quiet_trans {W} (m1 m2 m3 : Machine W) :
  quiet m1 m2 -> quiet m2 m3 -> quiet m1 m3.
Proof. unfold quiet. congruence. Qed.

Lemma quiet_world {W} (m : Machine W) w : quiet m (mkMachine (ui m) w (log m)).
Proof. reflexivity. Qed.

Lemma quiet_call {W X} (h : W -> Outcome X * W) ev :
  (forall o, sign_ins [ev o] = []) -> follows (@quiet W) (call h ev).
Proof.
  intros Hev m. unfold call, quiet. destruct (h (world m)) as [o w']. simpl.
  rewrite sign_ins_app, Hev. apply app_nil_r.
Qed.

Lemma quiet_setUserCache {W} f : follows (@quiet W) (setUserCache f).
Proof. intros m. unfold quiet. simpl. rewrite sign_ins_app. apply app_nil_r. Qed.

Ltac follow_quiet :=
  follow_steps (@quiet_refl) (@quiet_trans) (@quiet_world)
               ltac:(apply quiet_call; reflexivity)
               ltac:(apply quiet_setUserCache).

Lemma getUserFromCustomTable_quiet {W} (B : Backend W) snapshot email :
  follows quiet (getUserFromCustomTable B snapshot email).
Proof. unfold getUserFromCustomTable. follow_quiet. Qed.

Lemma createUserInCustomTable_quiet {W} (B : Backend W) authUser firstName lastName :
  follows quiet (createUserInCustomTable B authUser firstName lastName).
Proof. unfold createUserInCustomTable. follow_quiet. Qed.

Lemma createProfile_quiet {W} (B : Backend W) authUser firstName lastName :
  follows quiet (createProfile B authUser firstName lastName).
Proof. unfold createProfile, createUserInCustomTable. follow_quiet. Qed.

(** The recovery block sends one sign-in, with the credentials it is
    given. *)
Lemma recover_sign_ins {W} (B : Backend W) snapshot firstName lastName mail password
  (m : Machine W) :
  sign_ins (log (snd (recover B snapshot firstName lastName mail password m)))
  = sign_ins (log m) ++ [(mail, password)].
Proof.
  unfold recover, try_catch, bind, call, await.
  destruct (auth_signInWithPassword B mail password (world m)) as [[lt [signIn|x]] w1];
    simpl; [|now rewrite sign_ins_app].
  destruct (ar_error signIn); simpl; [now rewrite sign_ins_app|].
  destruct (ar_user signIn) as [signInUser|]; simpl; [|now rewrite sign_ins_app].
  match goal with |- context [getUserFromCustomTable B snapshot mail ?m1] =>
    pose proof (getUserFromCustomTable_quiet B snapshot mail m1) as Hget;
    destruct (getUserFromCustomTable B snapshot mail m1) as [[[existing|]|x] m2]
  end; unfold quiet in Hget; simpl in *;
    try (rewrite Hget, sign_ins_app; reflexivity).
  pose proof (createUserInCustomTable_quiet B signInUser firstName lastName m2)
    as Hcreate.
  destruct (createUserInCustomTable B signInUser firstName lastName m2)
    as [[[created|]|x] m3]; unfold quiet in Hcreate; simpl in *;
    rewrite Hcreate, Hget, sign_ins_app; reflexivity.
Qed.

Lemma afterSignUp_sign_ins {W} (B : Backend W) snapshot firstName lastName mail password
  resp (m : Machine W) :
  sign_ins (log (snd (afterSignUp B snapshot firstName lastName mail password resp m)))
  = sign_ins (log m)
    ++ (if opens_recovery (mkOutcome false (Fulfilled resp))
        then [(mail, password)] else []).
Proof.
  unfold afterSignUp, opens_recovery. simpl.
  destruct (ar_error resp) as [signUpError|].
  - destruct (opt_is (ae_code signUpError) "email_address_invalid"); simpl;
      [now rewrite app_nil_r|].
    unfold bind. destruct (already_exists signUpError).
    + pose proof (recover_sign_ins B snapshot firstName lastName mail password m)
        as Hrec.
      destruct (recover B snapshot firstName lastName mail password m)
        as [[[r|]|x] m1]; simpl in *; try exact Hrec.
      destruct (opt_is _ "weak_password"); [|destruct (opt_is _ "invalid_email")];
        exact Hrec.
    + simpl. destruct (opt_is _ "weak_password"); [|destruct (opt_is _ "invalid_email")];
        simpl; now rewrite app_nil_r.
  - rewrite app_nil_r. destruct (ar_user resp) as [authUser|]; [|reflexivity].
    unfold bind.
    pose proof (createProfile_quiet B authUser firstName lastName m) as Hcp.
    destruct (createProfile B authUser firstName lastName m) as [[[r|]|x] m1];
      exact Hcp.
Qed.

(** X9: [register] calls neither [setUser] nor [setLoading]: whatever the
    services answer, and whichever path it takes, user and [loading] are,
    when it returns, what they were when it was called.  What it does do
    is sign in at the auth service: once, with the supplied credentials,
    on its recovery path, and on no other path.  A session that this
    leaves at the service is published by the auth callback or the
    session check, not by [register]. *)
Theorem register_sets_no_user_but_may_sign_in {W} (B : Backend W) (snapshot : Cache)
  (firstName lastName mail password : string) (m : Machine W) :
  let m' := snd (register B snapshot firstName lastName mail password m) in
  let o := fst (auth_signUp B mail password firstName lastName (world m)) in
  user (ui m') = user (ui m)
  /\ loading (ui m') = loading (ui m)
  /\ sign_ins (log m')
     = sign_ins (log m) ++ (if opens_recovery o then [(mail, password)] else []).
Proof.
  cbv zeta.
  assert (H : follows same_session
                (register B snapshot firstName lastName mail password)).
  { unfold register, afterSignUp, registerCatch, recover, createProfile,
      getUserFromCustomTable, createUserInCustomTable.
    follow_session. }
  destruct (H m) as [Huser Hloading]. split; [exact Huser|]. split; [exact Hloading|].
  pose proof (invalidate_and_signUp_run B firstName lastName mail password m) as Hrun.
  cbv zeta in Hrun. rewrite (register_after_signUp _ _ _ _ _ _ _ _ _ Hrun). clear Hrun.
  destruct (auth_signUp B mail password firstName lastName (world m)) as [o w1].
  cbn [fst snd].
  match goal with |- context [try_catch _ _ ?m0] => set (m1 := m0) end.
  assert (H1 : sign_ins (log m1) = sign_ins (log m))
    by (unfold m1; simpl; rewrite sign_ins_app; apply app_nil_r).
  unfold try_catch, bind, race, await.
  destruct o as [[|] [resp|x]]; simpl; rewrite ?registerCatch_machine;
    try (rewrite app_nil_r; exact H1).
  pose proof (afterSignUp_sign_ins B snapshot firstName lastName mail password resp m1)
    as Hafter.
  destruct (afterSignUp B snapshot firstName lastName mail password resp m1)
    as [[r|x] m2]; cbn [snd] in Hafter; rewrite ?registerCatch_machine;
    cbn [snd]; rewrite Hafter, H1; reflexivity.
Qed.

(** Jane registers again: the recovery path signs her in at the service,
    and the user of the component is still absent. *)
Lemma register_sets_no_user_but_may_sign_in_witness :
  let m' := snd (register ref_backend ∅ "Jane" "Doe" "jane@x.com" "Pwd123!"
                   (initial jane_with_profile)) in
  user (ui m') = None
  /\ sign_ins (log m') = [("jane@x.com", "Pwd123!")]
  /\ is_Some (current (world m')).
Proof.
  intros m'.
  destruct (register_sets_no_user_but_may_sign_in ref_backend ∅ "Jane" "Doe"
              "jane@x.com" "Pwd123!" (initial jane_with_profile)) as (H1 & _ & H3).
  split; [exact H1|]. split; [exact H3|]. eexists. vm_compute. reflexivity.
Defined.

(** ** Login *)

Lemma keeps_user_refl {W} (m : Machine W) : keeps_user m m.
Proof. split; auto. Qed.

Lemma keeps_user_trans {W} (m1 m2 m3 : Machine W) :
  keeps_user m1 m2 -> keeps_user m2 m3 -> keeps_user m1 m3.
Proof. intros [L1 U1] [L2 U2]. split; [congruence | auto]. Qed.

Lemma keeps_user_world {W} (m : Machine W) w :
  keeps_user m (mkMachine (ui m) w (log m)).
Proof. split; auto. Qed.

Lemma keeps_user_event {W} (m : Machine W) w e :
  keeps_user m (mkMachine (ui m) w (log m ++ [e])).
Proof. split; auto. Qed.

Lemma keeps_user_setters {W} :
  (forall f, follows (@keeps_user W) (setUserCache f))
  /\ (forall u, follows (@keeps_user W) (setUser (Some u))).
Proof. split; intros x m; split; simpl; eauto. Qed.

Ltac follow_user :=
  follow_with (@keeps_user_refl) (@keeps_user_trans) (@keeps_user_world)
              (@keeps_user_event)
              ltac:(first [apply (proj1 keeps_user_setters)
                          | apply (proj2 keeps_user_setters)]).

(** X10: [login] never changes [loading] and never clears the user:
    whatever the services answer, a user that was present before the call
    is present after it. *)
Theorem login_keeps_loading_and_user {W} (B : Backend W) (snapshot : Cache)
  (mail password : string) (m : Machine W) :
  loading (ui (snd (login B snapshot mail password m))) = loading (ui m)
  /\ (is_Some (user (ui m)) ->
      is_Some (user (ui (snd (login B snapshot mail password m))))).
Proof.
  assert (H : follows keeps_user (login B snapshot mail password)).
  { unfold login, userSetup, updateLastLogin, getUserFromCustomTable, clearStaleCache.
    follow_user. }
  exact (H m).
Qed.

Lemma login_keeps_loading_and_user_witness :
  let B := scripted (with_select (in_time (PgErr no_rows)) all_well) in
  is_Some (user (ui jane_signed_in))
  /\ is_Some (user (ui (snd (login B ∅ "jane@x.com" "Pwd123!" jane_signed_in)))).
Proof.
  intros B.
  assert (H : is_Some (user (ui jane_signed_in))) by (eexists; reflexivity).
  split; [exact H|].
  exact (proj2 (login_keeps_loading_and_user B ∅ "jane@x.com" "Pwd123!"
                  jane_signed_in) H).
Defined.

(** X11: a sign-in that fails (an error value, a late answer or a
    rejection) makes [login] return an error message and nothing else:
    no further call is made and user, [loading] and cache are untouched.
    An error value gives the message of the auth service verbatim, a late
    answer "Authentication is taking too long. Please try again.". *)
Theorem login_failure_leaves_state {W} (B : Backend W) (snapshot : Cache)
  (mail password : string) (m : Machine W) o w1 :
  auth_signInWithPassword B mail password (world m) = (o, w1) ->
  late o = true
  \/ (exists x, settled o = Rejected x)
  \/ (exists resp err, settled o = Fulfilled resp /\ ar_error resp = Some err) ->
  (exists msg, fst (login B snapshot mail password m) = Ok (mkLoginResult (Some msg)))
  /\ snd (login B snapshot mail password m)
     = mkMachine (ui m) w1 (log m ++ [EvSignIn mail password])
  /\ (late o = true ->
      fst (login B snapshot mail password m)
      = Ok (mkLoginResult
              (Some "Authentication is taking too long. Please try again.")))
  /\ (late o = false ->
      forall resp err, settled o = Fulfilled resp -> ar_error resp = Some err ->
      fst (login B snapshot mail password m)
      = Ok (mkLoginResult (Some (ae_message err)))).
Proof.
  intros Hcall Hfail. unfold login, try_catch, bind, call. rewrite Hcall.
  unfold race, await. destruct o as [lt st]. simpl in *.
  destruct lt; simpl.
  - repeat split; eauto. intros; discriminate.
  - destruct st as [resp|x]; simpl.
    + destruct (ar_error resp) as [err|] eqn:Herr; simpl.
      * repeat split; eauto; try (intros; discriminate).
        intros _ resp' err' [= <-] Herr'. rewrite Herr in Herr'. now injection Herr' as <-.
      * exfalso. destruct Hfail as [H|[[x H]|(resp' & err & H & Herr')]];
          try discriminate. injection H as <-. congruence.
    + destruct (opt_is (exn_message x) "Authentication timeout"); simpl;
        repeat split; eauto; intros; discriminate.
Qed.

(** Wrong password: the message of the auth service, and Jane's session
    stays as it was. *)
Lemma login_failure_leaves_state_witness :
  let B := scripted (with_signIn (in_time (mkAuthResponse None (Some invalid_credentials)))
                       all_well) in
  fst (login B ∅ "jane@x.com" "wrong" jane_signed_in)
  = Ok (mkLoginResult (Some "Invalid login credentials"))
  /\ ui (snd (login B ∅ "jane@x.com" "wrong" jane_signed_in)) = ui jane_signed_in.
Proof.
  intros B.
  destruct (login_failure_leaves_state B ∅ "jane@x.com" "wrong" jane_signed_in
              (in_time (mkAuthResponse None (Some invalid_credentials))) tt eq_refl)
    as (_ & Hm & _ & Hmsg).
  - right. right. eexists; eexists. split; reflexivity.
  - split.
    + apply (Hmsg eq_refl (mkAuthResponse None (Some invalid_credentials))
               invalid_credentials); reflexivity.
    + rewrite Hm. reflexivity.
Defined.

Lemma race_block_never_fires {W A} (B : Backend W) t (c : M W A) msg (m : Machine W) :
  never_fires B t -> race_block B t c msg m = c m.
Proof.
  intros Hnever. unfold race_block. destruct (c m) as [r [u w l]]. simpl.
  now rewrite (Hnever w).
Qed.

(** The two branches of the set-up block, the cached one and the fetched
    one, do the same with a profile that resolves. *)
Lemma userSetup_resolved {W} (B : Backend W) snapshot (m : Machine W) o w1 resp su
  profile m2 :
  auth_getSession B (world m) = (o, w1) ->
  settled o = Fulfilled resp ->
  sr_user resp = Some su ->
  getUserFromCustomTable B snapshot (cache_key su)
    (mkMachine (ui m) w1 (log m ++ [EvGetSession])) = (Ok (Some profile), m2) ->
  userSetup B snapshot m
  = (do_ setUser (Some profile); spawn (updateLastLogin B (user_id profile))) m2.
Proof.
  intros Hcall Hs Hsu Hget. unfold userSetup.
  erewrite bind_ok by (apply call_run; eassumption). cbv beta.
  erewrite bind_ok by (apply await_fulfilled; eassumption).
  rewrite Hsu. fold (cache_key su).
  destruct (getUserFromCustomTable_queries B snapshot (cache_key su)
              (mkMachine (ui m) w1 (log m ++ [EvGetSession]))) as (_ & Hhit & _).
  simpl in Hhit.
  destruct (cache_get snapshot (cache_key su)) as [cached|] eqn:Hsnap.
  - rewrite (Hhit cached eq_refl) in Hget. injection Hget as <- <-. reflexivity.
  - erewrite bind_ok by exact Hget. reflexivity.
Qed.

(** X12: a login whose sign-in succeeds, whose session carries a user and
    whose profile resolves, from the cache or from the store, returns no
    error, publishes that profile as the user and sends a [last_login]
    update for its [user_id]. *)
Theorem login_publishes_profile {W} (B : Backend W) (snapshot : Cache)
  (mail password : string) (m : Machine W) o w1 result o2 w2 resp su profile m2 :
  never_fires B UserSetupTimer ->
  auth_signInWithPassword B mail password (world m) = (o, w1) ->
  late o = false ->
  settled o = Fulfilled result ->
  ar_error result = None ->
  auth_getSession B w1 = (o2, w2) ->
  settled o2 = Fulfilled resp ->
  sr_user resp = Some su ->
  getUserFromCustomTable B snapshot (cache_key su)
    (mkMachine (ui m) w2 ((log m ++ [EvSignIn mail password]) ++ [EvGetSession]))
  = (Ok (Some profile), m2) ->
  fst (login B snapshot mail password m) = Ok (mkLoginResult None)
  /\ user (ui (snd (login B snapshot mail password m))) = Some profile
  /\ last_login_updates (user_id profile) (log (snd (login B snapshot mail password m)))
     = S (last_login_updates (user_id profile) (log m2)).
Proof.
  intros Hnever Hcall Hlate Hs Herr Hcall2 Hs2 Hsu Hget.
  set (m1 := mkMachine (ui m) w1 (log m ++ [EvSignIn mail password])).
  pose proof (userSetup_resolved B snapshot m1 o2 w2 resp su profile m2
                Hcall2 Hs2 Hsu Hget) as Hsetup.
  destruct (updateLastLogin_run B (user_id profile)
              (mkMachine (mkAuthState (Some profile) (loading (ui m2)) (userCache (ui m2)))
                         (world m2) (log m2 ++ [EvSetUser (Some profile)])))
    as (b & ts & w4 & Hup).
  assert (Hlogin :
    login B snapshot mail password m
    = (Ok (mkLoginResult None),
       mkMachine (mkAuthState (Some profile) (loading (ui m2)) (userCache (ui m2)))
                 w4
                 ((log m2 ++ [EvSetUser (Some profile)])
                    ++ [EvUpdateLastLogin (user_id profile) ts]))).
  { unfold login. apply try_catch_ok.
    erewrite bind_ok by (apply call_run; eassumption). cbv beta.
    erewrite bind_ok by (apply race_in_time; eassumption).
    rewrite Herr.
    erewrite bind_ok
      by (destruct (ar_user result) as [au|]; [destruct (email_confirmed_at au)|];
          reflexivity).
    erewrite bind_ok; [reflexivity|].
    apply try_catch_ok. rewrite race_block_never_fires by exact Hnever.
    fold m1. rewrite Hsetup. unfold bind, setUser, spawn. simpl.
    simpl in Hup. rewrite Hup. reflexivity. }
  rewrite Hlogin. simpl. split; [reflexivity|]. split; [reflexivity|].
  clear. induction (log m2) as [|ev l IH]; simpl.
  - rewrite bool_decide_eq_true_2 by reflexivity. reflexivity.
  - destruct ev; simpl; rewrite IH; lia.
Qed.

Lemma never_fires_scripted_all_well t : never_fires (scripted all_well) t.
Proof. intros []. reflexivity. Qed.

(** Jane logs in on services that answer well. *)
Lemma login_publishes_profile_witness :
  never_fires (scripted all_well) UserSetupTimer
  /\ fst (login (scripted all_well) ∅ "jane@x.com" "Pwd123!" (initial tt))
     = Ok (mkLoginResult None)
  /\ user (ui (snd (login (scripted all_well) ∅ "jane@x.com" "Pwd123!" (initial tt))))
     = Some jane_row.
Proof.
  split; [apply never_fires_scripted_all_well|].
  edestruct (login_publishes_profile (scripted all_well) ∅ "jane@x.com" "Pwd123!"
               (initial tt)) as (H1 & H2 & _);
    [ apply never_fires_scripted_all_well
    | compute_lhs | compute_lhs | compute_lhs | compute_lhs
    | compute_lhs | compute_lhs | compute_lhs | compute_lhs | ].
  split; [exact H1 | exact H2].
Defined.

Lemma last_login_updates_app id l l' :
  last_login_updates id (l ++ l')
  = last_login_updates id l + last_login_updates id l'.
Proof.
  induction l as [|ev l IH]; [reflexivity|].
  destruct ev; simpl; rewrite IH; lia.
Qed.

(** X13: a login whose sign-in succeeds but whose profile does not
    resolve still returns no error: the user is left as it was (so a user
    who was absent stays absent), no [last_login] update is sent, and the
    cache holds nothing for the email of the session. *)
Theorem login_without_profile {W} (B : Backend W) (snapshot : Cache)
  (mail password : string) (m : Machine W) o w1 result o2 w2 resp su m2 :
  never_fires B UserSetupTimer ->
  auth_signInWithPassword B mail password (world m) = (o, w1) ->
  late o = false ->
  settled o = Fulfilled result ->
  ar_error result = None ->
  auth_getSession B w1 = (o2, w2) ->
  settled o2 = Fulfilled resp ->
  sr_user resp = Some su ->
  getUserFromCustomTable B snapshot (cache_key su)
    (mkMachine (ui m) w2 ((log m ++ [EvSignIn mail password]) ++ [EvGetSession]))
  = (Ok None, m2) ->
  fst (login B snapshot mail password m) = Ok (mkLoginResult None)
  /\ user (ui (snd (login B snapshot mail password m))) = user (ui m)
  /\ userCache (ui (snd (login B snapshot mail password m))) !! cache_key su = None
  /\ (forall id,
        last_login_updates id (log (snd (login B snapshot mail password m)))
        = last_login_updates id (log m)).
Proof.
  intros Hnever Hcall Hlate Hs Herr Hcall2 Hs2 Hsu Hget.
  set (m1 := mkMachine (ui m) w1 (log m ++ [EvSignIn mail password])).
  pose proof (getUserFromCustomTable_user B snapshot (cache_key su)
                (mkMachine (ui m) w2 ((log m ++ [EvSignIn mail password])
                                        ++ [EvGetSession]))) as [Huser _].
  destruct (getUserFromCustomTable_queries B snapshot (cache_key su)
              (mkMachine (ui m) w2 ((log m ++ [EvSignIn mail password])
                                      ++ [EvGetSession]))) as (_ & Hhit & _).
  assert (Hlog : forall id, last_login_updates id (log m2) = last_login_updates id (log m)).
  { intros id. revert Hget. rewrite getUserFromCustomTable_run.
    destruct (cache_get snapshot (cache_key su)); [discriminate|].
    simpl.
    destruct (db_select_by_email B (cache_key su) w2) as [[lt [[data [err|]]|x]] w3];
      destruct lt; simpl; intros H; apply (f_equal snd) in H; simpl in H;
      subst m2; simpl; rewrite !last_login_updates_app; simpl; lia. }
  simpl in Hhit, Huser. rewrite Hget in Huser. simpl in Huser.
  assert (Hsetup : userSetup B snapshot m1 = clearStaleCache (au_email su) m2).
  { unfold userSetup.
    erewrite bind_ok by (apply call_run; eassumption). cbv beta.
    erewrite bind_ok by (apply await_fulfilled; eassumption).
    rewrite Hsu. fold (cache_key su).
    destruct (cache_get snapshot (cache_key su)) as [cached|] eqn:Hsnap.
    - rewrite (Hhit cached eq_refl) in Hget. discriminate.
    - erewrite bind_ok by exact Hget. reflexivity. }
  assert (Hlogin :
    login B snapshot mail password m
    = (Ok (mkLoginResult None), snd (clearStaleCache (au_email su) m2))).
  { unfold login. apply try_catch_ok.
    erewrite bind_ok by (apply call_run; eassumption). cbv beta.
    erewrite bind_ok by (apply race_in_time; eassumption).
    rewrite Herr.
    erewrite bind_ok
      by (destruct (ar_user result) as [au|]; [destruct (email_confirmed_at au)|];
          reflexivity).
    erewrite bind_ok; [reflexivity|].
    apply try_catch_ok. rewrite race_block_never_fires by exact Hnever.
    fold m1. rewrite Hsetup.
    unfold clearStaleCache. destruct (au_email su) as [e|];
      [destruct (String.eqb e "")|]; reflexivity. }
  rewrite Hlogin. simpl. split; [reflexivity|].
  unfold clearStaleCache, cache_key.
  destruct (au_email su) as [e|]; [destruct (String.eqb e "") eqn:He|]; simpl;
    (split; [exact Huser|]);
    (split; [|intros id; rewrite last_login_updates_app, Hlog; simpl; lia]);
    try apply lookup_empty.
  apply lookup_delete_eq.
Qed.

(** Jane signs in, but her profile row is not in the table. *)
Lemma login_without_profile_witness :
  let B := scripted (with_select (in_time (PgErr no_rows)) all_well) in
  never_fires B UserSetupTimer
  /\ fst (login B ∅ "jane@x.com" "Pwd123!" (initial tt)) = Ok (mkLoginResult None)
  /\ user (ui (snd (login B ∅ "jane@x.com" "Pwd123!" (initial tt)))) = None.
Proof.
  intros B.
  assert (Hnever : never_fires B UserSetupTimer) by (intros []; reflexivity).
  split; [exact Hnever|].
  edestruct (login_without_profile B ∅ "jane@x.com" "Pwd123!" (initial tt))
    as (H1 & H2 & _);
    [ exact Hnever
    | compute_lhs | compute_lhs | compute_lhs | compute_lhs
    | compute_lhs | compute_lhs | compute_lhs | compute_lhs | ].
  split; [exact H1 | exact H2].
Defined.

(** ** The session check and the auth events *)

(** X14: at start, a session whose profile resolves, from the cache or
    from the store, is published: the user is that profile and [loading]
    is false. *)
Theorem checkUser_publishes_profile {W} (B : Backend W) (snapshot : Cache)
  (m : Machine W) o w1 resp su profile m2 :
  auth_getSession B (world m) = (o, w1) ->
  late o = false ->
  settled o = Fulfilled resp ->
  sr_user resp = Some su ->
  getUserFromCustomTable B snapshot (cache_key su)
    (mkMachine (ui m) w1 (log m ++ [EvGetSession])) = (Ok (Some profile), m2) ->
  fst (checkUser B snapshot m) = Ok tt
  /\ user (ui (snd (checkUser B snapshot m))) = Some profile
  /\ loading (ui (snd (checkUser B snapshot m))) = false
  /\ userCache (ui (snd (checkUser B snapshot m))) = userCache (ui m2).
Proof.
  intros Hcall Hlate Hs Hsu Hget.
  unfold checkUser, try_catch_finally.
  erewrite try_catch_ok.
  2:{ erewrite bind_ok by (apply call_run; eassumption). cbv beta.
      erewrite bind_ok by (apply race_in_time; eassumption).
      rewrite Hsu. fold (cache_key su).
      erewrite bind_ok by exact Hget. reflexivity. }
  simpl. auto.
Qed.

Lemma checkUser_publishes_profile_witness :
  fst (checkUser (scripted all_well) ∅ (initial tt)) = Ok tt
  /\ user (ui (snd (checkUser (scripted all_well) ∅ (initial tt)))) = Some jane_row
  /\ loading (ui (snd (checkUser (scripted all_well) ∅ (initial tt)))) = false.
Proof.
  edestruct (checkUser_publishes_profile (scripted all_well) ∅ (initial tt))
    as (H1 & H2 & H3 & _);
    [ compute_lhs | compute_lhs | compute_lhs | compute_lhs | compute_lhs | ].
  split; [exact H1|]. split; [exact H2 | exact H3].
Defined.

(** X15: the [onAuthStateChange] callback never throws and always leaves
    [loading] false.  An event without a session user (sign-out, expiry)
    clears the user, makes no call to the services and leaves the cache
    as it is. *)
Theorem onAuthStateChange_always_loaded {W} (B : Backend W) (snapshot : Cache)
  (session : option Session) (m : Machine W) :
  fst (onAuthStateChange B snapshot session m) = Ok tt
  /\ loading (ui (snd (onAuthStateChange B snapshot session m))) = false
  /\ (event_user session = None ->
      user (ui (snd (onAuthStateChange B snapshot session m))) = None
      /\ userCache (ui (snd (onAuthStateChange B snapshot session m)))
         = userCache (ui m)
      /\ world (snd (onAuthStateChange B snapshot session m)) = world m
      /\ log (snd (onAuthStateChange B snapshot session m))
         = log m ++ [EvSetUser None; EvSetLoading false]).
Proof.
  unfold onAuthStateChange. fold (event_user session).
  destruct (event_user session) as [su|].
  - destruct (cache_get snapshot (or_empty (au_email su))) as [cached|].
    + unfold bind, setUser, spawn, setLoading. simpl.
      repeat split; auto; discriminate.
    + match goal with |- context [try_catch ?c ?h] =>
        destruct (try_catch_swallow c tt
                    (m)) as (u & m' & Hs)
      end.
      erewrite bind_ok by exact Hs. destruct u. simpl.
      repeat split; auto; discriminate.
  - simpl. rewrite <- app_assoc. repeat split; auto.
Qed.

Lemma onAuthStateChange_always_loaded_witness :
  event_user None = None
  /\ user (ui (snd (onAuthStateChange (scripted all_well) ∅ None jane_signed_in)))
     = None
  /\ userCache (ui (snd (onAuthStateChange (scripted all_well) ∅ None jane_signed_in)))
       !! "jane@x.com" = Some (Some jane_row).
Proof.
  destruct (onAuthStateChange_always_loaded (scripted all_well) ∅ None jane_signed_in)
    as (_ & _ & H).
  destruct (H eq_refl) as (H1 & H2 & _).
  split; [reflexivity|]. split; [exact H1|]. rewrite H2. reflexivity.
Defined.

Lemma same_cache_but_refl {W} key (m : Machine W) : same_cache_but key m m.
Proof. intros k _. reflexivity. Qed.

Lemma same_cache_but_trans {W} key (m1 m2 m3 : Machine W) :
  same_cache_but key m1 m2 -> same_cache_but key m2 m3 -> same_cache_but key m1 m3.
Proof. intros H1 H2 k Hk. rewrite H2, H1; auto. Qed.

Lemma same_cache_but_world {W} key (m : Machine W) w :
  same_cache_but key m (mkMachine (ui m) w (log m)).
Proof. intros k _. reflexivity. Qed.

Lemma same_cache_but_event {W} key (m : Machine W) w e :
  same_cache_but key m (mkMachine (ui m) w (log m ++ [e])).
Proof. intros k _. reflexivity. Qed.

Lemma same_cache_but_setters {W} key :
  (forall v, follows (@same_cache_but W key) (setUserCache (fun prev => <[key := v]> prev)))
  /\ (forall u, follows (@same_cache_but W key) (setUser u))
  /\ (forall b, follows (@same_cache_but W key) (setLoading b)).
Proof.
  split; [|split]; intros x m k Hk; simpl; auto.
  now apply lookup_insert_ne.
Qed.

Ltac follow_cache W key :=
  follow_with (@same_cache_but_refl W key) (@same_cache_but_trans W key)
              (@same_cache_but_world W key) (@same_cache_but_event W key)
              ltac:(first [apply (proj1 (@same_cache_but_setters W key))
                          | apply (proj1 (proj2 (@same_cache_but_setters W key)))
                          | apply (proj2 (proj2 (@same_cache_but_setters W key)))]).

(** X16: an auth event writes the cache at most under the email of its
    session user: every entry under another email is as before, whatever
    the services answer. *)
Theorem onAuthStateChange_keeps_other_entries {W} (B : Backend W) (snapshot : Cache)
  (session : option Session) (su : AuthUser) (m : Machine W) :
  event_user session = Some su ->
  forall k, k <> cache_key su ->
    userCache (ui (snd (onAuthStateChange B snapshot session m))) !! k
    = userCache (ui m) !! k.
Proof.
  intros Hsu.
  assert (H : follows (same_cache_but (cache_key su))
                (onAuthStateChange B snapshot session)).
  { unfold onAuthStateChange. fold (event_user session). rewrite Hsu.
    unfold updateLastLogin, getUserFromCustomTable. fold (cache_key su).
    follow_cache W (cache_key su). }
  exact (H m).
Qed.

Lemma onAuthStateChange_keeps_other_entries_witness :
  let session := Some (mkSession (Some jane_auth)) in
  let m : Machine unit :=
    mkMachine (mkAuthState None true {["bob@x.com" := Some jane_row]}) tt [] in
  event_user session = Some jane_auth
  /\ "bob@x.com" <> cache_key jane_auth
  /\ userCache (ui (snd (onAuthStateChange (scripted all_well) ∅ session m)))
       !! "bob@x.com" = Some (Some jane_row).
Proof.
  intros session m.
  assert (Hne : "bob@x.com" <> cache_key jane_auth) by discriminate.
  split; [reflexivity|]. split; [exact Hne|].
  rewrite (onAuthStateChange_keeps_other_entries (scripted all_well) ∅ session
             jane_auth m eq_refl "bob@x.com" Hne).
  reflexivity.
Defined.

(** X17: an auth event whose session user is cached publishes the cached
    profile without asking the store for it, and sends one [last_login]
    update for it. *)
Theorem onAuthStateChange_cached_fast_path {W} (B : Backend W) (snapshot : Cache)
  (session : option Session) (su : AuthUser) (cached : User) (m : Machine W) :
  event_user session = Some su ->
  cache_get snapshot (cache_key su) = Some cached ->
  user (ui (snd (onAuthStateChange B snapshot session m))) = Some cached
  /\ userCache (ui (snd (onAuthStateChange B snapshot session m))) = userCache (ui m)
  /\ store_queries (log (snd (onAuthStateChange B snapshot session m)))
     = store_queries (log m)
  /\ last_login_updates (user_id cached)
       (log (snd (onAuthStateChange B snapshot session m)))
     = S (last_login_updates (user_id cached) (log m)).
Proof.
  intros Hsu Hhit. unfold onAuthStateChange. fold (event_user session).
  rewrite Hsu. fold (cache_key su). rewrite Hhit.
  destruct (updateLastLogin_run B (user_id cached)
              (mkMachine (mkAuthState (Some cached) (loading (ui m)) (userCache (ui m)))
                         (world m) (log m ++ [EvSetUser (Some cached)])))
    as (b & ts & w4 & Hup).
  unfold bind, setUser, spawn, setLoading. simpl. simpl in Hup. rewrite Hup. simpl.
  rewrite !store_queries_app, !last_login_updates_app. simpl.
  rewrite bool_decide_eq_true_2 by reflexivity.
  repeat split; auto; lia.
Qed.

Lemma onAuthStateChange_cached_fast_path_witness :
  let session := Some (mkSession (Some jane_auth)) in
  let snapshot : Cache := {["jane@x.com" := Some jane_row]} in
  event_user session = Some jane_auth
  /\ cache_get snapshot (cache_key jane_auth) = Some jane_row
  /\ user (ui (snd (onAuthStateChange (scripted all_well) snapshot session (initial tt))))
     = Some jane_row.
Proof.
  intros session snapshot.
  assert (H1 : event_user session = Some jane_auth) by reflexivity.
  assert (H2 : cache_get snapshot (cache_key jane_auth) = Some jane_row) by reflexivity.
  split; [exact H1|]. split; [exact H2|].
  exact (proj1 (onAuthStateChange_cached_fast_path (scripted all_well) snapshot session
                  jane_auth jane_row (initial tt) H1 H2)).
Defined.

(** ** Profile creation *)

(** X18: [createUserInCustomTable] first probes the table.  When the
    probe reports an error it returns no row and sends no insert; when
    the probe is clean, and also when it throws, the insert is sent, with
    the id of the auth user. *)
Theorem createUserInCustomTable_table_check {W} (B : Backend W) (authUser : AuthUser)
  (firstName lastName : string) (m : Machine W) o w1 :
  db_table_check B (world m) = (o, w1) ->
  (forall tableError, settled o = Fulfilled (Some tableError) ->
     createUserInCustomTable B authUser firstName lastName m
     = (Ok None, mkMachine (ui m) w1 (log m ++ [EvTableCheck])))
  /\ ((forall tableError, settled o <> Fulfilled (Some tableError)) ->
      exists userData res rest,
        log (snd (createUserInCustomTable B authUser firstName lastName m))
        = log m ++ EvTableCheck :: EvInsert userData res :: rest
        /\ user_id userData = au_id authUser).
Proof.
  intros Hcall. unfold createUserInCustomTable. run_monad. rewrite Hcall.
  destruct o as [lt [[tableError|]|x]]; simpl; split;
    try (intros tableError' [= <-]; reflexivity);
    try discriminate;
    try (intros Hno; exfalso; eapply Hno; reflexivity);
    intros _; repeat step_handler;
    eexists; eexists; eexists; rewrite <- ?app_assoc; simpl;
    (split; [reflexivity | reflexivity]).
Qed.

(** The probe throws, the insert goes out all the same. *)
Lemma createUserInCustomTable_table_check_witness :
  let B := scripted (mkScript (on_signUp all_well) (on_signIn all_well)
                       (on_signOut all_well) (on_getSession all_well)
                       (rejects "Failed to fetch") (on_insert all_well)
                       (on_select all_well) (on_update all_well) (on_delete all_well)
                       (on_timer all_well)) in
  fst (createUserInCustomTable B jane_auth "Jane" "Doe" (initial tt)) = Ok (Some jane_row)
  /\ exists userData res rest,
       log (snd (createUserInCustomTable B jane_auth "Jane" "Doe" (initial tt)))
       = EvTableCheck :: EvInsert userData res :: rest.
Proof.
  intros B. split; [reflexivity|].
  destruct (createUserInCustomTable_table_check B jane_auth "Jane" "Doe" (initial tt)
              (rejects "Failed to fetch") tt eq_refl) as (_ & H).
  destruct H as (userData & res & rest & Hlog & _); [discriminate|].
  exists userData, res, rest. exact Hlog.
Defined.

(** ** Register: errors and success *)

(** X19: a sign-up error that does not say that the identity exists ends
    the registration at once: [register] makes no further call and
    returns an error; unless the code is one of "email_address_invalid",
    "weak_password" and "invalid_email", the message is that of the auth
    service, verbatim. *)
Theorem register_passes_errors_through {W} (B : Backend W) (snapshot : Cache)
  (firstName lastName mail password : string) (m : Machine W) o m1 resp signUpError :
  invalidate_and_signUp B firstName lastName mail password m = (Ok o, m1) ->
  late o = false ->
  settled o = Fulfilled resp ->
  ar_error resp = Some signUpError ->
  already_exists signUpError = false ->
  (exists msg,
     register B snapshot firstName lastName mail password m = (Ok (reg_error msg), m1))
  /\ (opt_is (ae_code signUpError) "email_address_invalid" = false ->
      opt_is (ae_code signUpError) "weak_password" = false ->
      opt_is (ae_code signUpError) "invalid_email" = false ->
      register B snapshot firstName lastName mail password m
      = (Ok (reg_error (ae_message signUpError)), m1)).
Proof.
  intros Hrun Hlate Hs Herr Hexists.
  rewrite (register_after_signUp _ _ _ _ _ _ _ _ _ Hrun).
  unfold try_catch.
  erewrite bind_ok by (apply race_in_time; eassumption).
  unfold afterSignUp. rewrite Herr, Hexists. unfold bind, ret.
  destruct (opt_is (ae_code signUpError) "email_address_invalid");
    [split; [eauto | discriminate]|].
  destruct (opt_is (ae_code signUpError) "weak_password");
    [split; [eauto | discriminate]|].
  destruct (opt_is (ae_code signUpError) "invalid_email");
    [split; [eauto | discriminate]|].
  split; eauto.
Qed.

Lemma register_passes_errors_through_witness :
  let rate_limited := mkAuthError (Some "over_request_rate_limit")
                        "Request rate limit reached" (Some 429%Z) in
  let B := scripted (with_signUp (in_time (mkAuthResponse None (Some rate_limited)))
                       all_well) in
  already_exists rate_limited = false
  /\ fst (register B ∅ "Jane" "Doe" "jane@x.com" "Pwd123!" (initial tt))
     = Ok (reg_error "Request rate limit reached").
Proof.
  intros rate_limited B. split; [reflexivity|].
  edestruct (register_passes_errors_through B ∅ "Jane" "Doe" "jane@x.com" "Pwd123!"
               (initial tt)) as (_ & H);
    [ compute_lhs | compute_lhs | compute_lhs | compute_lhs | compute_lhs | ].
  rewrite H; reflexivity.
Defined.

Lemma createProfile_next {W} (B : Backend W) authUser firstName lastName
  (m m' : Machine W) :
  createProfile B authUser firstName lastName m = (Ok Next, m') ->
  exists row, profile_row_created (log m') authUser firstName lastName row.
Proof.
  unfold createProfile, try_catch, bind, race_block.
  pose proof (createUserInCustomTable_result B authUser firstName lastName m) as Hres.
  simpl in Hres. destruct Hres as (rest & Hlog & _ & Hres & _).
  destruct (createUserInCustomTable B authUser firstName lastName m)
    as [[[row|]|e] m1]; simpl in Hres, Hlog.
  - destruct Hres as [[Hnone _]
                     |(userData & res & resp & Hin & Hid & Hemail & Hf & Hl
                       & [Hlate Hs] & Herr & Hret & _)]; [discriminate|].
    injection Hret as Hdata.
    destruct (timer_first B UserCreationTimer (world m1)) as [[|] w2]; simpl.
    + discriminate.
    + destruct (bool_decide (user_id row <> au_id authUser)) eqn:Hne.
      * unfold try_catch, bind, call, await. simpl.
        destruct (db_delete_by_user_id B (user_id row) w2) as [[lt [err|x]] w3];
          discriminate.
      * intros [= <-]. exists row, userData, res. simpl.
        apply bool_decide_eq_false_1 in Hne.
        destruct (decide (user_id row = au_id authUser)) as [Heq|Hneq];
          [|contradiction].
        destruct resp as [data err]. simpl in Herr, Hdata. subst data err.
        rewrite Hlog. repeat split; auto. apply in_or_app. now right.
  - destruct (timer_first B UserCreationTimer (world m1)) as [[|] w2]; simpl;
      discriminate.
  - destruct Hres as [[Hnone _]|(? & ? & ? & _ & _ & _ & _ & _ & _ & _ & Hret & _)];
      discriminate.
Qed.

Lemma recover_never_registers {W} (B : Backend W) snapshot firstName lastName mail
  password (m : Machine W) :
  fst (recover B snapshot firstName lastName mail password m)
  <> Ok (Returned (reg_success "User registered, please login")).
Proof.
  unfold recover, try_catch, bind, call, await.
  destruct (auth_signInWithPassword B mail password (world m)) as [[lt [signIn|x]] w1];
    simpl; [|discriminate].
  destruct (ar_error signIn); [discriminate|].
  destruct (ar_user signIn) as [signInUser|]; [|discriminate].
  destruct (getUserFromCustomTable B snapshot mail _) as [[[existing|]|x] m1];
    simpl; try discriminate.
  destruct (createUserInCustomTable B signInUser firstName lastName m1)
    as [[[created|]|x] m2]; simpl; discriminate.
Qed.

(** X20: [register] answers "User registered, please login" only when
    the profile row exists as it should: the sign-up was followed by an
    insert, under the supplied names and the id that the auth service
    issued, and the store answered it in time with a row carrying that
    id. *)
Theorem register_success_means_profile_row {W} (B : Backend W) (snapshot : Cache)
  (firstName lastName mail password : string) (m : Machine W) :
  fst (register B snapshot firstName lastName mail password m)
  = Ok (reg_success "User registered, please login") ->
  exists o resp authUser row,
    fst (auth_signUp B mail password firstName lastName (world m)) = o
    /\ settled o = Fulfilled resp
    /\ ar_user resp = Some authUser
    /\ profile_row_created
         (log (snd (register B snapshot firstName lastName mail password m)))
         authUser firstName lastName row.
Proof.
  pose proof (invalidate_and_signUp_run B firstName lastName mail password m) as Hrun.
  simpl in Hrun. rewrite (register_after_signUp _ _ _ _ _ _ _ _ _ Hrun). clear Hrun.
  set (o := fst (auth_signUp B mail password firstName lastName (world m))).
  match goal with |- context [try_catch _ _ ?m0] => set (m1 := m0) end.
  unfold try_catch, bind, race, await.
  destruct (late o).
  { simpl. unfold registerCatch. simpl. discriminate. }
  destruct (settled o) as [resp|x] eqn:Hs; simpl.
  2:{ unfold registerCatch.
      destruct (opt_is (exn_message x) "Signup timeout");
        [|destruct (opt_is (exn_message x) "User creation timeout")]; discriminate. }
  unfold afterSignUp.
  destruct (ar_error resp) as [signUpError|].
  - destruct (opt_is (ae_code signUpError) "email_address_invalid"); [discriminate|].
    unfold bind.
    destruct (already_exists signUpError).
    + pose proof (recover_never_registers B snapshot firstName lastName mail password m1)
        as Hrec.
      destruct (recover B snapshot firstName lastName mail password m1)
        as [[[r|]|x] m2]; simpl in *.
      * intros [= ->]. congruence.
      * destruct (opt_is _ "weak_password"); [|destruct (opt_is _ "invalid_email")];
          discriminate.
      * unfold registerCatch.
        destruct (opt_is (exn_message x) "Signup timeout");
          [|destruct (opt_is (exn_message x) "User creation timeout")]; discriminate.
    + simpl. destruct (opt_is _ "weak_password"); [|destruct (opt_is _ "invalid_email")];
        discriminate.
  - destruct (ar_user resp) as [authUser|] eqn:Huser; [|discriminate].
    unfold bind.
    destruct (createProfile B authUser firstName lastName m1) as [[[r|]|x] m2] eqn:Hcp;
      simpl.
    + intros [= ->]. exfalso. revert Hcp.
      unfold createProfile, try_catch, bind, race_block.
      destruct (createUserInCustomTable B authUser firstName lastName m1)
        as [[[row|]|y] m3];
        destruct (timer_first B UserCreationTimer (world m3)) as [[|] w4]; simpl;
        try (destruct (opt_is _ _); discriminate); try discriminate.
      destruct (bool_decide (user_id row <> au_id authUser)); [|discriminate].
      unfold try_catch, bind, call, await. simpl.
      destruct (db_delete_by_user_id B (user_id row) w4) as [[lt [err|z]] w5];
        discriminate.
    + intros _. destruct (createProfile_next B authUser firstName lastName m1 m2 Hcp)
        as (row & Hrow).
      exists o, resp, authUser, row. auto.
    + unfold registerCatch.
      destruct (opt_is (exn_message x) "Signup timeout");
        [|destruct (opt_is (exn_message x) "User creation timeout")]; discriminate.
Qed.

(** Jane registers on services that answer well. *)
Lemma register_success_means_profile_row_witness :
  fst (register (scripted all_well) ∅ "Jane" "Doe" "jane@x.com" "Pwd123!" (initial tt))
  = Ok (reg_success "User registered, please login")
  /\ exists row,
       profile_row_created
         (log (snd (register (scripted all_well) ∅ "Jane" "Doe" "jane@x.com" "Pwd123!"
                      (initial tt))))
         jane_auth "Jane" "Doe" row.
Proof.
  assert (H : fst (register (scripted all_well) ∅ "Jane" "Doe" "jane@x.com" "Pwd123!"
                     (initial tt))
              = Ok (reg_success "User registered, please login"))
    by (vm_compute; reflexivity).
  split; [exact H|].
  destruct (register_success_means_profile_row (scripted all_well) ∅ "Jane" "Doe"
              "jane@x.com" "Pwd123!" (initial tt) H)
    as (o & resp & authUser & row & Ho & Hs & Hu & Hrow).
  exists row. subst o. injection Hs as <-. injection Hu as <-. exact Hrow.
Defined.

(** ** The login form *)

Lemma login_returns {W} (B : Backend W) snapshot mail password (m : Machine W) :
  exists r, fst (login B snapshot mail password m) = Ok r.
Proof.
  unfold login. apply never_throws_try_catch. intros e.
  apply never_throws_if; apply never_throws_ret.
Qed.

Lemma register_returns {W} (B : Backend W) snapshot firstName lastName mail password
  (m : Machine W) :
  exists r, fst (register B snapshot firstName lastName mail password m) = Ok r.
Proof.
  unfold register. apply never_throws_try_catch. intros e.
  unfold registerCatch.
  repeat (apply never_throws_if; [apply never_throws_ret|]). apply never_throws_ret.
Qed.

(** X21: a submit of the login form always settles: it does not throw
    and the form's [loading] flag ends false.  It either navigates to "/"
    and shows no error, or stays and shows a non-empty error; it
    navigates exactly when the error of [login] or [register] is null or
    empty. *)
Theorem handleSubmit_settles {W} (B : Backend W) (snapshot : Cache) (form : LoginForm)
  (m : Machine W) :
  let '(r, view, m') := handleSubmit B snapshot form m in
  r = Ok tt
  /\ form_loading (view_form view) = false
  /\ (navigated view = Some "/" /\ form_error (view_form view) = ""
      \/ navigated view = None /\ form_error (view_form view) <> "")
  /\ exists result_error,
       (if isLogin form
        then exists result,
               login B snapshot (form_email form) (form_password form) m
               = (Ok result, m') /\ lr_error result = result_error
        else exists result,
               register B snapshot (form_firstName form) (form_lastName form)
                 (form_email form) (form_password form) m
               = (Ok result, m') /\ rr_error result = result_error)
       /\ (navigated view = Some "/" <-> truthy result_error = false).
Proof.
  unfold handleSubmit, try_catch, bind.
  assert (Htruthy : forall s, truthy s = true -> or_empty s <> "").
  { intros [s|]; simpl; [|discriminate]. intros H.
    apply negb_true_iff, String.eqb_neq in H. exact H. }
  destruct (isLogin form).
  - destruct (login_returns B snapshot (form_email form) (form_password form) m)
      as (result & Hres).
    destruct (login B snapshot (form_email form) (form_password form) m)
      as [[x|e] m1]; simpl in Hres; [|discriminate]. injection Hres as ->.
    simpl. destruct (truthy (lr_error result)) eqn:Ht; simpl.
    + repeat split; auto. exists (lr_error result). split; [eauto|].
      rewrite Ht. split; discriminate.
    + repeat split; auto. exists (lr_error result). split; [eauto|].
      rewrite Ht. split; reflexivity.
  - destruct (register_returns B snapshot (form_firstName form) (form_lastName form)
                (form_email form) (form_password form) m) as (result & Hres).
    destruct (register B snapshot (form_firstName form) (form_lastName form)
                (form_email form) (form_password form) m)
      as [[x|e] m1]; simpl in Hres; [|discriminate]. injection Hres as ->.
    simpl. destruct (truthy (rr_error result)) eqn:Ht; simpl.
    + repeat split; auto. exists (rr_error result). split; [eauto|].
      rewrite Ht. split; discriminate.
    + repeat split; auto. exists (rr_error result). split; [eauto|].
      rewrite Ht. split; reflexivity.
Qed.

Lemma onAuthStateChange_cached_user {W} (B : Backend W) snapshot session su cached
  (m : Machine W) :
  event_user session = Some su ->
  cache_get snapshot (cache_key su) = Some cached ->
  user (ui (snd (onAuthStateChange B snapshot session m))) = Some cached.
Proof.
  intros Hsu Hhit. unfold onAuthStateChange. fold (event_user session).
  rewrite Hsu. fold (cache_key su). rewrite Hhit.
  destruct (updateLastLogin_run B (user_id cached)
              (mkMachine (mkAuthState (Some cached) (loading (ui m)) (userCache (ui m)))
                         (world m) (log m ++ [EvSetUser (Some cached)])))
    as (b & ts & w4 & Hup).
  unfold bind, setUser, spawn, setLoading. simpl. simpl in Hup. rewrite Hup.
  reflexivity.
Qed.

Lemma checkUser_cached_user {W} (B : Backend W) snapshot (m : Machine W) o w1 resp su
  cached :
  auth_getSession B (world m) = (o, w1) ->
  late o = false ->
  settled o = Fulfilled resp ->
  sr_user resp = Some su ->
  cache_get snapshot (cache_key su) = Some cached ->
  user (ui (snd (checkUser B snapshot m))) = Some cached.
Proof.
  intros Hcall Hlate Hs Hsu Hhit.
  unfold checkUser, try_catch_finally.
  erewrite try_catch_ok.
  2:{ erewrite bind_ok by (apply call_run; eassumption). cbv beta.
      erewrite bind_ok by (apply race_in_time; eassumption).
      rewrite Hsu. fold (cache_key su).
      erewrite bind_ok by (rewrite getUserFromCustomTable_run, Hhit; reflexivity).
      reflexivity. }
  reflexivity.
Qed.

(** X22: a registration that succeeds makes the form navigate to "/" and
    drop the success message.  [register] and the form have set no user,
    so for a visitor who was signed out the protected route at "/",
    rendered from the state they leave, answers with the redirect to
    "/login".  That lasts until a session is published: once the auth
    callback handles an event for a session, or the session check runs
    again and finds one, and the profile of the session user is in the
    cache (where [register] puts the row it creates), the user is set
    and the route renders its children. *)
Theorem register_success_then_route {W} (B : Backend W) (snapshot : Cache)
  (form : LoginForm) (m : Machine W) result m1 :
  isLogin form = false ->
  register B snapshot (form_firstName form) (form_lastName form) (form_email form)
    (form_password form) m = (Ok result, m1) ->
  rr_error result = None ->
  user (ui m) = None ->
  let '(r, view, m') := handleSubmit B snapshot form m in
  let rendered := userCache (ui m') in
  navigated view = Some "/"
  /\ form_error (view_form view) = ""
  /\ user (ui m') = None
  /\ ProtectedRoute (user (ui m')) = Navigate "/login" true
  /\ (forall session su profile,
        event_user session = Some su ->
        cache_get rendered (cache_key su) = Some profile ->
        ProtectedRoute (user (ui (snd (onAuthStateChange B rendered session m'))))
        = Children)
  /\ (forall o w1 resp su profile,
        auth_getSession B (world m') = (o, w1) ->
        late o = false ->
        settled o = Fulfilled resp ->
        sr_user resp = Some su ->
        cache_get rendered (cache_key su) = Some profile ->
        ProtectedRoute (user (ui (snd (checkUser B rendered m')))) = Children).
Proof.
  intros Hmode Hreg Herr Huser.
  pose proof (register_same_session B snapshot (form_firstName form)
                (form_lastName form) (form_email form) (form_password form) m)
    as [Hsame _].
  rewrite Hreg in Hsame. simpl in Hsame.
  unfold handleSubmit, try_catch, bind. rewrite Hmode, Hreg. simpl.
  rewrite Herr. simpl. rewrite Hsame, Huser.
  split; [reflexivity|]. split; [reflexivity|]. split; [reflexivity|].
  split; [reflexivity|]. split.
  - intros session su profile Hsu Hhit.
    now rewrite (onAuthStateChange_cached_user B _ session su profile m1 Hsu Hhit).
  - intros o w1 resp su profile Hcall Hlate Hs Hsu Hhit.
    now rewrite (checkUser_cached_user B _ m1 o w1 resp su profile
                   Hcall Hlate Hs Hsu Hhit).
Qed.

(** Jane registers through the form on services that answer well: the
    route redirects to "/login" from the state the form leaves, and
    renders its children once the callback has handled her session. *)
Lemma register_success_then_route_witness :
  let form := mkLoginForm false "Jane" "Doe" "jane@x.com" "Pwd123!" "" false in
  let session := Some (mkSession (Some jane_auth)) in
  let '(r, view, m') := handleSubmit (scripted all_well) ∅ form (initial tt) in
  navigated view = Some "/"
  /\ ProtectedRoute (user (ui m')) = Navigate "/login" true
  /\ ProtectedRoute
       (user (ui (snd (onAuthStateChange (scripted all_well) (userCache (ui m'))
                         session m'))))
     = Children.
Proof.
  intros form session.
  epose proof (register_success_then_route (scripted all_well) ∅ form (initial tt)
                 _ _ eq_refl ltac:(compute_lhs) eq_refl eq_refl) as H.
  destruct (handleSubmit (scripted all_well) ∅ form (initial tt)) as [[r view] m'] eqn:Hm.
  cbv zeta in H. destruct H as (H1 & _ & _ & H4 & H5 & _).
  split; [exact H1|]. split; [exact H4|].
  apply (H5 session jane_auth jane_row); [reflexivity|].
  apply (f_equal snd) in Hm. simpl in Hm. subst m'. vm_compute. reflexivity.
Defined.

(** ** The idea list *)

Lemma includes_empty s : includes "" s = true.
Proof. destruct s; reflexivity. Qed.

(** X23: with an empty search box, the Search tab lists every idea, in
    the order fetched, and the Saved tab lists exactly the saved ones. *)
Theorem filteredIdeas_empty_search (ideas : list ScrapedIdea) (savedIdeas : gset Z) :
  filteredIdeas ideas savedIdeas false "" = ideas
  /\ filteredIdeas ideas savedIdeas true ""
     = List.filter (fun idea => bool_decide (idea_id idea ∈ savedIdeas)) ideas.
Proof.
  unfold filteredIdeas. simpl. split.
  - induction ideas as [|idea l IH]; [reflexivity|].
    simpl. rewrite includes_empty. simpl. now rewrite IH.
  - induction ideas as [|idea l IH]; [reflexivity|].
    simpl. rewrite includes_empty. simpl. now rewrite IH.
Qed.

Lemma totalPages_bounds {A} (l : list A) :
  (10 * (totalPages l - 1) < Z.of_nat (length l) <= 10 * totalPages l)%Z.
Proof.
  unfold totalPages, ceil_div, ideasPerPage.
  pose proof (Z.div_mod (- Z.of_nat (length l)) 10 ltac:(lia)).
  pose proof (Z.mod_pos_bound (- Z.of_nat (length l)) 10 ltac:(lia)). lia.
Qed.

Lemma currentIdeas_chunk {A} (p : Z) (l : list A) :
  (1 <= p)%Z ->
  currentIdeas p l = firstn 10 (skipn (10 * Z.to_nat (p - 1)) l).
Proof.
  intros Hp. unfold currentIdeas, slice, ideasPerPage.
  replace (p * 10 - 10 <? 0)%Z with false by (symmetry; apply Z.ltb_ge; lia).
  replace (p * 10 <? 0)%Z with false by (symmetry; apply Z.ltb_ge; lia).
  set (len := Z.of_nat (length l)).
  destruct (Z_le_gt_dec len (p * 10 - 10)) as [Hshort|Hlong].
  - rewrite (Z.min_r (p * 10 - 10) len) by lia.
    rewrite (skipn_all2 l (n := Z.to_nat len)) by (unfold len; lia).
    rewrite (skipn_all2 l (n := 10 * Z.to_nat (p - 1))) by (unfold len in *; lia).
    now rewrite !firstn_nil.
  - rewrite (Z.min_l (p * 10 - 10) len) by lia.
    replace (Z.to_nat (p * 10 - 10)) with (10 * Z.to_nat (p - 1))%nat by lia.
    destruct (Z_le_gt_dec (p * 10) len) as [Hfull|Hpart].
    + rewrite (Z.min_l (p * 10) len) by lia. f_equal. lia.
    + rewrite (Z.min_r (p * 10) len) by lia.
      rewrite !firstn_all2; auto; rewrite length_skipn; unfold len in *; lia.
Qed.

Lemma chunks_concat {A} (n : nat) :
  forall l : list A,
    (length l <= 10 * n)%nat ->
    concat (map (fun i => firstn 10 (skipn (10 * i) l)) (seq 0 n)) = l.
Proof.
  induction n as [|n IH]; intros l Hlen.
  - destruct l; [reflexivity | simpl in Hlen; lia].
  - rewrite <- cons_seq, <- seq_shift, map_cons, map_map, concat_cons.
    change (skipn (10 * 0) l) with l.
    transitivity (firstn 10 l ++ skipn 10 l); [|apply firstn_skipn].
    f_equal.
    rewrite <- (IH (skipn 10 l)) by (rewrite length_skipn; lia).
    f_equal. apply map_ext. intros i.
    rewrite skipn_skipn. do 2 f_equal. lia.
Qed.

(** X24: the pages cut the filtered list without loss or repetition:
    the ideas of page 1, page 2, ... up to the last page, put end to end,
    are the filtered list. *)
Theorem pages_partition {A} (filtered : list A) :
  concat (map (fun p => currentIdeas p filtered) (pages filtered)) = filtered.
Proof.
  unfold pages, upto. rewrite map_map.
  pose proof (totalPages_bounds filtered) as Hb.
  replace (totalPages filtered - 1 + 1)%Z with (totalPages filtered) by lia.
  transitivity
    (concat (map (fun i => firstn 10 (skipn (10 * i) filtered))
               (seq 0 (Z.to_nat (totalPages filtered)))));
    [|apply chunks_concat; lia].
  f_equal. apply map_ext. intros i.
  rewrite currentIdeas_chunk by lia. do 2 f_equal. lia.
Qed.

(** X25: every page from the first to the last shows between one and ten
    ideas, ten unless it is the last; a page beyond the last shows
    none. *)
Theorem page_sizes {A} (p : Z) (filtered : list A) :
  (1 <= p)%Z ->
  ((p < totalPages filtered)%Z -> length (currentIdeas p filtered) = 10%nat)
  /\ (p = totalPages filtered ->
      (1 <= length (currentIdeas p filtered) <= 10)%nat)
  /\ ((totalPages filtered < p)%Z -> currentIdeas p filtered = []).
Proof.
  intros Hp. pose proof (totalPages_bounds filtered) as Hb.
  rewrite currentIdeas_chunk by exact Hp.
  split; [|split]; intros Hcase.
  - rewrite length_firstn, length_skipn. lia.
  - rewrite length_firstn, length_skipn. lia.
  - rewrite skipn_all2 by lia. apply firstn_nil.
Qed.

Lemma page_sizes_witness :
  let filtered := seq 0 23 in
  (1 <= 3)%Z
  /\ 3%Z = totalPages filtered
  /\ (1 <= length (currentIdeas 3 filtered) <= 10)%nat
  /\ currentIdeas 3 filtered = [20; 21; 22]%nat.
Proof.
  intros filtered.
  assert (H1 : (1 <= 3)%Z) by lia.
  assert (H2 : 3%Z = totalPages filtered) by reflexivity.
  split; [exact H1|]. split; [exact H2|].
  split; [|reflexivity].
  exact (proj1 (proj2 (page_sizes 3 filtered H1)) H2).
Defined.

Lemma In_upto x first last : In x (upto first last) <-> (first <= x <= last)%Z.
Proof.
  unfold upto. rewrite in_map_iff. split.
  - intros (i & <- & Hi). apply in_seq in Hi. lia.
  - intros Hx. exists (Z.to_nat (x - first)). split; [lia|].
    apply in_seq. lia.
Qed.

(** X26: with more than one page and the current page among them, the
    pagination shows a window of [min 5 totalPages] consecutive page
    numbers that holds the current page; page 1 and the last page are
    always among the buttons, and every button, like Next and Previous,
    leads to a page from 1 to the last. *)
Theorem pagination_stays_in_range (currentPage total : Z) :
  (1 < total)%Z ->
  (1 <= currentPage <= total)%Z ->
  (exists startPage endPage,
     pageWindow currentPage total = Some (startPage, endPage)
     /\ (1 <= startPage <= currentPage)%Z
     /\ (currentPage <= endPage <= total)%Z
     /\ (endPage - startPage + 1 = Z.min 5 total)%Z)
  /\ In 1%Z (pageButtons currentPage total)
  /\ In total (pageButtons currentPage total)
  /\ In currentPage (pageButtons currentPage total)
  /\ (forall b, In b (pageButtons currentPage total) -> (1 <= b <= total)%Z)
  /\ (1 <= goToNextPage currentPage total <= total)%Z
  /\ (1 <= goToPreviousPage currentPage <= total)%Z.
Proof.
  intros Htotal Hp.
  assert (Hwin : exists startPage endPage,
            pageWindow currentPage total = Some (startPage, endPage)
            /\ (1 <= startPage <= currentPage)%Z
            /\ (currentPage <= endPage <= total)%Z
            /\ (endPage - startPage + 1 = Z.min 5 total)%Z).
  { unfold pageWindow.
    replace (total <=? 1)%Z with false by (symmetry; apply Z.leb_gt; lia).
    change (5 / 2)%Z with 2%Z. cbv zeta.
    destruct (Z.min total (Z.max 1 (currentPage - 2) + 5 - 1)
                - Z.max 1 (currentPage - 2) + 1 <? 5)%Z eqn:Hshort;
      [apply Z.ltb_lt in Hshort | apply Z.ltb_ge in Hshort];
      eexists; eexists; (split; [reflexivity|]); lia. }
  split; [exact Hwin|].
  destruct Hwin as (startPage & endPage & Hw & Hs & He & Hlen).
  unfold pageButtons. rewrite Hw.
  assert (Hin : forall x,
            In x ((if (startPage >? 1)%Z then [1%Z] else [])
                    ++ upto startPage endPage
                    ++ (if (endPage <? total)%Z then [total] else []))
            <-> (startPage > 1 /\ x = 1)%Z
                \/ (startPage <= x <= endPage)%Z
                \/ (endPage < total /\ x = total)%Z).
  { intros x. rewrite !in_app_iff, In_upto.
    destruct (startPage >? 1)%Z eqn:H1; destruct (endPage <? total)%Z eqn:H2;
      simpl;
      [apply Z.gtb_lt in H1 | apply Z.gtb_lt in H1 | | ];
      try apply Z.ltb_lt in H2; try apply Z.ltb_ge in H2;
      try (apply Z.gtb_ltb in H1 || (rewrite Z.gtb_ltb in H1; apply Z.ltb_ge in H1));
      intuition lia. }
  repeat split; try (apply Hin; lia).
  - apply Hin in H. lia.
  - apply Hin in H. lia.
  - unfold goToNextPage. destruct (currentPage <? total)%Z eqn:H; lia.
  - unfold goToNextPage. destruct (currentPage <? total)%Z eqn:H;
      [apply Z.ltb_lt in H|]; lia.
  - unfold goToPreviousPage. destruct (currentPage >? 1)%Z eqn:H;
      [apply Z.gtb_lt in H|]; lia.
  - unfold goToPreviousPage. destruct (currentPage >? 1)%Z; lia.
Qed.

(** Page 7 of 12: the window is 5 to 9, with 1 and 12 at the ends. *)
Lemma pagination_stays_in_range_witness :
  (1 < 12)%Z /\ (1 <= 7 <= 12)%Z
  /\ pageButtons 7 12 = [1; 5; 6; 7; 8; 9; 12]%Z
  /\ (forall b, In b (pageButtons 7 12) -> (1 <= b <= 12)%Z).
Proof.
  assert (H1 : (1 < 12)%Z) by lia.
  assert (H2 : (1 <= 7 <= 12)%Z) by lia.
  split; [exact H1|]. split; [exact H2|]. split; [reflexivity|].
  exact (proj1 (proj2 (proj2 (proj2 (proj2 (pagination_stays_in_range 7 12 H1 H2)))))).
Defined.

(** ** Saved ideas *)

Ltac home_cases :=
  repeat match goal with
  | |- context [match ?h ?w with _ => _ end] =>
      lazymatch h with
      | saved_delete _ _ _ => idtac
      | saved_insert _ _ _ => idtac
      | user_check _ _ => idtac
      | saved_select _ _ => idtac
      end;
      let o := fresh "o" in let w' := fresh "w'" in
      destruct (h w) as [o w']; destruct o as [? [[?|]|?]]; simpl
  end.

(** X27: toggleSaveIdea never throws and touches the saved flag of no
    other idea, whatever the store answers; without a user it does
    nothing at all. *)
Theorem toggleSaveIdea_touches_one_idea {W} (supabase : SavedBackend W)
    (user : option User) (snapshot : gset Z) (ideaId : Z) (m : Machine (HomeWorld W)) :
  let r := toggleSaveIdea supabase user snapshot ideaId m in
  fst r = Ok tt
  /\ (forall j, j <> ideaId ->
        (j ∈ savedIdeas (world (snd r)) <-> j ∈ savedIdeas (world m)))
  /\ (user = None -> snd r = m).
Proof.
  destruct m as [u [saved al w] lg].
  unfold toggleSaveIdea. destruct user as [usr|]; simpl.
  2:{ split; [reflexivity|]. split; [tauto | reflexivity]. }
  unfold try_catch, bind, home_call, await, setSavedIdeas, alert, ret, throw; simpl.
  destruct (bool_decide (ideaId ∈ snapshot)); simpl; home_cases;
    (split; [reflexivity|]); (split; [|discriminate]); intros j Hj;
    rewrite ?elem_of_difference, ?elem_of_union, ?elem_of_singleton; tauto.
Qed.

(** X28: saving an idea either adds it to the set without an alert, or
    leaves the set as it was and raises exactly one alert: a save that
    failed is never silent. *)
Theorem toggleSaveIdea_save_or_alert {W} (supabase : SavedBackend W)
    (user : User) (snapshot : gset Z) (ideaId : Z) (m : Machine (HomeWorld W)) :
  ideaId ∉ snapshot ->
  let m' := snd (toggleSaveIdea supabase (Some user) snapshot ideaId m) in
  (savedIdeas (world m') = savedIdeas (world m) ∪ {[ideaId]}
   /\ alerts (world m') = alerts (world m))
  \/ (savedIdeas (world m') = savedIdeas (world m)
      /\ exists a, alerts (world m') = alerts (world m) ++ [a]).
Proof.
  intros Hnot. destruct m as [u [saved al w] lg].
  unfold toggleSaveIdea.
  rewrite bool_decide_eq_false_2 by exact Hnot.
  unfold try_catch, bind, home_call, await, setSavedIdeas, alert, ret, throw; simpl.
  home_cases; eauto.
Qed.

Lemma toggleSaveIdea_save_or_alert_witness :
  let m := home_initial (W := list (Id * Z)) ∅ [] in
  let m' := snd (toggleSaveIdea pairs_backend (Some jane_row) ∅ 7%Z m) in
  (savedIdeas (world m') = savedIdeas (world m) ∪ {[7%Z]}
   /\ alerts (world m') = alerts (world m))
  \/ (savedIdeas (world m') = savedIdeas (world m)
      /\ exists a, alerts (world m') = alerts (world m) ++ [a]).
Proof.
  apply (toggleSaveIdea_save_or_alert pairs_backend jane_row ∅ 7%Z).
  apply not_elem_of_empty.
Defined.

(** X29: removing a saved idea fails silently when the store answers
    with an error: the set is kept and no alert is raised. *)
Theorem toggleSaveIdea_failed_removal_is_silent {W} (supabase : SavedBackend W)
    (user : User) (snapshot : gset Z) (ideaId : Z) (m : Machine (HomeWorld W))
    lt err w' :
  ideaId ∈ snapshot ->
  saved_delete supabase (user_id user) ideaId (services (world m))
    = (mkOutcome lt (Fulfilled (Some err)), w') ->
  let m' := snd (toggleSaveIdea supabase (Some user) snapshot ideaId m) in
  savedIdeas (world m') = savedIdeas (world m)
  /\ alerts (world m') = alerts (world m).
Proof.
  intros Hin Hdel. destruct m as [u [saved al w] lg]. simpl in Hdel.
  unfold toggleSaveIdea.
  rewrite bool_decide_eq_true_2 by exact Hin.
  unfold try_catch, bind, home_call, await, setSavedIdeas, alert, ret, throw; simpl.
  rewrite Hdel. simpl. split; reflexivity.
Qed.

Lemma toggleSaveIdea_failed_removal_is_silent_witness :
  let m := home_initial {[7%Z]} tt in
  let m' := snd (toggleSaveIdea refusing_backend (Some jane_row) {[7%Z]} 7%Z m) in
  savedIdeas (world m') = savedIdeas (world m)
  /\ alerts (world m') = alerts (world m).
Proof.
  apply (toggleSaveIdea_failed_removal_is_silent refusing_backend jane_row {[7%Z]} 7%Z
           (home_initial {[7%Z]} tt) false denied tt).
  - apply elem_of_singleton. reflexivity.
  - reflexivity.
Defined.

(** X30: with a store that answers every call without an error, saving
    an idea and then removing it (each from the render that shows the
    current set) gives back the set the user started with, without an
    alert. *)
Theorem toggleSaveIdea_save_then_remove {W} (supabase : SavedBackend W)
    (user : User) (ideaId : Z) (m : Machine (HomeWorld W)) :
  obliging supabase ->
  ideaId ∉ savedIdeas (world m) ->
  let m1 := snd (toggleSaveIdea supabase (Some user) (savedIdeas (world m)) ideaId m) in
  let m2 := snd (toggleSaveIdea supabase (Some user) (savedIdeas (world m1)) ideaId m1) in
  ideaId ∈ savedIdeas (world m1)
  /\ savedIdeas (world m2) = savedIdeas (world m)
  /\ alerts (world m2) = alerts (world m).
Proof.
  intros (Hdel & Hchk & Hins) Hnot.
  destruct (Hchk (user_id user) (services (world m))) as (lt1 & w1 & E1).
  destruct (Hins (user_id user) ideaId w1) as (lt2 & w2 & E2).
  destruct (Hdel (user_id user) ideaId w2) as (lt3 & w3 & E3).
  assert (H1 : toggleSaveIdea supabase (Some user) (savedIdeas (world m)) ideaId m
               = (Ok tt, mkMachine (ui m)
                           (mkHomeWorld (savedIdeas (world m) ∪ {[ideaId]})
                                        (alerts (world m)) w2)
                           (log m))).
  { unfold toggleSaveIdea.
    rewrite bool_decide_eq_false_2 by exact Hnot.
    unfold try_catch, bind, home_call, await, setSavedIdeas, ret; simpl.
    rewrite E1; simpl. rewrite E2; simpl. reflexivity. }
  cbv zeta. rewrite H1. simpl.
  assert (Hin : ideaId ∈ savedIdeas (world m) ∪ {[ideaId]})
    by (apply elem_of_union; right; apply elem_of_singleton; reflexivity).
  unfold toggleSaveIdea.
  rewrite bool_decide_eq_true_2 by exact Hin.
  unfold try_catch, bind, home_call, await, setSavedIdeas, ret; simpl.
  rewrite E3. simpl.
  split; [exact Hin|]. split; [|reflexivity].
  apply set_eq. intros j.
  rewrite elem_of_difference, elem_of_union, elem_of_singleton.
  split; [tauto|]. intros Hj. split; [tauto|]. intros ->. contradiction.
Qed.

Lemma pairs_backend_obliging : obliging pairs_backend.
Proof. repeat split; intros; simpl; eauto. Qed.

Lemma toggleSaveIdea_save_then_remove_witness :
  let m := home_initial (W := list (Id * Z)) {[3%Z]} [] in
  let m1 := snd (toggleSaveIdea pairs_backend (Some jane_row) (savedIdeas (world m)) 7%Z m) in
  let m2 := snd (toggleSaveIdea pairs_backend (Some jane_row) (savedIdeas (world m1)) 7%Z m1) in
  7%Z ∈ savedIdeas (world m1)
  /\ savedIdeas (world m2) = savedIdeas (world m)
  /\ alerts (world m2) = alerts (world m).
Proof.
  apply (toggleSaveIdea_save_then_remove pairs_backend jane_row 7%Z).
  - exact pairs_backend_obliging.
  - simpl. apply not_elem_of_singleton. discriminate.
Defined.

(** X2: [fetchSavedIdeas] never throws and raises no alert.  The set
    after it is either the set before, or exactly the ids that the store
    returned without an error: repeated ids collapse, and a null [data]
    gives the empty set.  Without a user it does nothing at all. *)
Theorem fetchSavedIdeas_replaces_or_keeps {W} (supabase : SavedBackend W)
    (user : option User) (m : Machine (HomeWorld W)) :
  let r := fetchSavedIdeas supabase user m in
  fst r = Ok tt
  /\ alerts (world (snd r)) = alerts (world m)
  /\ (savedIdeas (world (snd r)) = savedIdeas (world m)
      \/ exists usr lt resp w',
           user = Some usr
           /\ saved_select supabase (user_id usr) (services (world m))
              = (mkOutcome lt (Fulfilled resp), w')
           /\ saved_error resp = None
           /\ forall j, j ∈ savedIdeas (world (snd r))
                        <-> exists data, saved_data resp = Some data /\ In j data)
  /\ (user = None -> snd r = m).
Proof.
  destruct m as [u [saved al w] lg].
  unfold fetchSavedIdeas. destruct user as [usr|]; simpl.
  2:{ repeat (split; [reflexivity|]). split; [left|]; reflexivity. }
  unfold try_catch, bind, home_call, await, setSavedIdeas, ret, throw; simpl.
  destruct (saved_select supabase (user_id usr) w) as [[lt [[data err]|e]] w'] eqn:Hsel;
    simpl; [destruct err as [err|]; simpl|];
    repeat (split; [reflexivity|]); (split; [|discriminate]);
    [left; reflexivity | | left; reflexivity].
  right. exists usr, lt, (mkSavedResponse data None), w'.
  split; [reflexivity|]. split; [exact Hsel|]. split; [reflexivity|].
  intros j. simpl. destruct data as [data|].
  - rewrite elem_of_list_to_set, list_elem_of_In. split.
    + intros Hj. exists data. split; [reflexivity | exact Hj].
    + intros (d & [= <-] & Hj). exact Hj.
  - rewrite elem_of_empty. split; [contradiction|]. intros (d & Hd & _). discriminate.
Qed.
